(** * Fuego smoke classifier: the detection loop of [detect_fire.py]

    A shallow embedding of the queueing, filtering and alerting code of
    [src/smoke-classifier/detect_fire.py] and of [expandRange] of
    [src/image_crop/recrop_min_size.py], and the properties the
    specification states about them.

    Conventions of the embedding.
    - Python [int] is [Z].
    - Python [float] (scores, durations, the value of [time.time()]) is the
      binary64 type [float] of the prover, with its own addition,
      multiplication, division and comparisons: every rounding, infinity
      and NaN of the code is in the model.  A decimal literal such as
      [0.2] is the float nearest to it, as in Python.  A comparison between an [int]
      and a [float] is exact, as in Python; the conversion of an [int] to
      a [float] rounds to nearest even and raises [OverflowError] past the
      largest float.
    - A dictionary with a fixed set of keys is a record.
    - A function that mutates its arguments returns the new values.
    - An uncaught Python exception is the outcome [Raise e].
    - [logging] calls and [time.sleep] change nothing that is modelled and
      are left out. *)

From Stdlib Require Import ZArith List Sorted Permutation String DecimalString
  Bool Lia.
From Stdlib Require Import Floats.
Import ListNotations.

Local Open Scope Z_scope.

(** A decimal literal denotes the nearest binary64 float, as in Python. *)
Set Warnings "-inexact-float".

(** ** Python values and outcomes *)

Module Py.

Inductive PyError : Type :=
| IndexError
| ZeroDivisionError
| FileNotFoundError
| AssertionError
| KeyError
| OverflowError
| ValueError.

(** The outcome of running a piece of code: a value, an uncaught
    exception, or [NoMoreInput] when the run asks the outside world for
    more events than the scenario under study provides. *)
Inductive outcome (A : Type) : Type :=
| Ret (a : A)
| Raise (e : PyError)
| NoMoreInput.

Arguments Ret {A} a.
Arguments Raise {A} e.
Arguments NoMoreInput {A}.

(** Sequencing: an exception of the first part ends the run. *)
Definition and_then {A B : Type} (o : outcome A) (k : A -> outcome B)
  : outcome B :=
  match o with
  | Ret a => k a
  | Raise e => Raise e
  | NoMoreInput => NoMoreInput
  end.

Declare Scope outcome_scope.
Delimit Scope outcome_scope with outcome.
Notation "x <- c ;; k" := (and_then c (fun x => k))
  (at level 61, c at next level, right associativity) : outcome_scope.

(** A Python number: an [int] or a [float]. *)
Inductive number : Type :=
| PyInt (z : Z)
| PyFloat (f : float).

(** The float is a NaN. *)
Definition SFis_nan (a : spec_float) : bool :=
  match a with
  | S754_nan => true
  | _ => false
  end.

(** Python's [max(a, b)] of two floats: [b] when [b > a], else [a]. *)
Definition fmax (a b : float) : float := if PrimFloat.ltb a b then b else a.

(** Python's [min(a, b)] of two integers: [b] when [b < a], else [a]. *)
Definition min (a b : Z) : Z := if b <? a then b else a.

(** Truth value of a string: the empty string is false. *)
Definition truthy (s : string) : bool := negb (String.eqb s EmptyString).

(** Truth value of an optional string ([None] is false). *)
Definition truthy_opt (s : option string) : bool :=
  match s with
  | Some s => truthy s
  | None => false
  end.

(** [len(l)] as an integer. *)
Definition len {A : Type} (l : list A) : Z := Z.of_nat (List.length l).

(** The float nearest to an integer, ties to even; an infinity past the
    largest float. *)
Definition nearest_float (z : Z) : spec_float :=
  binary_normalize prec emax z 0 false.

(** [float(z)] of an integer, as in [z * x] or [x / z] for a float [x]. *)
Definition float_of_int (z : Z) : outcome float :=
  match nearest_float z with
  | S754_infinity _ => Raise OverflowError
  | sf => Ret (SF2Prim sf)
  end.

(** [float(len(l))]: the length of a list is below [2^63], far from the
    largest float. *)
Definition float_of_len {A : Type} (l : list A) : float :=
  SF2Prim (nearest_float (len l)).

(** [a / 2] for an integer [a]: the float nearest to the quotient. *)
Definition int_half (a : Z) : outcome float :=
  match binary_normalize prec emax a (-1) false with
  | S754_infinity _ => Raise OverflowError
  | sf => Ret (SF2Prim sf)
  end.

(** [int(x)] of a float: truncation towards zero. *)
Definition int_of_float (x : float) : outcome Z :=
  match Prim2SF x with
  | S754_nan => Raise ValueError
  | S754_infinity _ => Raise OverflowError
  | S754_zero _ => Ret 0
  | S754_finite s m e =>
      let a := match e with
               | Z.neg p => Z.pos m / 2 ^ Z.pos p
               | _ => Z.pos m * 2 ^ e
               end in
      Ret (if s then - a else a)
  end.

(** The order of an integer and a float, compared exactly as Python
    does; [None] for a NaN. *)
Definition compare_int_float (z : Z) (x : float) : option comparison :=
  match Prim2SF x with
  | S754_nan => None
  | S754_infinity s => Some (if s then Gt else Lt)
  | S754_zero _ => Some (z ?= 0)
  | S754_finite s m e =>
      let v := if s then Z.neg m else Z.pos m in
      Some (match e with
            | Z.neg p => (z * 2 ^ Z.pos p ?= v)
            | _ => (z ?= v * 2 ^ e)
            end)
  end.

(** [z < x] for an integer [z] and a float [x]. *)
Definition int_lt_float (z : Z) (x : float) : bool :=
  match compare_int_float z x with
  | Some Lt => true
  | _ => false
  end.

(** [x >= z] for a float [x] and an integer [z]. *)
Definition float_ge_int (x : float) (z : Z) : bool :=
  match compare_int_float z x with
  | Some Lt | Some Eq => true
  | _ => false
  end.

(** [x >= z] for a number [x] and an integer [z]. *)
Definition number_ge_int (x : number) (z : Z) : bool :=
  match x with
  | PyInt a => z <=? a
  | PyFloat f => float_ge_int f z
  end.

(** [x + d] for a number [x] and a float [d]. *)
Definition number_add_float (x : number) (d : float) : outcome float :=
  match x with
  | PyInt a =>
      match float_of_int a with
      | Ret f => Ret (f + d)%float
      | Raise e => Raise e
      | NoMoreInput => NoMoreInput
      end
  | PyFloat f => Ret (f + d)%float
  end.

End Py.

Import Py.

(** Case analysis on the comparisons of exponents and mantissas that the
    order of two floats is made of. *)
Ltac sf_cases :=
  repeat match goal with
         | |- context [Pos.compare_cont Eq ?x ?y] =>
             change (Pos.compare_cont Eq x y) with (Pos.compare x y)
         | H : context [Pos.compare_cont Eq ?x ?y] |- _ =>
             change (Pos.compare_cont Eq x y) with (Pos.compare x y) in H
         end;
  repeat match goal with
         | |- context [Z.compare ?x ?y] => destruct (Z.compare_spec x y)
         | H : context [Z.compare ?x ?y] |- _ => destruct (Z.compare_spec x y)
         | |- context [Pos.compare ?x ?y] => destruct (Pos.compare_spec x y)
         | H : context [Pos.compare ?x ?y] |- _ =>
             destruct (Pos.compare_spec x y)
         end;
  subst; simpl in *; try discriminate; try reflexivity; try lia.

(** ** TimeTracker (lines 629-673) *)

Module TimeTracker.

(** The dictionary: [totalTime] is the float 0.0 at the start and the
    integer 0 after a reset; [timePerSample] is the integer 3 at the
    start and a float after a reset. *)
Record t : Type := mk {
  totalTime : number;
  numSamples : Z;
  timePerSample : number
}.

(** [initializeTimeTracker()] *)
Definition initializeTimeTracker : t :=
  {| totalTime := PyFloat 0; numSamples := 0; timePerSample := PyInt 3 |}.

(** [updateTimeTracker(timeTracker, processingTime)]: the two
    accumulators are updated first, then tested. *)
Definition updateTimeTracker (timeTracker : t) (processingTime : float)
  : outcome t :=
  match number_add_float (totalTime timeTracker) processingTime with
  | Ret totalTime1 =>
      let numSamples1 := numSamples timeTracker + 1 in
      if 50 <? numSamples1 then
        match float_of_int numSamples1 with
        | Ret n =>
            Ret {| totalTime := PyInt 0;
                   numSamples := 0;
                   timePerSample := PyFloat (totalTime1 / n)%float |}
        | Raise e => Raise e
        | NoMoreInput => NoMoreInput
        end
      else
        Ret {| totalTime := PyFloat totalTime1;
               numSamples := numSamples1;
               timePerSample := timePerSample timeTracker |}
  | Raise e => Raise e
  | NoMoreInput => NoMoreInput
  end.

(** The tracker after a run of ticks, one duration per tick, as the main
    loop calls [updateTimeTracker] once per classified image. *)
Fixpoint record_all (timeTracker : t) (durations : list float) : outcome t :=
  match durations with
  | [] => Ret timeTracker
  | d :: durations' =>
      match updateTimeTracker timeTracker d with
      | Ret timeTracker1 => record_all timeTracker1 durations'
      | Raise e => Raise e
      | NoMoreInput => NoMoreInput
      end
  end.

(** The sum [((start + d1) + d2) + ...] as the code accumulates it, each
    addition rounded. *)
Definition total_from (start : float) (durations : list float) : float :=
  fold_left PrimFloat.add durations start.

End TimeTracker.

(** ** The deferred-image queue (lines 59-98 and 676-758, and its use in
       [main], lines 856-868) *)

Module Deferred.

(** An entry of the [cameras] list.  The key ['md5'] is absent until the
    first successful fetch. *)
Record Camera : Type := mkCamera {
  cam_name : string;
  cam_url : string;
  cam_md5 : option string
}.

(** An entry of [deferredImages]. *)
Record DeferredImage : Type := mkDeferred {
  timestamp : Z;
  cameraID : string;
  imgPath : string;
  md5 : string;
  oldWait : Z
}.

(** What the outside world answers to one pass through the body of
    [getNextImage]: the value of the shared counter (read only when no
    camera is requested), the clock, and the download, [None] when
    [urlretrieve] raises and otherwise the MD5 digest of the bytes
    written. *)
Record Attempt : Type := mkAttempt {
  counter : Z;
  now : Z;
  download : option string
}.

(** The tuple [(cameraID, timestamp, imgPath, md5)] that [getNextImage]
    returns. *)
Definition Fetched : Type := (string * Z * string * string)%type.

(** The objects the queue code reads and mutates: the [cameras] list,
    the files on disk, the [deferredImages] list, and the answers of the
    outside world still to come. *)
Record World : Type := mkWorld {
  cameras : list Camera;
  files : list string;
  deferredImages : list DeferredImage;
  events : list Attempt
}.

(** *** State and exceptions *)

Definition M (A : Type) : Type := World -> outcome (A * World).

Definition ret {A : Type} (a : A) : M A := fun w => Ret (a, w).

Definition bind {A B : Type} (c : M A) (k : A -> M B) : M B :=
  fun w =>
    match c w with
    | Ret (a, w1) => k a w1
    | Raise e => Raise e
    | NoMoreInput => NoMoreInput
    end.

Definition raise {A : Type} (e : PyError) : M A := fun _ => Raise e.

Declare Scope py_scope.
Delimit Scope py_scope with py.
Notation "x <- c ;; k" := (bind c (fun x => k))
  (at level 61, c at next level, right associativity) : py_scope.
Notation "c ;; k" := (bind c (fun _ => k))
  (at level 61, right associativity) : py_scope.
Local Open Scope py_scope.

Definition getDeferredImages : M (list DeferredImage) :=
  fun w => Ret (deferredImages w, w).

Definition setDeferredImages (q : list DeferredImage) : M unit :=
  fun w => Ret (tt, {| cameras := cameras w; files := files w;
                        deferredImages := q; events := events w |}).

(** *** Files *)

Definition file_exists (path : string) (fs : list string) : bool :=
  existsb (String.eqb path) fs.

(** A file is created, or overwritten when it exists. *)
Definition write_file (path : string) (fs : list string) : list string :=
  if file_exists path fs then fs else path :: fs.

Definition delete_file (path : string) (fs : list string) : list string :=
  filter (fun p => negb (String.eqb path p)) fs.

(** [os.remove(path)] *)
Definition os_remove (path : string) : M unit :=
  fun w =>
    if file_exists path (files w) then
      Ret (tt, {| cameras := cameras w;
                  files := delete_file path (files w);
                  deferredImages := deferredImages w;
                  events := events w |})
    else Raise FileNotFoundError.

(** *** Lists *)

(** Index of the first element that satisfies [p]. *)
Fixpoint find_index {A : Type} (p : A -> bool) (l : list A) : option nat :=
  match l with
  | [] => None
  | x :: l' => if p x then Some O
               else option_map S (find_index p l')
  end.

(** [camera['md5'] = md5] for the camera at [index]; the dictionary is
    the one held by the [cameras] list. *)
Fixpoint set_md5 (index : nat) (h : string) (cams : list Camera)
  : list Camera :=
  match cams, index with
  | [], _ => []
  | c :: cams', O =>
      {| cam_name := cam_name c; cam_url := cam_url c;
         cam_md5 := Some h |} :: cams'
  | c :: cams', S i => c :: set_md5 i h cams'
  end.

Definition md5_is (c : Camera) (h : string) : bool :=
  match cam_md5 c with
  | Some h0 => String.eqb h0 h
  | None => false
  end.

Section Queue.

(** [img_archive.getImgPath(tmpDir, cameraName, timestamp)], for the
    temporary directory of the process; [img_archive] is not part of
    the sources at hand. *)
Variable getImgPath : string -> Z -> string.

(** Name of the file [genDiffImage(imgPath, earlierImgPath,
    minusMinutes)] writes; it is computed from [imgPath] and
    [minusMinutes] by [img_archive]. *)
Variable diffImgPath : string -> Z -> string.

(** [getNextImage(dbManager, cameras, cameraID=None)] (lines 59-98).
    The function calls itself after a failed download and after an
    unchanged image; each pass consumes one [Attempt]. *)
Fixpoint getNextImage_from (evs : list Attempt) (wanted : option string)
    (cams : list Camera) (fs : list string)
  : outcome (Fetched * (list Camera * list string * list Attempt)) :=
  match evs with
  | [] => NoMoreInput
  | ev :: evs' =>
      let chosen : outcome nat :=
        match wanted with
        | Some cid =>
            if truthy cid then
              match find_index (fun x => String.eqb (cam_name x) cid) cams with
              | Some i => Ret i
              | None => Raise IndexError
              end
            else if len cams =? 0 then Raise ZeroDivisionError
            else Ret (Z.to_nat (counter ev mod len cams))
        | None =>
            if len cams =? 0 then Raise ZeroDivisionError
            else Ret (Z.to_nat (counter ev mod len cams))
        end in
      match chosen with
      | Ret index =>
          match nth_error cams index with
          | None => Raise IndexError
          | Some camera =>
              let timestamp := now ev in
              let imgPath := getImgPath (cam_name camera) timestamp in
              match download ev with
              | None => getNextImage_from evs' None cams fs
              | Some md5 =>
                  let fs1 := write_file imgPath fs in
                  if md5_is camera md5 && negb (truthy_opt wanted) then
                    getNextImage_from evs' None cams fs1
                  else
                    Ret ((cam_name camera, timestamp, imgPath, md5),
                         (set_md5 index md5 cams, fs1, evs'))
              end
          end
      | Raise e => Raise e
      | NoMoreInput => NoMoreInput
      end
  end.

Definition getNextImage (wanted : option string) : M Fetched :=
  fun w =>
    match getNextImage_from (events w) wanted (cameras w) (files w) with
    | Ret (f, (cams, fs, evs)) =>
        Ret (f, {| cameras := cams; files := fs;
                   deferredImages := deferredImages w; events := evs |})
    | Raise e => Raise e
    | NoMoreInput => NoMoreInput
    end.

(** [Image.open(path)], as far as the file system goes. *)
Definition image_open (path : string) : M unit :=
  fun w =>
    if file_exists path (files w) then Ret (tt, w)
    else Raise FileNotFoundError.

(** [genDiffImage(imgPath, earlierImgPath, minusMinutes)] (lines
    606-626), as far as the file system goes: both images are opened and
    the difference image is written next to [imgPath]. *)
Definition genDiffImage (imgPath earlierImgPath : string)
    (minusMinutes : Z) : M string :=
  image_open imgPath ;;
  image_open earlierImgPath ;;
  fun w =>
    let imgDiffPath := diffImgPath imgPath minusMinutes in
    Ret (imgDiffPath,
         {| cameras := cameras w;
            files := write_file imgDiffPath (files w);
            deferredImages := deferredImages w;
            events := events w |}).

(** [expectedDrainSeconds(deferredImages, timeTracker)]: an integer
    product while [timePerSample] is the integer 3, a float product
    after. *)
Definition expectedDrainSeconds (deferredImages : list DeferredImage)
    (timeTracker : TimeTracker.t) : number :=
  match TimeTracker.timePerSample timeTracker with
  | PyInt z => PyInt (len deferredImages * z)
  | PyFloat f => PyFloat (float_of_len deferredImages * f)%float
  end.

(** [getDeferrredImgageInfo(deferredImages, timeTracker, minusMinutes,
    currentTime)] *)
Definition getDeferrredImgageInfo (timeTracker : TimeTracker.t)
    (minusMinutes : Z) (currentTime : float)
  : M (bool * option DeferredImage) :=
  if minusMinutes =? 0 then ret (false, None)
  else
    q <- getDeferredImages ;;
    match q with
    | [] => ret (false, None)
    | head :: rest =>
        let minusSeconds := 60 * minusMinutes in
        let queueFull :=
          number_ge_int (expectedDrainSeconds q timeTracker) minusSeconds in
        if queueFull
           || int_lt_float (timestamp head + minusSeconds) currentTime
        then
          setDeferredImages rest ;;
          ret (queueFull, Some head)
        else ret (queueFull, None)
    end.

(** [addToDeferredImages(dbManager, cameras, deferredImages)] *)
Definition addToDeferredImages : M unit :=
  f <- getNextImage None ;;
  let '(cameraID0, timestamp0, imgPath0, md50) := f in
  q <- getDeferredImages ;;
  let matches := filter (fun x => String.eqb (cameraID x) cameraID0) q in
  if 0 <? len matches then
    if len matches =? 1 then ret tt else raise AssertionError
  else
    setDeferredImages
      (q ++ [ {| timestamp := timestamp0; cameraID := cameraID0;
                 imgPath := imgPath0; md5 := md50; oldWait := 0 |} ]).

(** [genDiffImageFromDeferred(dbManager, cameras, deferredImageInfo,
    deferredImages, minusMinutes)].  The tuple of four [None] is
    [None] here. *)
Definition genDiffImageFromDeferred (deferredImageInfo : DeferredImage)
    (minusMinutes : Z) : M (option (string * Z * string * string)) :=
  f <- getNextImage (Some (cameraID deferredImageInfo)) ;;
  let '(cameraID0, timestamp0, imgPath0, md50) := f in
  let timeDiff := timestamp0 - timestamp deferredImageInfo in
  if String.eqb md50 (md5 deferredImageInfo) then
    (if timeDiff + oldWait deferredImageInfo
          <? Py.min (2 * 60 * minusMinutes) (5 * 60)
     then
       q <- getDeferredImages ;;
       setDeferredImages
         (q ++ [ {| timestamp := timestamp0;
                    cameraID := cameraID deferredImageInfo;
                    imgPath := imgPath deferredImageInfo;
                    md5 := md5 deferredImageInfo;
                    oldWait := oldWait deferredImageInfo + timeDiff |} ])
     else os_remove (imgPath deferredImageInfo)) ;;
    os_remove imgPath0 ;;
    ret None
  else
    imgDiffPath <- genDiffImage imgPath0 (imgPath deferredImageInfo)
                                minusMinutes ;;
    ret (Some (cameraID0, timestamp0, imgPath0, imgDiffPath)).

(** The difference-mode branch of the loop body of [main] (lines
    856-868): [Some] of the image to classify, or [None] where the
    loop [continue]s. *)
Definition diffModeStep (timeTracker : TimeTracker.t) (minusMinutes : Z)
    (timeStart : float) : M (option (string * Z * string * string)) :=
  r <- getDeferrredImgageInfo timeTracker minusMinutes timeStart ;;
  let '(queueFull, deferredImageInfo) := r in
  (if negb queueFull then addToDeferredImages else ret tt) ;;
  match deferredImageInfo with
  | Some info =>
      d <- genDiffImageFromDeferred info minusMinutes ;;
      match d with
      | Some (cameraID0, timestamp0, imgPath0, classifyImgPath) =>
          if negb (truthy cameraID0) then ret None
          else
            os_remove (imgPath info) ;;
            ret (Some (cameraID0, timestamp0, imgPath0, classifyImgPath))
      | None => ret None
      end
  | None => ret None
  end.

End Queue.

(** *** Data of a run *)

(** File names as [img_archive] builds them, up to the directory: the
    camera name and the timestamp. *)
Definition example_getImgPath (cameraName : string) (timestamp : Z) : string :=
  (cameraName ++ "_" ++ NilZero.string_of_int (Z.to_int timestamp) ++ ".jpg")%string.

Definition example_diffImgPath (imgPath : string) (minusMinutes : Z) : string :=
  (imgPath ++ "_Diff" ++ NilZero.string_of_int (Z.to_int minusMinutes))%string.

(** A process that watches the single camera peak1 and has just started:
    no image fetched yet, an empty queue.  The camera shows image X at
    second 0, image Y at second 20 and image X again from second 61 on,
    then image Z at second 63. *)
Definition world_peak1 : World :=
  {| cameras := [ {| cam_name := "peak1"; cam_url := "http://peak1";
                     cam_md5 := None |} ];
     files := [];
     deferredImages := [];
     events := [ {| counter := 0; now := 0; download := Some "X"%string |};
                 {| counter := 1; now := 20; download := Some "Y"%string |};
                 {| counter := 2; now := 61; download := Some "X"%string |};
                 {| counter := 3; now := 62; download := Some "X"%string |};
                 {| counter := 4; now := 63; download := Some "Z"%string |} ] |}.

(** Three passes of the loop of [main] in difference mode with
    [minusMinutes = 1] and the initial time estimate, started at seconds
    0, 20 and 61; none of them has an image to classify. *)
Definition three_ticks : M (option (string * Z * string * string)) :=
  (diffModeStep example_getImgPath example_diffImgPath
     TimeTracker.initializeTimeTracker 1 0%float ;;
   diffModeStep example_getImgPath example_diffImgPath
     TimeTracker.initializeTimeTracker 1 20%float ;;
   diffModeStep example_getImgPath example_diffImgPath
     TimeTracker.initializeTimeTracker 1 61%float)%py.

(** The pass that follows, started at second 63. *)
Definition four_ticks : M (option (string * Z * string * string)) :=
  (three_ticks ;;
   diffModeStep example_getImgPath example_diffImgPath
     TimeTracker.initializeTimeTracker 1 63%float)%py.

(** The entry made for camera peak1 at second 0. *)
Definition entry_peak1 : DeferredImage :=
  {| timestamp := 0; cameraID := "peak1"; imgPath := "peak1_0.jpg";
     md5 := "X"; oldWait := 0 |}.

(** The process once [entry_peak1] is queued, the camera still showing
    image X at second 61. *)
Definition world_waiting : World :=
  {| cameras := [ {| cam_name := "peak1"; cam_url := "http://peak1";
                     cam_md5 := Some "X"%string |} ];
     files := [ "peak1_0.jpg"%string ];
     deferredImages := [ entry_peak1 ];
     events := [ {| counter := 1; now := 61; download := Some "X"%string |} ] |}.

(** The same once the entry has been taken from the queue. *)
Definition world_resolving : World :=
  {| cameras := cameras world_waiting;
     files := files world_waiting;
     deferredImages := [];
     events := events world_waiting |}.


(** The camera names of the queue, in order. *)
Definition queued_cameras (q : list DeferredImage) : list string :=
  map cameraID q.

(** At most one entry per camera. *)
Definition one_per_camera (q : list DeferredImage) : Prop :=
  NoDup (queued_cameras q).

End Deferred.

(** ** The database *)

Module Db.

(** A row of table [scores], as written by [recordScores]. *)
Module ScoreRow.
Record t : Type := mk {
  CameraName : string;
  Timestamp : Z;
  MinX : Z;
  MinY : Z;
  MaxX : Z;
  MaxY : Z;
  Score : float;
  MinusMinutes : Z;
  SecondsInDay : Z
}.
End ScoreRow.

(** A row of table [detections], as written by [recordDetection]. *)
Module DetectionRow.
Record t : Type := mk {
  CameraName : string;
  Timestamp : Z;
  MinX : Z;
  MinY : Z;
  MaxX : Z;
  MaxY : Z;
  Score : float;
  HistAvg : float;
  HistMax : float;
  HistNumSamples : Z;
  ImageID : string
}.
End DetectionRow.

(** A row of table [alerts], as written by [checkAndUpdateAlerts]. *)
Module AlertRow.
Record t : Type := mk {
  CameraName : string;
  Timestamp : Z;
  ImageID : string
}.
End AlertRow.

(** A row of the result of the grouped [SELECT] of [postFilter]. *)
Module HistRow.
Record t : Type := mk {
  minx : Z;
  miny : Z;
  maxx : Z;
  maxy : Z;
  cnt : Z;
  avgs : float;
  maxs : float
}.
End HistRow.

(** The two [SELECT] statements the detection loop sends. *)
Inductive Query : Type :=
| SelectScoreHistory (camera : string) (tsLow tsHigh sidLow sidHigh : Z)
| SelectRecentAlerts (camera : string) (tsLow : Z).

(** Modelled from the spec: the class [db_manager.DbManager] is not among
    the sources.  The persistence contract is [insert(table, row|rows)] and
    [query(sql) -> [row]]; the three tables are the ones the detection loop
    reads and writes, a row is appended by [add_data], and [queries] logs
    every statement passed to [query], oldest first. *)
Record DbManager : Type := mkDb {
  scores : list ScoreRow.t;
  detections : list DetectionRow.t;
  alerts : list AlertRow.t;
  queries : list Query
}.

Definition empty : DbManager :=
  {| scores := []; detections := []; alerts := []; queries := [] |}.

(** [dbManager.add_data('scores', dbRows)] *)
Definition add_scores (db : DbManager) (rows : list ScoreRow.t) : DbManager :=
  {| scores := scores db ++ rows; detections := detections db;
     alerts := alerts db; queries := queries db |}.

(** [dbManager.add_data('detections', dbRow)] *)
Definition add_detection (db : DbManager) (row : DetectionRow.t) : DbManager :=
  {| scores := scores db; detections := detections db ++ [row];
     alerts := alerts db; queries := queries db |}.

(** [dbManager.add_data('alerts', dbRow)] *)
Definition add_alert (db : DbManager) (row : AlertRow.t) : DbManager :=
  {| scores := scores db; detections := detections db;
     alerts := alerts db ++ [row]; queries := queries db |}.

Definition log_query (db : DbManager) (q : Query) : DbManager :=
  {| scores := scores db; detections := detections db;
     alerts := alerts db; queries := queries db ++ [q] |}.

(** The [WHERE] clause of the statement of [postFilter]. *)
Definition in_history_window (camera : string)
    (tsLow tsHigh sidLow sidHigh : Z) (r : ScoreRow.t) : bool :=
  String.eqb (ScoreRow.CameraName r) camera
  && (tsLow <? ScoreRow.Timestamp r) && (ScoreRow.Timestamp r <? tsHigh)
  && (sidLow <? ScoreRow.SecondsInDay r) && (ScoreRow.SecondsInDay r <? sidHigh).

(** A group of [GROUP BY MinX,MinY,MaxX,MaxY] while it is being built:
    the box and the scores of its rows, in the order of the table. *)
Record Group : Type := mkGroup {
  g_minx : Z;
  g_miny : Z;
  g_maxx : Z;
  g_maxy : Z;
  g_scores : list float
}.

Definition Box : Type := (Z * Z * Z * Z)%type.

Definition row_box (r : ScoreRow.t) : Box :=
  (ScoreRow.MinX r, ScoreRow.MinY r, ScoreRow.MaxX r, ScoreRow.MaxY r).

Definition group_box (g : Group) : Box :=
  (g_minx g, g_miny g, g_maxx g, g_maxy g).

Definition hist_box (row : HistRow.t) : Box :=
  (HistRow.minx row, HistRow.miny row, HistRow.maxx row, HistRow.maxy row).

Definition in_group (r : ScoreRow.t) (g : Group) : bool :=
  (g_minx g =? ScoreRow.MinX r) && (g_miny g =? ScoreRow.MinY r)
  && (g_maxx g =? ScoreRow.MaxX r) && (g_maxy g =? ScoreRow.MaxY r).

Fixpoint add_to_groups (r : ScoreRow.t) (gs : list Group) : list Group :=
  match gs with
  | [] =>
      [ {| g_minx := ScoreRow.MinX r; g_miny := ScoreRow.MinY r;
           g_maxx := ScoreRow.MaxX r; g_maxy := ScoreRow.MaxY r;
           g_scores := [ScoreRow.Score r] |} ]
  | g :: gs' =>
      if in_group r g then
        {| g_minx := g_minx g; g_miny := g_miny g;
           g_maxx := g_maxx g; g_maxy := g_maxy g;
           g_scores := g_scores g ++ [ScoreRow.Score r] |} :: gs'
      else g :: add_to_groups r gs'
  end.

Definition group_by_box (rows : list ScoreRow.t) : list Group :=
  fold_left (fun gs r => add_to_groups r gs) rows [].

(** Modelled from the spec: [max(score)] of a group, the largest of its
    scores, found with comparisons alone; the engine stores no NaN, and a
    group has at least one score. *)
Definition sql_max (scores : list float) : float :=
  match scores with
  | [] => nan
  | x :: scores' => fold_left fmax scores' x
  end.

Section Engine.

(** Modelled from the spec: [avg(score)] of a group as the database
    engine computes it from the scores of the group; its rounding is the
    engine's own, so it is left open. *)
Variable sql_avg : list float -> float.

Definition hist_row_of (g : Group) : HistRow.t :=
  {| HistRow.minx := g_minx g; HistRow.miny := g_miny g;
     HistRow.maxx := g_maxx g; HistRow.maxy := g_maxy g;
     HistRow.cnt := len (g_scores g);
     HistRow.avgs := sql_avg (g_scores g);
     HistRow.maxs := sql_max (g_scores g) |}.

(** Modelled from the spec: what [dbManager.query] answers to

      SELECT MinX,MinY,MaxX,MaxY,count( * ) as cnt, avg(score) as avgs,
             max(score) as maxs FROM scores
      WHERE CameraName='%s' and Timestamp > %s and Timestamp < %s
            and SecondsInDay > %s and SecondsInDay < %s
      GROUP BY MinX,MinY,MaxX,MaxY

    one row per distinct box among the selected rows of [scores], here in
    the order in which the boxes first occur. *)
Definition select_score_history (db : DbManager) (camera : string)
    (tsLow tsHigh sidLow sidHigh : Z) : list HistRow.t :=
  map hist_row_of
    (group_by_box
       (filter (in_history_window camera tsLow tsHigh sidLow sidHigh)
               (scores db))).

(** [dbManager.query(sqlStr)] for that statement: the rows and the
    database with the statement logged. *)
Definition query_score_history (db : DbManager) (camera : string)
    (tsLow tsHigh sidLow sidHigh : Z) : list HistRow.t * DbManager :=
  (select_score_history db camera tsLow tsHigh sidLow sidHigh,
   log_query db (SelectScoreHistory camera tsLow tsHigh sidLow sidHigh)).

End Engine.

(** Modelled from the spec: what [dbManager.query] answers to

      SELECT * FROM alerts where CameraName='%s' and timestamp > %s *)
Definition select_recent_alerts (db : DbManager) (camera : string)
    (tsLow : Z) : list AlertRow.t :=
  filter (fun r => String.eqb (AlertRow.CameraName r) camera
                   && (tsLow <? AlertRow.Timestamp r))
         (alerts db).

(** [dbManager.query(sqlStr)] for that statement. *)
Definition query_recent_alerts (db : DbManager) (camera : string)
    (tsLow : Z) : list AlertRow.t * DbManager :=
  (select_recent_alerts db camera tsLow,
   log_query db (SelectRecentAlerts camera tsLow)).

End Db.

(** ** Recording, filtering and alerting (lines 160-250, 365-439, 573-603) *)

Module Detect.

Import Db.

(** The three keys [postFilter] adds to the segment it selects. *)
Record Hist : Type := mkHist {
  HistAvg : float;
  HistMax : float;
  HistNumSamples : Z
}.

(** A segment dictionary: the box, the score given by [classify], and the
    history keys, absent until [postFilter] selects the segment. *)
Record Segment : Type := mkSegment {
  MinX : Z;
  MinY : Z;
  MaxX : Z;
  MaxY : Z;
  score : float;
  hist : option Hist
}.

(** The segment with the three history keys assigned from [row]. *)
Definition with_hist (segmentInfo : Segment) (row : HistRow.t) : Segment :=
  {| MinX := MinX segmentInfo; MinY := MinY segmentInfo;
     MaxX := MaxX segmentInfo; MaxY := MaxY segmentInfo;
     score := score segmentInfo;
     hist := Some {| HistAvg := HistRow.avgs row;
                     HistMax := HistRow.maxs row;
                     HistNumSamples := HistRow.cnt row |} |}.

Definition segment_box (segmentInfo : Segment) : Box :=
  (MinX segmentInfo, MinY segmentInfo, MaxX segmentInfo, MaxY segmentInfo).

(** The test of lines 236-237. *)
Definition same_box (row : HistRow.t) (segmentInfo : Segment) : bool :=
  (HistRow.minx row =? MinX segmentInfo)
  && (HistRow.miny row =? MinY segmentInfo)
  && (HistRow.maxx row =? MaxX segmentInfo)
  && (HistRow.maxy row =? MaxY segmentInfo).

(** Lines 238-241: [threshold = (row['maxs'] + 1)/2] and then
    [threshold = max(threshold, row['maxs'] + 0.2)]. *)
Definition threshold_of (maxs : float) : float :=
  let threshold := ((maxs + 1) / 2)%float in
  let threshold := fmax threshold (maxs + 0.2)%float in
  threshold.

(** The loop variables [maxFireSegment] and [maxFireScore]; the latter
    starts as the integer 0, which compares with a float as 0.0 does. *)
Definition Best : Type := (option Segment * float)%type.

(** The inner loop, lines 235-248, for one segment. *)
Fixpoint scan_rows (segmentInfo : Segment) (dbResult : list HistRow.t)
    (best : Best) : Best :=
  match dbResult with
  | [] => best
  | row :: dbResult' =>
      let best1 :=
        if same_box row segmentInfo then
          let threshold := threshold_of (HistRow.maxs row) in
          if PrimFloat.ltb threshold (score segmentInfo)
             && PrimFloat.ltb (snd best) (score segmentInfo)
          then (Some (with_hist segmentInfo row), score segmentInfo)
          else best
        else best in
      scan_rows segmentInfo dbResult' best1
  end.

(** The outer loop, lines 232-248, with its [break]. *)
Fixpoint scan_segments (segments : list Segment) (dbResult : list HistRow.t)
    (best : Best) : Best :=
  match segments with
  | [] => best
  | segmentInfo :: segments' =>
      if PrimFloat.ltb (score segmentInfo) 0.5 then best
      else scan_segments segments' dbResult
             (scan_rows segmentInfo dbResult best)
  end.

(** The first row of the history, if any, that is of the box of the
    segment and whose threshold the segment exceeds. *)
Definition clearing_row (s : Segment) (dbResult : list HistRow.t)
  : option HistRow.t :=
  find (fun row => same_box row s
                   && PrimFloat.ltb (threshold_of (HistRow.maxs row)) (score s))
       dbResult.

(** The first segment, before the first one below 0.5, that has a
    clearing row, with the statistics of that row. *)
Fixpoint first_clearing (segments : list Segment)
    (dbResult : list HistRow.t) : option Segment :=
  match segments with
  | [] => None
  | s :: segments' =>
      if PrimFloat.ltb (score s) 0.5 then None
      else match clearing_row s dbResult with
           | Some row => Some (with_hist s row)
           | None => first_clearing segments' dbResult
           end
  end.

Section LocalTime.

(** [avg(score)] as the database engine computes it. *)
Variable sql_avg : list float -> float.

(** [(dt.hour * 60 + dt.minute) * 60 + dt.second] for
    [dt = datetime.datetime.fromtimestamp(timestamp)]: the second of the
    day in the time zone of the process. *)
Variable secondsInDayOf : Z -> Z.

(** [recordScores(dbManager, camera, timestamp, segments, minusMinutes)] *)
Definition recordScores (db : DbManager) (camera : string) (timestamp : Z)
    (segments : list Segment) (minusMinutes : Z) : DbManager :=
  let secondsInDay := secondsInDayOf timestamp in
  let dbRows :=
    map (fun segmentInfo =>
           {| ScoreRow.CameraName := camera;
              ScoreRow.Timestamp := timestamp;
              ScoreRow.MinX := MinX segmentInfo;
              ScoreRow.MinY := MinY segmentInfo;
              ScoreRow.MaxX := MaxX segmentInfo;
              ScoreRow.MaxY := MaxY segmentInfo;
              ScoreRow.Score := score segmentInfo;
              ScoreRow.MinusMinutes := minusMinutes;
              ScoreRow.SecondsInDay := secondsInDay |})
        segments in
  add_scores db dbRows.

(** [postFilter(dbManager, camera, timestamp, segments)]; [int(24*3.5)]
    is 84. *)
Definition postFilter (db : DbManager) (camera : string) (timestamp : Z)
    (segments : list Segment) : outcome (option Segment * DbManager) :=
  match segments with
  | [] => Raise IndexError
  | first :: _ =>
      if PrimFloat.ltb (score first) 0.5 then Ret (None, db)
      else
        let secondsInDay := secondsInDayOf timestamp in
        let '(dbResult, db1) :=
          query_score_history sql_avg db camera
            (timestamp - 60 * 60 * 84) (timestamp - 60 * 60 * 12)
            (secondsInDay - 60 * 60) (secondsInDay + 60 * 60) in
        let maxFireSegment : option Segment := None in
        let maxFireScore : float := 0%float in
        Ret (fst (scan_segments segments dbResult
                    (maxFireSegment, maxFireScore)),
             db1)
  end.

(** [driveFileIDs[0] if driveFileIDs else ''] *)
Definition first_id (driveFileIDs : list string) : string :=
  match driveFileIDs with
  | id :: _ => id
  | [] => EmptyString
  end.

(** [recordDetection(dbManager, service, camera, timestamp, imgPath,
    annotatedFile, fireSegment)], with the identifiers the two uploads
    yield given as [driveFileIDs]; reading a history key from a segment
    without them raises [KeyError]. *)
Definition recordDetection (db : DbManager) (camera : string) (timestamp : Z)
    (driveFileIDs : list string) (fireSegment : Segment)
  : outcome (list string * DbManager) :=
  match hist fireSegment with
  | None => Raise KeyError
  | Some h =>
      let dbRow :=
        {| DetectionRow.CameraName := camera;
           DetectionRow.Timestamp := timestamp;
           DetectionRow.MinX := MinX fireSegment;
           DetectionRow.MinY := MinY fireSegment;
           DetectionRow.MaxX := MaxX fireSegment;
           DetectionRow.MaxY := MaxY fireSegment;
           DetectionRow.Score := score fireSegment;
           DetectionRow.HistAvg := HistAvg h;
           DetectionRow.HistMax := HistMax h;
           DetectionRow.HistNumSamples := HistNumSamples h;
           DetectionRow.ImageID := first_id driveFileIDs |} in
      Ret (driveFileIDs, add_detection db dbRow)
  end.

(** [checkAndUpdateAlerts(dbManager, camera, timestamp, driveFileIDs)] *)
Definition checkAndUpdateAlerts (db : DbManager) (camera : string)
    (timestamp : Z) (driveFileIDs : list string) : bool * DbManager :=
  let '(dbResult, db1) :=
    query_recent_alerts db camera (timestamp - 60 * 60 * 2) in
  if 0 <? len dbResult then (false, db1)
  else
    let dbRow :=
      {| AlertRow.CameraName := camera;
         AlertRow.Timestamp := timestamp;
         AlertRow.ImageID := first_id driveFileIDs |} in
    (true, add_alert db1 dbRow).

(** [recordFilterReport(...)] (lines 573-603), as far as the database
    goes: image files, uploads, notifications and the heartbeat are left
    out, and [driveFileIDs] is what the uploads of [recordDetection]
    yield.  The result tells whether [alertFire] is called. *)
Definition recordFilterReport (db : DbManager) (cameraID : string)
    (timestamp : Z) (segments : list Segment) (minusMinutes : Z)
    (positivesOnly : bool) (driveFileIDs : list string)
  : outcome (bool * DbManager) :=
  let last_line (r : bool * DbManager) : outcome (bool * DbManager) :=
    match segments with
    | [] => Raise IndexError
    | _ :: _ => Ret r
    end in
  if negb positivesOnly then
    let db1 := recordScores db cameraID timestamp segments minusMinutes in
    match postFilter db1 cameraID timestamp segments with
    | Ret (Some fireSegment, db2) =>
        match recordDetection db2 cameraID timestamp driveFileIDs fireSegment with
        | Ret (ids, db3) =>
            last_line (checkAndUpdateAlerts db3 cameraID timestamp ids)
        | Raise e => Raise e
        | NoMoreInput => NoMoreInput
        end
    | Ret (None, db2) => last_line (false, db2)
    | Raise e => Raise e
    | NoMoreInput => NoMoreInput
    end
  else last_line (false, db).

(** The rows [postFilter] gets from its query at [timestamp]. *)
Definition history (db : DbManager) (camera : string) (timestamp : Z)
  : list HistRow.t :=
  select_score_history sql_avg db camera
    (timestamp - 60 * 60 * 84) (timestamp - 60 * 60 * 12)
    (secondsInDayOf timestamp - 60 * 60) (secondsInDayOf timestamp + 60 * 60).

End LocalTime.

(** Some row of the ledger is of the camera and later than [tsLow]. *)
Definition recent_alert (db : DbManager) (camera : string) (tsLow : Z)
  : Prop :=
  exists r, In r (alerts db) /\ AlertRow.CameraName r = camera
            /\ tsLow < AlertRow.Timestamp r.

(** *** Data of the scenarios of the specification *)

(** An engine that adds the scores of a group in the order of the rows
    and divides by their number. *)
Definition example_avg (scores : list float) : float :=
  (fold_left PrimFloat.add scores 0 / float_of_len scores)%float.

(** The second of the day for a process that runs in UTC. *)
Definition utc_secondsInDay (timestamp : Z) : Z := timestamp mod 86400.

(** A segment of box [(0, 0, 299, 299)] and one of box
    [(300, 0, 599, 299)], fresh from [classify]. *)
Definition segment_A (sc : float) : Segment :=
  {| MinX := 0; MinY := 0; MaxX := 299; MaxY := 299;
     score := sc; hist := None |}.

Definition segment_B (sc : float) : Segment :=
  {| MinX := 300; MinY := 0; MaxX := 599; MaxY := 299;
     score := sc; hist := None |}.

(** A row of [scores] for camera peak1 and the box of [segment_B],
    written at [timestamp] by a process in UTC. *)
Definition score_row_B (timestamp : Z) (sc : float) : ScoreRow.t :=
  {| ScoreRow.CameraName := "peak1";
     ScoreRow.Timestamp := timestamp;
     ScoreRow.MinX := 300; ScoreRow.MinY := 0;
     ScoreRow.MaxX := 599; ScoreRow.MaxY := 299;
     ScoreRow.Score := sc;
     ScoreRow.MinusMinutes := 0;
     ScoreRow.SecondsInDay := utc_secondsInDay timestamp |}.

(** A database whose only content is scores of the box of [segment_B]
    one and two days before 1600000000, the higher one being 0.75. *)
Definition db_peak1_B : DbManager :=
  {| scores := [ score_row_B (1600000000 - 86400) 0.75;
                 score_row_B (1600000000 - 2 * 86400) 0.6 ];
     detections := []; alerts := []; queries := [] |}.

End Detect.

(** ** The history filter as the specification words it *)

Module HistoryFilter.

Import Db Detect.

(** The list is sorted by decreasing score, as [classify] leaves it: no
    segment scores below a later one. *)
Definition sorted_desc (segments : list Segment) : Prop :=
  StronglySorted
    (fun a b => PrimFloat.ltb (score a) (score b) = false) segments.

(** [threshold = max((historicalMax+1)/2, historicalMax+0.2)]: the larger
    of the point halfway between the historical maximum and 1, and the
    historical maximum plus 0.2. *)
Definition threshold (historicalMax : float) : float :=
  let halfway := ((historicalMax + 1) / 2)%float in
  let margin := (historicalMax + 0.2)%float in
  if PrimFloat.ltb halfway margin then margin else halfway.

(** The history row is of the bounding box of the segment. *)
Definition of_box (row : HistRow.t) (s : Segment) : Prop :=
  HistRow.minx row = MinX s /\ HistRow.miny row = MinY s
  /\ HistRow.maxx row = MaxX s /\ HistRow.maxy row = MaxY s.

(** The segment scores above the threshold derived from the history of
    its own box. *)
Definition clears (dbResult : list HistRow.t) (s : Segment) : Prop :=
  exists row,
    In row dbResult /\ of_box row s
    /\ PrimFloat.ltb (threshold (HistRow.maxs row)) (score s) = true.

(** The segment is a candidate: it scores above 0.5 and clears the
    threshold of its box. *)
Definition candidate (dbResult : list HistRow.t) (s : Segment) : Prop :=
  PrimFloat.ltb 0.5 (score s) = true /\ clears dbResult s.

End HistoryFilter.

(** ** Deleting the images of a tick (lines 513-525) *)

Module Cleanup.

Import Deferred.

Local Open Scope py_scope.

(** [deleteImageFiles(imgPath, origImgPath, annotatedFile)];
    [annotatedFile] is [None] or a path. *)
Definition deleteImageFiles (imgPath origImgPath : string)
    (annotatedFile : option string) : M unit :=
  os_remove imgPath ;;
  (if negb (String.eqb imgPath origImgPath) then os_remove origImgPath
   else ret tt) ;;
  match annotatedFile with
  | Some path => if truthy path then os_remove path else ret tt
  | None => ret tt
  end.

End Cleanup.

(** ** Classification (lines 550-570) *)

Module Classify.

Import Detect.

(** [segmentInfo['score'] = ...] *)
Definition set_score (segmentInfo : Segment) (sc : float) : Segment :=
  {| MinX := MinX segmentInfo; MinY := MinY segmentInfo;
     MaxX := MaxX segmentInfo; MaxY := MaxY segmentInfo;
     score := sc; hist := hist segmentInfo |}.

(** [float(predictions[idx, 1])] for a two-dimensional array given by its
    rows; every number of the array has its value as a binary64 float. *)
Definition prediction_at (predictions : list (list float)) (idx : nat)
  : outcome float :=
  match nth_error predictions idx with
  | None => Raise IndexError
  | Some row =>
      match nth_error row 1 with
      | None => Raise IndexError
      | Some p => Ret p
      end
  end.

(** The loop of lines 566-567, from index [idx] on. *)
Fixpoint assign_scores (segment_infos : list Segment)
    (predictions : list (list float)) (idx : nat) : outcome (list Segment) :=
  match segment_infos with
  | [] => Ret []
  | segmentInfo :: rest =>
      match prediction_at predictions idx with
      | Ret p =>
          match assign_scores rest predictions (S idx) with
          | Ret rest' => Ret (set_score segmentInfo p :: rest')
          | Raise e => Raise e
          | NoMoreInput => NoMoreInput
          end
      | Raise e => Raise e
      | NoMoreInput => NoMoreInput
      end
  end.

(** The key of the sort, [-x['score']]. *)
Definition key (x : Segment) : float := (- score x)%float.

(** [list.sort(key=lambda x: -x['score'])].  The sort of Python compares
    keys with [<] alone and is stable; when no key is a NaN a stable sort
    has one result, computed here by insertion from the right, each
    element going before the first element whose key is not smaller than
    its own.  With a NaN among the keys [<] is no order and the list
    Python leaves depends on the steps of its merge sort: the result
    here is then one permutation among those. *)
Fixpoint insert_by_key (s : Segment) (sorted : list Segment) : list Segment :=
  match sorted with
  | [] => [s]
  | x :: sorted' =>
      if PrimFloat.ltb (key x) (key s) then x :: insert_by_key s sorted'
      else s :: x :: sorted'
  end.

Definition sort_by_key (segment_infos : list Segment) : list Segment :=
  fold_right insert_by_key [] segment_infos.

(** [classify(image_crops, segment_infos, prediction_service)], with the
    answer of [predict_batch] given as [predictions]. *)
Definition classify (segment_infos : list Segment)
    (predictions : list (list float)) : outcome (list Segment) :=
  match assign_scores segment_infos predictions 0 with
  | Ret scored => Ret (sort_by_key scored)
  | Raise e => Raise e
  | NoMoreInput => NoMoreInput
  end.

End Classify.

(** ** [expandRange] of [image_crop/recrop_min_size.py] (lines 96-130) *)

Module Recrop.

Local Open Scope outcome_scope.

(** [max(a, b)] and [min(a, b)] of two integers. *)
Definition imax (a b : Z) : Z := if a <? b then b else a.

Definition imin (a b : Z) : Z := if b <? a then b else a.

(** [int(a/2)] for an integer [a]: the true division gives a float, which
    [int] truncates. *)
Definition int_of_half (a : Z) : outcome Z :=
  h <- int_half a ;; int_of_float h.

(** [int(a*x)] for an integer [a] and a float [x]. *)
Definition int_of_product (a : Z) (x : float) : outcome Z :=
  f <- float_of_int a ;; int_of_float (f * x)%float.

(** [expandRange(val0, val1, minimumDiff, growRatio, minLimit, maxLimit)] *)
Definition expandRange (val0 val1 minimumDiff : Z) (growRatio : float)
    (minLimit maxLimit : Z) : outcome (Z * Z) :=
  let val0 := imax val0 minLimit in
  let val1 := imin val1 maxLimit in
  let diff := val1 - val0 in
  halfDiff <- int_of_half diff ;;
  let center := val0 + halfDiff in
  grown <- int_of_product diff growRatio ;;
  let minimumDiff := imax minimumDiff grown in
  if diff <? minimumDiff then
    half <- int_of_half minimumDiff ;;
    if center - half <? minLimit then
      let val0 := minLimit in
      let val1 := imin (val0 + minimumDiff) maxLimit in
      Ret (val0, val1)
    else if maxLimit <? center + half then
      let val1 := maxLimit in
      let val0 := imax (val1 - minimumDiff) minLimit in
      Ret (val0, val1)
    else
      let val0 := center - half in
      let val1 := imin (val0 + minimumDiff) maxLimit in
      Ret (val0, val1)
  else Ret (val0, val1).

(** The size the range is grown to: [max(minimumDiff, int(diff*growRatio))]
    for the range clipped to the limits. *)
Definition wanted_size (val0 val1 minimumDiff : Z) (growRatio : float)
    (minLimit maxLimit : Z) : outcome Z :=
  grown <- int_of_product (imin val1 maxLimit - imax val0 minLimit)
                          growRatio ;;
  Ret (imax minimumDiff grown).

End Recrop.

(** ** The loop variables of [postFilter] *)

Module Selection.

Import Db Detect.

(** The loop variables hold nothing, or a segment of the list with the
    row of the history it cleared. *)
Definition selected_from (segments : list Segment)
    (dbResult : list HistRow.t) (best : Best) : Prop :=
  fst best = None
  \/ exists s row,
       fst best = Some (with_hist s row)
       /\ In s segments /\ In row dbResult /\ same_box row s = true
       /\ PrimFloat.ltb (score s) 0.5 = false
       /\ PrimFloat.ltb (threshold_of (HistRow.maxs row)) (score s) = true.

End Selection.

(** ** Reading an outcome *)

Module Answer.

(** The value of an outcome without the state that comes with it. *)
Definition value {A S : Type} (o : outcome (A * S)) : outcome A :=
  match o with
  | Ret (a, _) => Ret a
  | Raise e => Raise e
  | NoMoreInput => NoMoreInput
  end.

End Answer.

(** * Properties *)

(** ** The order of binary64 floats *)

Section FloatOrder.

Lemma SFltb_irrefl (a : spec_float) : SFltb a a = false.
Proof.
  unfold SFltb. destruct a as [s|s| |s m e]; try destruct s; simpl;
    try reflexivity; sf_cases.
Qed.

Lemma SFltb_trans (a b c : spec_float) :
  SFltb a b = true -> SFltb b c = true -> SFltb a c = true.
Proof.
  unfold SFltb.
  destruct a as [sa|sa| |sa ma ea], b as [sb|sb| |sb mb eb],
           c as [sc|sc| |sc mc ec];
    try destruct sa; try destruct sb; try destruct sc; simpl;
    try discriminate; try reflexivity; intros H1 H2; sf_cases.
Qed.

Lemma SFltb_negtrans (a b c : spec_float) :
  SFis_nan b = false ->
  SFltb a b = false -> SFltb b c = false -> SFltb a c = false.
Proof.
  unfold SFltb.
  destruct a as [sa|sa| |sa ma ea], b as [sb|sb| |sb mb eb],
           c as [sc|sc| |sc mc ec];
    try destruct sa; try destruct sb; try destruct sc; simpl;
    try discriminate; try reflexivity; intros _ H1 H2; sf_cases.
Qed.

Lemma SFltb_not_nan (a b : spec_float) :
  SFltb a b = true -> SFis_nan a = false /\ SFis_nan b = false.
Proof.
  unfold SFltb. destruct a, b; simpl; try discriminate; auto.
Qed.

Lemma SFltb_opp (a b : spec_float) :
  SFltb (SFopp a) (SFopp b) = SFltb b a.
Proof.
  unfold SFltb.
  destruct a as [sa|sa| |sa ma ea], b as [sb|sb| |sb mb eb];
    try destruct sa; try destruct sb; simpl; try reflexivity; sf_cases.
Qed.

Lemma SFeqb_refl (a : spec_float) : SFeqb a a = negb (SFis_nan a).
Proof.
  unfold SFeqb. destruct a as [s|s| |s m e]; try destruct s; simpl;
    try reflexivity; sf_cases.
Qed.

(** [x] is a NaN exactly when its specification is. *)
Lemma is_nan_spec (x : float) : PrimFloat.is_nan x = SFis_nan (Prim2SF x).
Proof.
  unfold PrimFloat.is_nan. rewrite eqb_spec, SFeqb_refl.
  apply negb_involutive.
Qed.

Lemma fltb_irrefl (x : float) : (x <? x)%float = false.
Proof. rewrite ltb_spec. apply SFltb_irrefl. Qed.

Lemma fltb_trans (x y z : float) :
  (x <? y)%float = true -> (y <? z)%float = true -> (x <? z)%float = true.
Proof. rewrite !ltb_spec. apply SFltb_trans. Qed.

Lemma fltb_asym (x y : float) :
  (x <? y)%float = true -> (y <? x)%float = false.
Proof.
  intros H. destruct (y <? x)%float eqn:E; [|reflexivity].
  pose proof (fltb_trans _ _ _ H E) as C.
  rewrite fltb_irrefl in C. discriminate.
Qed.

(** "Not below" is transitive through a number that is no NaN. *)
Lemma fltb_negtrans (x y z : float) :
  PrimFloat.is_nan y = false ->
  (x <? y)%float = false -> (y <? z)%float = false -> (x <? z)%float = false.
Proof. rewrite is_nan_spec, !ltb_spec. apply SFltb_negtrans. Qed.

Lemma fltb_not_nan (x y : float) :
  (x <? y)%float = true ->
  PrimFloat.is_nan x = false /\ PrimFloat.is_nan y = false.
Proof. rewrite !is_nan_spec, ltb_spec. apply SFltb_not_nan. Qed.

(** A number that is no NaN is above [x] or below [z] when [x] is
    below [z]. *)
Lemma fltb_cotrans (x y z : float) :
  PrimFloat.is_nan y = false ->
  (x <? z)%float = true ->
  (x <? y)%float = true \/ (y <? z)%float = true.
Proof.
  intros Hy Hxz.
  destruct (x <? y)%float eqn:E1; [left; reflexivity|].
  destruct (y <? z)%float eqn:E2; [right; reflexivity|].
  pose proof (fltb_negtrans x y z Hy E1 E2). congruence.
Qed.

Lemma fltb_opp (x y : float) : (- x <? - y)%float = (y <? x)%float.
Proof. rewrite !ltb_spec, !opp_spec. apply SFltb_opp. Qed.

Lemma is_nan_opp (x : float) :
  PrimFloat.is_nan (- x)%float = PrimFloat.is_nan x.
Proof.
  rewrite !is_nan_spec, opp_spec. destruct (Prim2SF x); reflexivity.
Qed.

End FloatOrder.

(** ** Integers *)


(** ** TimeTracker *)

Section TimeTrackerFacts.

Import TimeTracker.

Lemma len_cons {A : Type} (x : A) (l : list A) : len (x :: l) = len l + 1.
Proof. unfold len. rewrite length_cons. lia. Qed.

Lemma len_nonneg {A : Type} (l : list A) : 0 <= len l.
Proof. unfold len. lia. Qed.

(** While the count stays at 50 or below, a call only accumulates. *)
Lemma updateTimeTracker_accumulates (tt : t) (f d : float) :
  totalTime tt = PyFloat f ->
  numSamples tt + 1 <= 50 ->
  updateTimeTracker tt d =
    Ret {| totalTime := PyFloat (f + d);
           numSamples := numSamples tt + 1;
           timePerSample := timePerSample tt |}.
Proof.
  intros Ht H. unfold updateTimeTracker. rewrite Ht. simpl.
  destruct (Z.ltb_spec 50 (numSamples tt + 1)); [lia|reflexivity].
Qed.

(** The 51st sample: the average replaces the estimate and the
    accumulators restart. *)
Lemma updateTimeTracker_resets (tt : t) (f d : float) :
  totalTime tt = PyFloat f ->
  numSamples tt = 50 ->
  updateTimeTracker tt d =
    Ret {| totalTime := PyInt 0;
           numSamples := 0;
           timePerSample := PyFloat ((f + d) / 51) |}.
Proof.
  intros Ht H. unfold updateTimeTracker. rewrite Ht, H. reflexivity.
Qed.

(** After a reset [totalTime] is the integer 0, which a call adds to as
    it adds to 0.0. *)
Lemma updateTimeTracker_after_reset (tt : t) (d : float) :
  totalTime tt = PyInt 0 ->
  updateTimeTracker tt d =
    updateTimeTracker {| totalTime := PyFloat 0;
                         numSamples := numSamples tt;
                         timePerSample := timePerSample tt |} d.
Proof.
  intros Ht. unfold updateTimeTracker. rewrite Ht. reflexivity.
Qed.

Lemma record_all_app (ds1 ds2 : list float) :
  forall tt : t,
    record_all tt (ds1 ++ ds2)
    = match record_all tt ds1 with
      | Ret tt1 => record_all tt1 ds2
      | Raise e => Raise e
      | NoMoreInput => NoMoreInput
      end.
Proof.
  induction ds1 as [|d ds1 IH]; intros tt; simpl; [reflexivity|].
  destruct (updateTimeTracker tt d); auto.
Qed.

Lemma record_all_accumulates (ds : list float) :
  forall (tt : t) (f : float),
    totalTime tt = PyFloat f ->
    numSamples tt + len ds <= 50 ->
    record_all tt ds =
      Ret {| totalTime := PyFloat (total_from f ds);
             numSamples := numSamples tt + len ds;
             timePerSample := timePerSample tt |}.
Proof.
  induction ds as [|d ds IH]; intros tt f Ht Hn.
  - simpl. unfold len. simpl. rewrite Z.add_0_r, <- Ht.
    destruct tt; reflexivity.
  - rewrite len_cons in *. pose proof (len_nonneg ds).
    cbn [record_all].
    rewrite (updateTimeTracker_accumulates tt f d Ht) by lia.
    rewrite (IH {| totalTime := PyFloat (f + d);
                   numSamples := numSamples tt + 1;
                   timePerSample := timePerSample tt |} (f + d)%float eq_refl)
      by (cbn [numSamples]; lia).
    cbn [numSamples timePerSample].
    replace (numSamples tt + 1 + len ds) with (numSamples tt + (len ds + 1))
      by lia.
    reflexivity.
Qed.

(** From a state with empty accumulators, 51 samples end in a state with
    empty accumulators whose estimate is the sum of the 51, added in
    order, divided by 51. *)
Lemma record_all_block (tt : t) (block : list float) :
  numSamples tt = 0 ->
  totalTime tt = PyInt 0 \/ totalTime tt = PyFloat 0 ->
  List.length block = 51%nat ->
  record_all tt block =
    Ret {| totalTime := PyInt 0;
           numSamples := 0;
           timePerSample := PyFloat (total_from 0 block / 51) |}.
Proof.
  intros Hn Ht Hlen.
  assert (Hfloat : forall tt0, numSamples tt0 = 0 ->
            totalTime tt0 = PyFloat 0 ->
            record_all tt0 block =
              Ret {| totalTime := PyInt 0;
                     numSamples := 0;
                     timePerSample := PyFloat (total_from 0 block / 51) |}).
  { intros tt0 Hn0 Ht0.
    destruct (exists_last (l := block)) as (ds & d & E).
    { intros E. rewrite E in Hlen. discriminate. }
    subst block. rewrite length_app in Hlen. simpl in Hlen.
    rewrite record_all_app.
    rewrite (record_all_accumulates ds tt0 0 Ht0) by (unfold len; lia).
    cbn [record_all].
    erewrite updateTimeTracker_resets;
      [|reflexivity|cbn [numSamples]; unfold len; lia].
    unfold total_from. rewrite fold_left_app. reflexivity. }
  destruct Ht as [Ht|Ht]; [|apply Hfloat; assumption].
  destruct block as [|d block]; [discriminate|].
  change (record_all tt (d :: block))
    with (match updateTimeTracker tt d with
          | Ret tt1 => record_all tt1 block
          | Raise e => Raise e
          | NoMoreInput => NoMoreInput
          end).
  rewrite (updateTimeTracker_after_reset tt d Ht).
  apply (Hfloat {| totalTime := PyFloat 0; numSamples := numSamples tt;
                   timePerSample := timePerSample tt |}); [exact Hn|reflexivity].
Qed.

(** C2. The estimate starts at 3 seconds and every call accumulates, but
    the replacement does not come with the 50th sample: after any 50
    samples recorded by a fresh tracker the estimate is still 3, the count
    is 50 and [totalTime] is their sum; the 51st sample replaces the
    estimate by [totalTime / numSamples] for all 51 and restarts both
    accumulators. *)
Theorem updateTimeTracker_replaces_at_sample_51 (ds : list float)
    (d : float) :
  List.length ds = 50%nat ->
  timePerSample initializeTimeTracker = PyInt 3
  /\ record_all initializeTimeTracker ds
     = Ret {| totalTime := PyFloat (total_from 0 ds);
              numSamples := 50;
              timePerSample := PyInt 3 |}
  /\ record_all initializeTimeTracker (ds ++ [d])
     = Ret {| totalTime := PyInt 0;
              numSamples := 0;
              timePerSample := PyFloat ((total_from 0 ds + d) / 51) |}.
Proof.
  intros Hlen.
  assert (H50 : record_all initializeTimeTracker ds
                = Ret {| totalTime := PyFloat (total_from 0 ds);
                         numSamples := 50;
                         timePerSample := PyInt 3 |}).
  { rewrite (record_all_accumulates ds initializeTimeTracker 0 eq_refl)
      by (unfold len; rewrite Hlen; simpl; lia).
    unfold len. rewrite Hlen. reflexivity. }
  split; [reflexivity|]. split; [exact H50|].
  rewrite record_all_app, H50. cbn [record_all].
  erewrite updateTimeTracker_resets; reflexivity.
Qed.

Lemma updateTimeTracker_replaces_at_sample_51_witness :
  List.length (repeat 1%float 50) = 50%nat
  /\ record_all initializeTimeTracker (repeat 1%float 50)
     = Ret {| totalTime := PyFloat 50; numSamples := 50;
              timePerSample := PyInt 3 |}
  /\ record_all initializeTimeTracker (repeat 1%float 50 ++ [1%float])
     = Ret {| totalTime := PyInt 0; numSamples := 0;
              timePerSample := PyFloat 1 |}.
Proof.
  split; [reflexivity|].
  exact (proj2 (updateTimeTracker_replaces_at_sample_51
                  (repeat 1%float 50) 1%float eq_refl)).
Defined.

End TimeTrackerFacts.

(** ** The history filter *)

Section HistoryFilterFacts.

Import Db Detect HistoryFilter.

(** The threshold of the code is the threshold of the specification. *)
Lemma threshold_of_is_max (m : float) : threshold_of m = threshold m.
Proof. reflexivity. Qed.

(** A number that is not below 0.5, and is no NaN, is above 0. *)
Lemma above_zero (x : float) :
  PrimFloat.is_nan x = false ->
  (x <? 0.5)%float = false -> (0 <? x)%float = true.
Proof.
  intros Hnan Hhalf.
  destruct (fltb_cotrans 0 x 0.5 Hnan eq_refl) as [H|H];
    [exact H|congruence].
Qed.

(** *** The two loops *)

(** The inner loop either leaves the loop variables alone or, when the
    segment beats the best score so far, takes the first clearing row. *)
Lemma scan_rows_spec (s : Segment) (dbResult : list HistRow.t) :
  forall best : Best,
    scan_rows s dbResult best =
      if PrimFloat.ltb (snd best) (score s) then
        match clearing_row s dbResult with
        | Some row => (Some (with_hist s row), score s)
        | None => best
        end
      else best.
Proof.
  unfold clearing_row.
  induction dbResult as [|row rows IH]; intros best; simpl.
  - destruct (PrimFloat.ltb (snd best) (score s)); reflexivity.
  - rewrite IH. clear IH.
    destruct (same_box row s); simpl.
    + destruct (PrimFloat.ltb (threshold_of (HistRow.maxs row)) (score s));
        simpl.
      * destruct (PrimFloat.ltb (snd best) (score s)) eqn:E; simpl;
          [|rewrite E; reflexivity].
        rewrite fltb_irrefl. reflexivity.
      * destruct (PrimFloat.ltb (snd best) (score s)); reflexivity.
    + destruct (PrimFloat.ltb (snd best) (score s)); reflexivity.
Qed.

(** Segments that do not beat the best score change nothing. *)
Lemma scan_segments_no_better (segments : list Segment)
    (dbResult : list HistRow.t) (best : Best) :
  Forall (fun s => PrimFloat.ltb (snd best) (score s) = false) segments ->
  scan_segments segments dbResult best = best.
Proof.
  induction 1 as [|s segments Hs _ IH]; simpl; [reflexivity|].
  destruct (PrimFloat.ltb (score s) 0.5); [reflexivity|].
  rewrite scan_rows_spec, Hs. exact IH.
Qed.

Lemma clearing_row_Some (s : Segment) (dbResult : list HistRow.t)
    (row : HistRow.t) :
  clearing_row s dbResult = Some row ->
  In row dbResult /\ same_box row s = true
  /\ PrimFloat.ltb (threshold_of (HistRow.maxs row)) (score s) = true.
Proof.
  unfold clearing_row. intros H. apply find_some in H.
  destruct H as (Hin & Hb). apply andb_true_iff in Hb. tauto.
Qed.

(** A segment with a clearing row that is not below 0.5 is above the
    starting value 0 of [maxFireScore]. *)
Lemma clearing_row_above_zero (s : Segment) (dbResult : list HistRow.t)
    (row : HistRow.t) :
  PrimFloat.ltb (score s) 0.5 = false ->
  clearing_row s dbResult = Some row ->
  PrimFloat.ltb 0 (score s) = true.
Proof.
  intros Hhalf H. apply clearing_row_Some in H.
  destruct H as (_ & _ & Hthr).
  apply above_zero; [|exact Hhalf].
  exact (proj2 (fltb_not_nan _ _ Hthr)).
Qed.

(** On a sorted list the loops return the first segment with a clearing
    row. *)
Lemma scan_segments_sorted (segments : list Segment)
    (dbResult : list HistRow.t) :
  sorted_desc segments ->
  fst (scan_segments segments dbResult (None, 0%float))
  = first_clearing segments dbResult.
Proof.
  intros Hsorted.
  induction Hsorted as [|s segments Hsorted IH Hall]; simpl; [reflexivity|].
  destruct (PrimFloat.ltb (score s) 0.5) eqn:E; [reflexivity|].
  rewrite scan_rows_spec. simpl.
  destruct (clearing_row s dbResult) as [row|] eqn:Hrow.
  - rewrite (clearing_row_above_zero s dbResult row E Hrow).
    rewrite scan_segments_no_better; [reflexivity|]. exact Hall.
  - destruct (PrimFloat.ltb 0 (score s)); exact IH.
Qed.

(** *** [postFilter] *)

Lemma postFilter_fast (avg : list float -> float) (sid : Z -> Z)
    (db : DbManager) (camera : string) (timestamp : Z) (s : Segment)
    (rest : list Segment) :
  PrimFloat.ltb (score s) 0.5 = true ->
  postFilter avg sid db camera timestamp (s :: rest) = Ret (None, db).
Proof. intros H. unfold postFilter. rewrite H. reflexivity. Qed.

Lemma postFilter_slow (avg : list float -> float) (sid : Z -> Z)
    (db : DbManager) (camera : string) (timestamp : Z) (s : Segment)
    (rest : list Segment) :
  PrimFloat.ltb (score s) 0.5 = false ->
  postFilter avg sid db camera timestamp (s :: rest) =
    Ret (fst (scan_segments (s :: rest)
                (history avg sid db camera timestamp) (None, 0%float)),
         log_query db
           (SelectScoreHistory camera
              (timestamp - 60 * 60 * 84) (timestamp - 60 * 60 * 12)
              (sid timestamp - 60 * 60) (sid timestamp + 60 * 60))).
Proof. intros H. unfold postFilter. rewrite H. reflexivity. Qed.

(** Whatever [postFilter] returns on a sorted list is [first_clearing] of
    the history of the camera. *)
Lemma postFilter_sorted (avg : list float -> float) (sid : Z -> Z)
    (db : DbManager) (camera : string) (timestamp : Z)
    (segments : list Segment) :
  segments <> [] ->
  sorted_desc segments ->
  exists db',
    postFilter avg sid db camera timestamp segments
    = Ret (first_clearing segments (history avg sid db camera timestamp),
           db').
Proof.
  intros Hne Hsorted.
  destruct segments as [|s rest]; [congruence|].
  destruct (PrimFloat.ltb (score s) 0.5) eqn:E.
  - exists db. rewrite postFilter_fast by exact E.
    simpl. rewrite E. reflexivity.
  - eexists. rewrite postFilter_slow by exact E.
    rewrite scan_segments_sorted; [reflexivity|exact Hsorted].
Qed.

(** C9. If every score of a non-empty segment list is below 0.5, so in
    particular the highest one, [postFilter] returns none and hands the
    database back as it was: no statement was sent to it, whatever the
    history holds. *)
Theorem postFilter_none_below_half (avg : list float -> float)
    (sid : Z -> Z) (db : DbManager) (camera : string) (timestamp : Z)
    (segments : list Segment) :
  segments <> [] ->
  Forall (fun s => PrimFloat.ltb (score s) 0.5 = true) segments ->
  postFilter avg sid db camera timestamp segments = Ret (None, db)
  /\ forall db',
       postFilter avg sid db camera timestamp segments = Ret (None, db')
       -> queries db' = queries db.
Proof.
  intros Hne Hall.
  destruct segments as [|s rest]; [congruence|].
  inversion Hall as [|? ? Hs _]; subst.
  rewrite postFilter_fast by exact Hs.
  split; [reflexivity|].
  intros db' H. inversion H. reflexivity.
Qed.

Lemma postFilter_none_below_half_witness :
  [segment_A 0.3; segment_B 0.1] <> []
  /\ Forall (fun s => PrimFloat.ltb (score s) 0.5 = true)
            [segment_A 0.3; segment_B 0.1]
  /\ postFilter example_avg utc_secondsInDay db_peak1_B "peak1" 1600000000
       [segment_A 0.3; segment_B 0.1]
     = Ret (None, db_peak1_B).
Proof.
  assert (Hne : [segment_A 0.3; segment_B 0.1] <> []) by discriminate.
  assert (Hall : Forall (fun s => PrimFloat.ltb (score s) 0.5 = true)
                        [segment_A 0.3; segment_B 0.1]).
  { repeat constructor. }
  split; [exact Hne|]. split; [exact Hall|].
  exact (proj1 (postFilter_none_below_half example_avg utc_secondsInDay
                  db_peak1_B "peak1" 1600000000 _ Hne Hall)).
Defined.

End HistoryFilterFacts.

(** ** The grouped query *)

Section GroupingFacts.

Import Db.

Lemma in_group_box (r : ScoreRow.t) (g : Group) :
  in_group r g = true <-> group_box g = row_box r.
Proof.
  unfold in_group, group_box, row_box.
  rewrite !andb_true_iff, !Z.eqb_eq.
  split.
  - intros (((H1 & H2) & H3) & H4). congruence.
  - intros H. inversion H. auto.
Qed.

Lemma in_group_box_false (r : ScoreRow.t) (g : Group) :
  in_group r g = false <-> group_box g <> row_box r.
Proof.
  rewrite <- in_group_box. destruct (in_group r g); split; congruence.
Qed.

Lemma in_group_same_box (r : ScoreRow.t) (g g' : Group) :
  group_box g' = group_box g -> in_group r g' = in_group r g.
Proof.
  intros H. destruct (in_group r g) eqn:E.
  - apply in_group_box. rewrite H. apply in_group_box. exact E.
  - apply in_group_box_false. rewrite H. apply in_group_box_false. exact E.
Qed.

Lemma fmax_cases (a b : float) : fmax a b = a \/ fmax a b = b.
Proof. unfold fmax. destruct (PrimFloat.ltb a b); auto. Qed.

(** [max(score)] is one of the scores. *)
Lemma sql_max_In (x : float) (l : list float) : In (sql_max (x :: l)) (x :: l).
Proof.
  simpl. revert x.
  induction l as [|y l IH]; intros x; simpl; [auto|].
  destruct (fmax_cases x y) as [E|E]; rewrite E.
  - destruct (IH x) as [H|H]; auto.
  - destruct (IH y) as [H|H]; auto.
Qed.

Lemma fold_fmax_bound (l : list float) :
  forall (x : float) (seen : list float),
    (forall e, In e seen -> PrimFloat.ltb x e = false) ->
    forall e, In e (seen ++ l) ->
              PrimFloat.ltb (fold_left fmax l x) e = false.
Proof.
  induction l as [|y l IH]; intros x seen Hseen e He; simpl.
  - rewrite app_nil_r in He. auto.
  - apply (IH (fmax x y) (seen ++ [y])).
    + intros e0 He0. apply in_app_or in He0. unfold fmax.
      destruct (PrimFloat.ltb x y) eqn:E.
      * destruct He0 as [He0|[He0|[]]].
        -- apply (fltb_negtrans y x e0).
           ++ exact (proj1 (fltb_not_nan _ _ E)).
           ++ apply fltb_asym. exact E.
           ++ auto.
        -- subst e0. apply fltb_irrefl.
      * destruct He0 as [He0|[He0|[]]]; [auto|subst e0; exact E].
    + rewrite <- app_assoc. exact He.
Qed.

(** No score is above [max(score)]. *)
Lemma sql_max_bound (l : list float) (e : float) :
  In e l -> PrimFloat.ltb (sql_max l) e = false.
Proof.
  destruct l as [|x l]; [intros []|]. intros He. simpl.
  apply (fold_fmax_bound l x [x]); [|exact He].
  intros e0 [E|[]]. subst e0. apply fltb_irrefl.
Qed.

Lemma group_by_box_snoc (rows : list ScoreRow.t) (r : ScoreRow.t) :
  group_by_box (rows ++ [r]) = add_to_groups r (group_by_box rows).
Proof. unfold group_by_box. rewrite fold_left_app. reflexivity. Qed.

(** Adding a row keeps the boxes of the groups, and appends the box of the
    row when it is new. *)
Lemma add_to_groups_boxes (r : ScoreRow.t) (gs : list Group) :
  map group_box (add_to_groups r gs) =
    if existsb (in_group r) gs then map group_box gs
    else map group_box gs ++ [row_box r].
Proof.
  induction gs as [|g gs IH]; simpl; [reflexivity|].
  destruct (in_group r g) eqn:E; simpl; [reflexivity|].
  rewrite IH. destruct (existsb (in_group r) gs); reflexivity.
Qed.

Lemma group_by_box_NoDup (rows : list ScoreRow.t) :
  NoDup (map group_box (group_by_box rows)).
Proof.
  induction rows as [|r rows IH] using rev_ind.
  - constructor.
  - rewrite group_by_box_snoc, add_to_groups_boxes.
    destruct (existsb (in_group r) (group_by_box rows)) eqn:E; [exact IH|].
    apply NoDup_app; [exact IH|repeat constructor; intros []|].
    intros b Hb [Hr|[]]. subst b.
    apply in_map_iff in Hb. destruct Hb as (g & Hg & Hin).
    assert (Hex : existsb (in_group r) (group_by_box rows) = true).
    { apply existsb_exists. exists g. split; [exact Hin|].
      apply in_group_box. exact Hg. }
    congruence.
Qed.

(** Every row is counted in a group of its box. *)
Lemma group_by_box_covers (rows : list ScoreRow.t) (r : ScoreRow.t) :
  In r rows -> In (row_box r) (map group_box (group_by_box rows)).
Proof.
  induction rows as [|r0 rows IH] using rev_ind; [intros []|].
  intros Hin. rewrite group_by_box_snoc, add_to_groups_boxes.
  apply in_app_or in Hin.
  destruct (existsb (in_group r0) (group_by_box rows)) eqn:E.
  - destruct Hin as [Hin|[Heq|[]]]; [auto|]. subst r0.
    apply existsb_exists in E. destruct E as (g & Hg & Hb).
    apply in_group_box in Hb. rewrite <- Hb. apply in_map. exact Hg.
  - apply in_or_app.
    destruct Hin as [Hin|[Heq|[]]]; [left; auto|].
    subst r0. right. left. reflexivity.
Qed.

(** Where a group of [add_to_groups r gs] comes from. *)
Lemma add_to_groups_In (r : ScoreRow.t) (gs : list Group) (g' : Group) :
  NoDup (map group_box gs) ->
  In g' (add_to_groups r gs) ->
  (In g' gs /\ group_box g' <> row_box r)
  \/ (exists g, In g gs /\ group_box g = row_box r
                /\ group_box g' = group_box g
                /\ g_scores g' = g_scores g ++ [ScoreRow.Score r])
  \/ (group_box g' = row_box r /\ g_scores g' = [ScoreRow.Score r]
      /\ forall g, In g gs -> group_box g <> row_box r).
Proof.
  induction gs as [|g gs IH]; intros Hnd Hin; simpl in Hin.
  - destruct Hin as [Heq|[]]. subst g'.
    right. right. repeat split. intros g [].
  - inversion Hnd as [|? ? Hnotin Hnd']; subst.
    destruct (in_group r g) eqn:E.
    + apply in_group_box in E.
      destruct Hin as [Heq|Hin].
      * subst g'. right. left. exists g.
        repeat split; [left; reflexivity|exact E].
      * left. split; [right; exact Hin|].
        intros Hb. apply Hnotin. rewrite E, <- Hb.
        apply in_map. exact Hin.
    + apply in_group_box_false in E.
      destruct Hin as [Heq|Hin].
      * subst g'. left. split; [left; reflexivity|exact E].
      * destruct (IH Hnd' Hin)
          as [(H1 & H2)|[(g0 & H1 & H2 & H3 & H4)|(H1 & H2 & H3)]].
        -- left. split; [right; exact H1|exact H2].
        -- right. left. exists g0. repeat split; auto. right. exact H1.
        -- right. right. repeat split; auto.
           intros g0 [Heq|Hg0]; [subst g0; exact E|auto].
Qed.

(** The scores of a group are the scores of the rows of its box, in the
    order of the rows. *)
Lemma group_by_box_scores (rows : list ScoreRow.t) (g : Group) :
  In g (group_by_box rows) ->
  g_scores g
  = map ScoreRow.Score (filter (fun r => in_group r g) rows).
Proof.
  revert g.
  induction rows as [|r0 rows IH] using rev_ind; intros g Hin;
    [destruct Hin|].
  rewrite group_by_box_snoc in Hin.
  apply add_to_groups_In in Hin; [|apply group_by_box_NoDup].
  rewrite filter_app, map_app. simpl.
  destruct Hin
    as [(Hin & Hneq)|[(g0 & Hin & Hb0 & Hb & Hsc)|(Hb & Hsc & Hnone)]].
  - apply in_group_box_false in Hneq. rewrite Hneq. simpl.
    rewrite app_nil_r. apply IH. exact Hin.
  - assert (E : in_group r0 g = true).
    { apply in_group_box. congruence. }
    rewrite E, Hsc, (IH g0 Hin). simpl. f_equal.
    f_equal. apply filter_ext. intros r. symmetry.
    apply in_group_same_box. exact Hb.
  - assert (E : in_group r0 g = true) by (apply in_group_box; exact Hb).
    rewrite E, Hsc. simpl.
    assert (Hnil : filter (fun r => in_group r g) rows = []).
    { destruct (filter (fun r => in_group r g) rows) as [|r l] eqn:F;
        [reflexivity|].
      assert (Hr : In r (filter (fun r => in_group r g) rows))
        by (rewrite F; left; reflexivity).
      apply filter_In in Hr. destruct Hr as (Hr & Hg).
      apply in_group_box in Hg.
      apply group_by_box_covers in Hr.
      apply in_map_iff in Hr. destruct Hr as (g1 & Hg1 & Hin1).
      exfalso. apply (Hnone g1 Hin1). congruence. }
    rewrite Hnil. reflexivity.
Qed.

(** A group has at least one score. *)
Lemma group_by_box_nonempty (rows : list ScoreRow.t) (g : Group) :
  In g (group_by_box rows) -> g_scores g <> [].
Proof.
  revert g.
  induction rows as [|r0 rows IH] using rev_ind; intros g Hin;
    [destruct Hin|].
  rewrite group_by_box_snoc in Hin.
  apply add_to_groups_In in Hin; [|apply group_by_box_NoDup].
  destruct Hin
    as [(Hin & Hneq)|[(g0 & Hin & Hb0 & Hb & Hsc)|(Hb & Hsc & Hnone)]].
  - apply IH. exact Hin.
  - rewrite Hsc. intros E. apply app_eq_nil in E. destruct E. discriminate.
  - rewrite Hsc. discriminate.
Qed.

(** Two elements with the same key in a list without duplicate keys. *)
Lemma NoDup_map_inj {A B : Type} (f : A -> B) (l : list A) (x y : A) :
  NoDup (map f l) -> In x l -> In y l -> f x = f y -> x = y.
Proof.
  induction l as [|a l IH]; intros Hnd Hx Hy Hf; [destruct Hx|].
  inversion Hnd as [|? ? Hnotin Hnd']; subst.
  destruct Hx as [Hx|Hx], Hy as [Hy|Hy].
  - congruence.
  - subst a. exfalso. apply Hnotin. rewrite Hf. apply in_map. exact Hy.
  - subst a. exfalso. apply Hnotin. rewrite <- Hf. apply in_map. exact Hx.
  - auto.
Qed.

(** The result of the grouped query has one row per box. *)
Lemma select_score_history_one_per_box (avg : list float -> float)
    (db : DbManager) (camera : string)
    (tsLow tsHigh sidLow sidHigh : Z) (row1 row2 : HistRow.t) :
  In row1 (select_score_history avg db camera tsLow tsHigh sidLow sidHigh) ->
  In row2 (select_score_history avg db camera tsLow tsHigh sidLow sidHigh) ->
  hist_box row1 = hist_box row2 ->
  row1 = row2.
Proof.
  unfold select_score_history. intros H1 H2 Hb.
  apply in_map_iff in H1. destruct H1 as (g1 & E1 & H1).
  apply in_map_iff in H2. destruct H2 as (g2 & E2 & H2).
  subst row1 row2. f_equal.
  eapply NoDup_map_inj; [apply group_by_box_NoDup|exact H1|exact H2|].
  exact Hb.
Qed.

(** A row of the result stands for the selected rows of [scores] of its
    box: [cnt] is their number, [maxs] is the score of one of them, and
    none of them scores above [maxs]. *)
Lemma select_score_history_max (avg : list float -> float)
    (db : DbManager) (camera : string)
    (tsLow tsHigh sidLow sidHigh : Z) (row : HistRow.t) :
  In row (select_score_history avg db camera tsLow tsHigh sidLow sidHigh) ->
  (exists r, In r (scores db)
             /\ in_history_window camera tsLow tsHigh sidLow sidHigh r = true
             /\ row_box r = hist_box row
             /\ ScoreRow.Score r = HistRow.maxs row)
  /\ (forall r, In r (scores db) ->
                in_history_window camera tsLow tsHigh sidLow sidHigh r = true ->
                row_box r = hist_box row ->
                PrimFloat.ltb (HistRow.maxs row) (ScoreRow.Score r) = false).
Proof.
  unfold select_score_history. intros H.
  apply in_map_iff in H. destruct H as (g & E & Hg). subst row.
  pose proof (group_by_box_scores _ _ Hg) as Hsc.
  change (hist_box (hist_row_of avg g)) with (group_box g).
  change (HistRow.maxs (hist_row_of avg g)) with (sql_max (g_scores g)).
  set (selected := filter (in_history_window camera tsLow tsHigh sidLow
                                              sidHigh) (scores db)) in *.
  pose proof (group_by_box_nonempty _ _ Hg) as Hne.
  split.
  - assert (Hin : In (sql_max (g_scores g)) (g_scores g)).
    { destruct (g_scores g) as [|x l]; [congruence|apply sql_max_In]. }
    rewrite Hsc in Hin at 2. apply in_map_iff in Hin.
    destruct Hin as (r & Hs & Hr).
    apply filter_In in Hr. destruct Hr as (Hr & Hb).
    apply filter_In in Hr. destruct Hr as (Hr & Hw).
    apply in_group_box in Hb.
    exists r. auto.
  - intros r Hr Hw Hb. apply sql_max_bound.
    rewrite Hsc. apply in_map. apply filter_In.
    split; [apply filter_In; auto|].
    apply in_group_box. congruence.
Qed.

(** A camera without selected rows has an empty history. *)
Lemma select_score_history_nil (avg : list float -> float)
    (db : DbManager) (camera : string)
    (tsLow tsHigh sidLow sidHigh : Z) :
  (forall r, In r (scores db) ->
             in_history_window camera tsLow tsHigh sidLow sidHigh r = false) ->
  select_score_history avg db camera tsLow tsHigh sidLow sidHigh = [].
Proof.
  intros H. unfold select_score_history.
  assert (E : filter (in_history_window camera tsLow tsHigh sidLow sidHigh)
                     (scores db) = []).
  { induction (scores db) as [|r l IH]; [reflexivity|].
    simpl. rewrite (H r) by (left; reflexivity).
    apply IH. intros r0 Hr0. apply H. right. exact Hr0. }
  rewrite E. reflexivity.
Qed.

End GroupingFacts.

(** ** The selection of [postFilter] *)

Section SelectionFacts.

Import Db Detect HistoryFilter.

Lemma same_box_iff (row : HistRow.t) (s : Segment) :
  same_box row s = true <-> hist_box row = segment_box s.
Proof.
  unfold same_box, hist_box, segment_box.
  rewrite !andb_true_iff, !Z.eqb_eq.
  split.
  - intros (((H1 & H2) & H3) & H4). congruence.
  - intros H. inversion H. auto.
Qed.

(** The test of the code is the equality of the four coordinates. *)
Lemma same_box_of_box (row : HistRow.t) (s : Segment) :
  same_box row s = true <-> of_box row s.
Proof.
  unfold same_box, of_box. rewrite !andb_true_iff, !Z.eqb_eq. tauto.
Qed.

Lemma scan_segments_empty_history (segments : list Segment) (best : Best) :
  scan_segments segments [] best = best.
Proof.
  induction segments as [|s segments IH]; simpl; [reflexivity|].
  destruct (PrimFloat.ltb (score s) 0.5); [reflexivity|exact IH].
Qed.

(** The rows [recordScores] has just written are too recent for the query
    of [postFilter] at the same timestamp. *)
Lemma history_recordScores (avg : list float -> float) (sid : Z -> Z)
    (db : DbManager) (camera camera' : string) (timestamp : Z)
    (segments : list Segment) (minusMinutes : Z) :
  history avg sid (recordScores sid db camera timestamp segments minusMinutes)
          camera' timestamp
  = history avg sid db camera' timestamp.
Proof.
  unfold history, select_score_history, recordScores, add_scores. simpl.
  rewrite filter_app.
  match goal with
  | |- context [filter ?p (map ?f segments)] =>
      assert (E : filter p (map f segments) = [])
  end.
  { induction segments as [|s segments IH]; [reflexivity|].
    simpl. unfold in_history_window at 1. simpl.
    assert (Hlate : (timestamp <? timestamp - 43200) = false).
    { apply Z.ltb_ge. lia. }
    rewrite Hlate, !andb_false_r. simpl. exact IH. }
  rewrite E, app_nil_r. reflexivity.
Qed.

Lemma clearing_row_None (s : Segment) (dbResult : list HistRow.t) :
  clearing_row s dbResult = None -> ~ clears dbResult s.
Proof.
  unfold clearing_row. intros H (row & Hin & Hbox & Hthr).
  pose proof (find_none _ _ H row Hin) as Hf. simpl in Hf.
  apply same_box_of_box in Hbox. rewrite Hbox in Hf. simpl in Hf.
  rewrite threshold_of_is_max in Hf. congruence.
Qed.

Lemma first_clearing_sound (segments : list Segment)
    (dbResult : list HistRow.t) (r : Segment) :
  sorted_desc segments ->
  first_clearing segments dbResult = Some r ->
  exists s row,
    r = with_hist s row /\ In s segments /\ In row dbResult
    /\ of_box row s
    /\ PrimFloat.ltb (score s) 0.5 = false
    /\ PrimFloat.ltb (threshold (HistRow.maxs row)) (score s) = true
    /\ forall s', In s' segments -> clears dbResult s'
                  -> PrimFloat.ltb (score s) (score s') = false.
Proof.
  intros Hsorted.
  induction Hsorted as [|s segments Hsorted IH Hall]; simpl; [discriminate|].
  destruct (PrimFloat.ltb (score s) 0.5) eqn:E; [discriminate|].
  destruct (clearing_row s dbResult) as [row|] eqn:Hrow.
  - intros Heq. inversion Heq; subst r. clear Heq.
    apply clearing_row_Some in Hrow. destruct Hrow as (Hin & Hbox & Hthr).
    apply same_box_of_box in Hbox.
    exists s, row. repeat split; auto; try apply Hbox.
    intros s' [Hs'|Hs'] _; [subst s'; apply fltb_irrefl|].
    rewrite Forall_forall in Hall. apply Hall. exact Hs'.
  - intros Heq.
    destruct (IH Heq) as (s1 & row & H1 & H2 & H3 & H4 & H5 & H6 & H7).
    exists s1, row. repeat split; auto; try apply H4.
    intros s' [Hs'|Hs'] Hc; [|auto].
    subst s'. exfalso. exact (clearing_row_None _ _ Hrow Hc).
Qed.

Lemma first_clearing_none (segments : list Segment)
    (dbResult : list HistRow.t) :
  sorted_desc segments ->
  first_clearing segments dbResult = None ->
  forall s, In s segments -> PrimFloat.ltb (score s) 0.5 = false ->
            ~ clears dbResult s.
Proof.
  intros Hsorted.
  induction Hsorted as [|s segments Hsorted IH Hall]; simpl; [intros _ s []|].
  rewrite Forall_forall in Hall.
  destruct (PrimFloat.ltb (score s) 0.5) eqn:E.
  - intros _ s' [Hs'|Hs'] Hhalf Hc; [subst s'; congruence|].
    specialize (Hall s' Hs').
    destruct Hc as (row & _ & _ & Hthr).
    destruct (fltb_cotrans (score s) (score s') 0.5
                (proj2 (fltb_not_nan _ _ Hthr)) E); congruence.
  - destruct (clearing_row s dbResult) as [row|] eqn:Hrow; [discriminate|].
    intros Hnone s' [Hs'|Hs'] Hhalf.
    + subst s'. exact (clearing_row_None _ _ Hrow).
    + exact (IH Hnone s' Hs' Hhalf).
Qed.

End SelectionFacts.

(** ** What the specification states of the history filter *)

Section HistoryFilterSpec.

Import Db Detect HistoryFilter.

(** C1, as the code has it.  When the query of [postFilter] finds no
    history for the camera, [postFilter] returns none for every non-empty
    segment list, whatever the scores, and [recordFilterReport] writes no
    row to [detections] nor to [alerts] and sends no alert. *)
Theorem postFilter_none_without_history (avg : list float -> float)
    (sid : Z -> Z) (db : DbManager) (camera : string) (timestamp : Z)
    (segments : list Segment) (minusMinutes : Z)
    (driveFileIDs : list string) :
  segments <> [] ->
  history avg sid db camera timestamp = [] ->
  (exists db',
     postFilter avg sid db camera timestamp segments = Ret (None, db'))
  /\ (exists db',
        recordFilterReport avg sid db camera timestamp segments minusMinutes
                           false driveFileIDs
        = Ret (false, db')
        /\ detections db' = detections db
        /\ alerts db' = alerts db).
Proof.
  intros Hne Hnil.
  assert (Hpf : forall db0,
             history avg sid db0 camera timestamp = [] ->
             exists db',
               postFilter avg sid db0 camera timestamp segments
               = Ret (None, db')
               /\ detections db' = detections db0
               /\ alerts db' = alerts db0).
  { intros db0 H0. destruct segments as [|s rest]; [congruence|].
    destruct (PrimFloat.ltb (score s) 0.5) eqn:E.
    - exists db0. rewrite postFilter_fast by exact E. auto.
    - eexists. rewrite postFilter_slow by exact E.
      rewrite H0, scan_segments_empty_history. simpl. auto. }
  split.
  - destruct (Hpf db Hnil) as (db' & H & _). exists db'. exact H.
  - unfold recordFilterReport. simpl.
    destruct (Hpf (recordScores sid db camera timestamp segments minusMinutes))
      as (db' & H & Hd & Ha).
    { rewrite history_recordScores. exact Hnil. }
    rewrite H. exists db'.
    destruct segments as [|s rest]; [congruence|].
    repeat split; assumption.
Qed.

Lemma postFilter_none_without_history_witness :
  [segment_A 0.92; segment_B 0.3] <> []
  /\ history example_avg utc_secondsInDay Db.empty "peak1" 1600000000 = []
  /\ exists db',
       postFilter example_avg utc_secondsInDay Db.empty "peak1" 1600000000
                  [segment_A 0.92; segment_B 0.3]
       = Ret (None, db').
Proof.
  assert (Hne : [segment_A 0.92; segment_B 0.3] <> []) by discriminate.
  assert (Hnil : history example_avg utc_secondsInDay Db.empty "peak1"
                         1600000000 = [])
    by reflexivity.
  split; [exact Hne|]. split; [exact Hnil|].
  exact (proj1 (postFilter_none_without_history example_avg utc_secondsInDay
                  Db.empty "peak1" 1600000000 _ 0 [] Hne Hnil)).
Defined.

(** C1, as the specification has it, fails: for camera peak1 without any
    row in [scores] and the sorted scores 0.92 and 0.3, [postFilter]
    returns no segment and the tick leaves [detections] empty. *)
Lemma postFilter_empty_history_selects_nothing :
  (forall s db',
     postFilter example_avg utc_secondsInDay Db.empty "peak1" 1600000000
                [segment_A 0.92; segment_B 0.3]
     <> Ret (Some s, db'))
  /\ exists db',
       recordFilterReport example_avg utc_secondsInDay Db.empty "peak1"
                          1600000000 [segment_A 0.92; segment_B 0.3] 0 false []
       = Ret (false, db')
       /\ detections db' = [].
Proof.
  split.
  - intros s db'. vm_compute. discriminate.
  - eexists. split; vm_compute; reflexivity.
Qed.

(** C3. For a segment that is not below 0.5 and whose bounding box has a
    row in the history of the camera, [postFilter] returns the segment,
    with the statistics of the row attached, exactly when its score
    exceeds [max((maxs+1)/2, maxs+0.2)] for the [maxs] of that row, and
    none otherwise: that maximum is the threshold the code computes.  It
    is 0.8 for a historical maximum of 0.6 and 1.1 for 0.9. *)
Theorem postFilter_threshold (avg : list float -> float) (sid : Z -> Z)
    (db : DbManager) (camera : string) (timestamp : Z) (s : Segment)
    (row : HistRow.t) :
  PrimFloat.ltb (score s) 0.5 = false ->
  In row (history avg sid db camera timestamp) ->
  HistRow.minx row = MinX s -> HistRow.miny row = MinY s ->
  HistRow.maxx row = MaxX s -> HistRow.maxy row = MaxY s ->
  ((exists db',
      postFilter avg sid db camera timestamp [s]
      = Ret (Some {| MinX := MinX s; MinY := MinY s;
                     MaxX := MaxX s; MaxY := MaxY s;
                     score := score s;
                     hist := Some {| HistAvg := HistRow.avgs row;
                                     HistMax := HistRow.maxs row;
                                     HistNumSamples := HistRow.cnt row |} |},
             db'))
   <-> PrimFloat.ltb (threshold (HistRow.maxs row)) (score s) = true)
  /\ ((exists db',
         postFilter avg sid db camera timestamp [s] = Ret (None, db'))
      <-> PrimFloat.ltb (threshold (HistRow.maxs row)) (score s) = false)
  /\ threshold_of (HistRow.maxs row) = threshold (HistRow.maxs row)
  /\ threshold_of 0.6 = 0.8%float
  /\ threshold_of 0.9 = 1.1%float.
Proof.
  intros Hhalf Hin Hx0 Hy0 Hx1 Hy1.
  assert (Hbox : of_box row s) by (unfold of_box; auto).
  assert (Huniq : forall r, In r (history avg sid db camera timestamp) ->
                            same_box r s = true -> r = row).
  { intros r Hr Hb. unfold history in *.
    eapply select_score_history_one_per_box; [exact Hr|exact Hin|].
    apply same_box_iff in Hb. apply same_box_of_box, same_box_iff in Hbox.
    congruence. }
  rewrite postFilter_slow by exact Hhalf.
  rewrite scan_segments_sorted by (repeat constructor).
  simpl. rewrite Hhalf.
  destruct (clearing_row s (history avg sid db camera timestamp))
    as [r|] eqn:E.
  - apply clearing_row_Some in E. destruct E as (Hr & Hb & Hthr).
    rewrite (Huniq r Hr Hb) in *. rewrite threshold_of_is_max in Hthr.
    repeat split; try reflexivity.
    + intros _. exact Hthr.
    + intros _. eexists. reflexivity.
    + intros (db' & H). discriminate.
    + intros Hle. congruence.
  - assert (Hle : PrimFloat.ltb (threshold (HistRow.maxs row)) (score s)
                  = false).
    { destruct (PrimFloat.ltb (threshold (HistRow.maxs row)) (score s))
        eqn:Hlt; [|reflexivity].
      exfalso. apply (clearing_row_None _ _ E).
      exists row. auto. }
    repeat split; try reflexivity.
    + intros (db' & H). discriminate.
    + intros Hlt. congruence.
    + intros _. exact Hle.
    + intros _. eexists. reflexivity.
Qed.

Lemma postFilter_threshold_witness :
  PrimFloat.ltb (score (segment_B 0.9)) 0.5 = false
  /\ In (hist_row_of example_avg (mkGroup 300 0 599 299 [0.75; 0.6]%float))
        (history example_avg utc_secondsInDay db_peak1_B "peak1" 1600000000)
  /\ (exists db',
        postFilter example_avg utc_secondsInDay db_peak1_B "peak1" 1600000000
                   [segment_B 0.9]
        = Ret (None, db'))
  /\ (exists db',
        postFilter example_avg utc_secondsInDay db_peak1_B "peak1" 1600000000
                   [segment_B 0.96]
        = Ret (Some {| MinX := 300; MinY := 0; MaxX := 599; MaxY := 299;
                       score := 0.96;
                       hist := Some {| HistAvg := 0.675;
                                       HistMax := 0.75;
                                       HistNumSamples := 2 |} |},
               db')).
Proof.
  assert (Hhalf : forall x, PrimFloat.ltb x 0.5 = false ->
                            PrimFloat.ltb (score (segment_B x)) 0.5 = false)
    by (intros x H; exact H).
  assert (Hin : In (hist_row_of example_avg
                      (mkGroup 300 0 599 299 [0.75; 0.6]%float))
                   (history example_avg utc_secondsInDay db_peak1_B "peak1"
                            1600000000)).
  { left. reflexivity. }
  split; [exact (Hhalf 0.9%float eq_refl)|]. split; [exact Hin|]. split.
  - destruct (postFilter_threshold example_avg utc_secondsInDay db_peak1_B
                "peak1" 1600000000 (segment_B 0.9) _
                (Hhalf 0.9%float eq_refl) Hin
                eq_refl eq_refl eq_refl eq_refl)
      as (_ & (_ & Hnone) & _).
    apply Hnone. reflexivity.
  - destruct (postFilter_threshold example_avg utc_secondsInDay db_peak1_B
                "peak1" 1600000000 (segment_B 0.96) _
                (Hhalf 0.96%float eq_refl) Hin
                eq_refl eq_refl eq_refl eq_refl)
      as ((_ & Hsome) & _).
    apply Hsome. reflexivity.
Defined.

(** The threshold is a float: for a historical maximum of 0.7 the sum
    [0.7 + 0.2] rounds to the float below 0.9, and a score of 0.9 exceeds
    it. *)
Lemma threshold_of_rounds :
  threshold_of 0.7 = 0.8999999999999999%float
  /\ PrimFloat.ltb (threshold_of 0.7) 0.9 = true.
Proof. split; reflexivity. Qed.

(** C4. On a list sorted by decreasing score: if no segment scores above
    the threshold of the history row of its bounding box, [postFilter]
    returns none; if some segment is a candidate (it scores above 0.5 and
    above the threshold of the history row of its bounding box),
    [postFilter] returns a candidate of the list with [HistAvg],
    [HistMax] and [HistNumSamples] of the history row of its box attached,
    and no candidate of the list scores higher.  A segment that scores
    0.85 over a box whose history maximum is 0.75 faces the threshold
    [max(0.875, 0.95) = 0.95] and is not returned. *)
Theorem postFilter_selects_highest (avg : list float -> float)
    (sid : Z -> Z) (db : DbManager) (camera : string) (timestamp : Z)
    (segments : list Segment) :
  segments <> [] ->
  sorted_desc segments ->
  ((forall s, In s segments ->
              ~ clears (history avg sid db camera timestamp) s) ->
   exists db',
     postFilter avg sid db camera timestamp segments = Ret (None, db'))
  /\ ((exists s, In s segments
                 /\ candidate (history avg sid db camera timestamp) s) ->
      exists s row db',
        postFilter avg sid db camera timestamp segments
        = Ret (Some {| MinX := MinX s; MinY := MinY s;
                       MaxX := MaxX s; MaxY := MaxY s;
                       score := score s;
                       hist := Some {| HistAvg := HistRow.avgs row;
                                       HistMax := HistRow.maxs row;
                                       HistNumSamples := HistRow.cnt row |} |},
               db')
        /\ In s segments
        /\ In row (history avg sid db camera timestamp)
        /\ HistRow.minx row = MinX s /\ HistRow.miny row = MinY s
        /\ HistRow.maxx row = MaxX s /\ HistRow.maxy row = MaxY s
        /\ PrimFloat.ltb 0.5 (score s) = true
        /\ PrimFloat.ltb (threshold (HistRow.maxs row)) (score s) = true
        /\ forall s', In s' segments ->
                      candidate (history avg sid db camera timestamp) s' ->
                      PrimFloat.ltb (score s) (score s') = false)
  /\ ((0.75 + 1) / 2 = 0.875 /\ 0.75 + 0.2 = 0.95
      /\ threshold_of 0.75 = 0.95)%float
  /\ (exists db',
        postFilter example_avg utc_secondsInDay db_peak1_B "peak1" 1600000000
                   [segment_B 0.85; segment_A 0.3]
        = Ret (None, db')).
Proof.
  intros Hne Hsorted.
  destruct (postFilter_sorted avg sid db camera timestamp segments Hne Hsorted)
    as (db' & Hpf).
  set (H := history avg sid db camera timestamp) in *.
  split; [|split; [|split]].
  - intros Hnone. exists db'. rewrite Hpf.
    destruct (first_clearing segments H) as [r|] eqn:E; [|reflexivity].
    destruct (first_clearing_sound _ _ _ Hsorted E)
      as (s & row & _ & Hs & Hrow & Hbox & _ & Hthr & _).
    exfalso. apply (Hnone s Hs). exists row. auto.
  - intros (s0 & Hs0 & Hhalf0 & Hc0).
    destruct (first_clearing segments H) as [r|] eqn:E.
    + destruct (first_clearing_sound _ _ _ Hsorted E)
        as (s & row & Hr & Hs & Hrow & Hbox & _ & Hthr & Hmax).
      subst r. exists s, row, db'.
      split; [exact Hpf|]. split; [exact Hs|]. split; [exact Hrow|].
      destruct Hbox as (B1 & B2 & B3 & B4).
      do 4 (split; [assumption|]).
      split.
      * destruct (fltb_cotrans 0.5%float (score s) (score s0)
                    (proj2 (fltb_not_nan _ _ Hthr)) Hhalf0) as [C|C];
          [exact C|].
        rewrite (Hmax s0 Hs0 Hc0) in C. discriminate.
      * split; [exact Hthr|].
        intros s' Hs' (_ & Hc'). exact (Hmax s' Hs' Hc').
    + exfalso.
      apply (first_clearing_none _ _ Hsorted E s0 Hs0);
        [apply fltb_asym; exact Hhalf0|exact Hc0].
  - repeat split; reflexivity.
  - eexists. reflexivity.
Qed.

Lemma postFilter_selects_highest_witness :
  [segment_B 0.99; segment_A 0.6] <> []
  /\ sorted_desc [segment_B 0.99; segment_A 0.6]
  /\ candidate (history example_avg utc_secondsInDay db_peak1_B "peak1"
                        1600000000)
               (segment_B 0.99)
  /\ exists s row db',
       postFilter example_avg utc_secondsInDay db_peak1_B "peak1" 1600000000
                  [segment_B 0.99; segment_A 0.6]
       = Ret (Some {| MinX := MinX s; MinY := MinY s;
                      MaxX := MaxX s; MaxY := MaxY s;
                      score := score s;
                      hist := Some {| HistAvg := HistRow.avgs row;
                                      HistMax := HistRow.maxs row;
                                      HistNumSamples := HistRow.cnt row |} |},
              db')
       /\ In s [segment_B 0.99; segment_A 0.6]
       /\ PrimFloat.ltb 0.5 (score s) = true.
Proof.
  assert (Hne : [segment_B 0.99; segment_A 0.6] <> []) by discriminate.
  assert (Hsorted : sorted_desc [segment_B 0.99; segment_A 0.6]).
  { repeat constructor. }
  assert (Hcand : candidate (history example_avg utc_secondsInDay db_peak1_B
                                     "peak1" 1600000000)
                            (segment_B 0.99)).
  { split; [reflexivity|].
    exists (hist_row_of example_avg (mkGroup 300 0 599 299 [0.75; 0.6]%float)).
    split; [left; reflexivity|]. split; [repeat split|reflexivity]. }
  split; [exact Hne|]. split; [exact Hsorted|]. split; [exact Hcand|].
  destruct (proj1 (proj2
              (postFilter_selects_highest example_avg utc_secondsInDay
                 db_peak1_B "peak1" 1600000000 _ Hne Hsorted))
              (ex_intro _ (segment_B 0.99) (conj (or_introl eq_refl) Hcand)))
    as (s & row & db' & Hpf & Hs & _ & _ & _ & _ & _ & Hhalf & _).
  exists s, row, db'. auto.
Defined.

End HistoryFilterSpec.

(** ** Alert suppression *)

Section AlertFacts.

Import Db Detect.

Lemma select_recent_alerts_nonempty (db : DbManager) (camera : string)
    (tsLow : Z) :
  (0 <? len (select_recent_alerts db camera tsLow)) = true
  <-> recent_alert db camera tsLow.
Proof.
  unfold select_recent_alerts, recent_alert, len.
  rewrite Z.ltb_lt. split.
  - intros H.
    destruct (filter _ (alerts db)) as [|r l] eqn:E; [simpl in H; lia|].
    assert (Hr : In r (r :: l)) by (left; reflexivity).
    rewrite <- E in Hr. apply filter_In in Hr. destruct Hr as (Hr & Hb).
    apply andb_true_iff in Hb. destruct Hb as (Hc & Ht).
    apply String.eqb_eq in Hc. apply Z.ltb_lt in Ht.
    exists r. auto.
  - intros (r & Hr & Hc & Ht).
    assert (Hin : In r (filter
               (fun r0 => String.eqb (AlertRow.CameraName r0) camera
                          && (tsLow <? AlertRow.Timestamp r0)) (alerts db))).
    { apply filter_In. split; [exact Hr|].
      apply andb_true_iff. split; [apply String.eqb_eq; exact Hc|].
      apply Z.ltb_lt. exact Ht. }
    destruct (filter _ (alerts db)); [destruct Hin|simpl; lia].
Qed.

Lemma checkAndUpdateAlerts_suppressed (db : DbManager) (camera : string)
    (timestamp : Z) (driveFileIDs : list string) :
  recent_alert db camera (timestamp - 7200) ->
  checkAndUpdateAlerts db camera timestamp driveFileIDs
  = (false, log_query db (SelectRecentAlerts camera (timestamp - 60 * 60 * 2))).
Proof.
  intros H. unfold checkAndUpdateAlerts, query_recent_alerts.
  apply select_recent_alerts_nonempty in H.
  change (60 * 60 * 2) with 7200. rewrite H. reflexivity.
Qed.

Lemma checkAndUpdateAlerts_recorded (db : DbManager) (camera : string)
    (timestamp : Z) (driveFileIDs : list string) :
  ~ recent_alert db camera (timestamp - 7200) ->
  checkAndUpdateAlerts db camera timestamp driveFileIDs
  = (true,
     add_alert
       (log_query db (SelectRecentAlerts camera (timestamp - 60 * 60 * 2)))
       {| AlertRow.CameraName := camera;
          AlertRow.Timestamp := timestamp;
          AlertRow.ImageID := first_id driveFileIDs |}).
Proof.
  intros H. unfold checkAndUpdateAlerts, query_recent_alerts.
  change (60 * 60 * 2) with 7200.
  destruct (0 <? len (select_recent_alerts db camera (timestamp - 7200)))
    eqn:E; [|reflexivity].
  apply select_recent_alerts_nonempty in E. contradiction.
Qed.

Lemma recent_alert_dec (db : DbManager) (camera : string) (tsLow : Z) :
  recent_alert db camera tsLow \/ ~ recent_alert db camera tsLow.
Proof.
  rewrite <- select_recent_alerts_nonempty.
  destruct (0 <? len (select_recent_alerts db camera tsLow)); auto.
Qed.

(** C5. [checkAndUpdateAlerts] returns false and leaves the ledger as it
    is exactly when the ledger has a row of the camera later than
    [timestamp - 7200]; otherwise it appends one row and returns true.
    After an alert recorded at [timestamp], a second one for the camera is
    suppressed 7199 seconds later and recorded 7201 seconds later. *)
Theorem checkAndUpdateAlerts_cooldown (db : DbManager) (camera : string)
    (timestamp : Z) (ids ids' : list string) :
  let r := checkAndUpdateAlerts db camera timestamp ids in
  (fst r = false <-> recent_alert db camera (timestamp - 7200))
  /\ (fst r = false -> alerts (snd r) = alerts db)
  /\ (fst r = true ->
      alerts (snd r)
      = alerts db ++ [ {| AlertRow.CameraName := camera;
                          AlertRow.Timestamp := timestamp;
                          AlertRow.ImageID := first_id ids |} ])
  /\ (fst r = true ->
      let r1 := checkAndUpdateAlerts (snd r) camera (timestamp + 7199) ids' in
      let r2 := checkAndUpdateAlerts (snd r) camera (timestamp + 7201) ids' in
      fst r1 = false /\ alerts (snd r1) = alerts (snd r)
      /\ fst r2 = true
      /\ alerts (snd r2)
         = alerts (snd r) ++ [ {| AlertRow.CameraName := camera;
                                  AlertRow.Timestamp := timestamp + 7201;
                                  AlertRow.ImageID := first_id ids' |} ]).
Proof.
  intros r. subst r.
  destruct (recent_alert_dec db camera (timestamp - 7200)) as [Hrec|Hnone].
  - rewrite checkAndUpdateAlerts_suppressed by exact Hrec. simpl.
    repeat split; try tauto; discriminate.
  - rewrite checkAndUpdateAlerts_recorded by exact Hnone. simpl.
    split; [split; [discriminate|contradiction]|].
    split; [discriminate|]. split; [reflexivity|].
    intros _.
    match goal with
    | |- context [checkAndUpdateAlerts ?d camera (timestamp + 7199) ids'] =>
        set (db1 := d)
    end.
    assert (Hrec1 : recent_alert db1 camera (timestamp + 7199 - 7200)).
    { eexists. split; [apply in_or_app; right; left; reflexivity|].
      simpl. split; [reflexivity|lia]. }
    assert (Hnone2 : ~ recent_alert db1 camera (timestamp + 7201 - 7200)).
    { intros (r0 & Hin & Hc & Ht). simpl in Hin.
      apply in_app_or in Hin. destruct Hin as [Hin|[Heq|[]]].
      - apply Hnone. exists r0. repeat split; auto. lia.
      - subst r0. simpl in Ht. lia. }
    rewrite (checkAndUpdateAlerts_suppressed db1) by exact Hrec1.
    rewrite (checkAndUpdateAlerts_recorded db1) by exact Hnone2.
    simpl. auto.
Qed.

Lemma checkAndUpdateAlerts_cooldown_witness :
  let r := checkAndUpdateAlerts Db.empty "peak1" 1600000000 [] in
  fst r = true
  /\ fst (checkAndUpdateAlerts (snd r) "peak1" (1600000000 + 7199) []) = false
  /\ fst (checkAndUpdateAlerts (snd r) "peak1" (1600000000 + 7201) []) = true.
Proof.
  intros r.
  assert (Hfirst : fst r = true) by reflexivity.
  split; [exact Hfirst|].
  destruct (checkAndUpdateAlerts_cooldown Db.empty "peak1" 1600000000 [] [])
    as (_ & _ & _ & H).
  destruct (H Hfirst) as (H1 & _ & H2 & _).
  split; [exact H1|exact H2].
Defined.

End AlertFacts.

(** ** The deferred-image queue *)

Section DeferredQueueFacts.

Import Deferred.

(** C10. With [minusMinutes = 0], or with an empty queue,
    [getDeferrredImgageInfo] returns [(False, None)] and changes nothing,
    for every tracker and every current time. *)
Theorem getDeferrredImgageInfo_idle (timeTracker : TimeTracker.t)
    (minusMinutes : Z) (currentTime : float) (w : World) :
  minusMinutes = 0 \/ deferredImages w = [] ->
  getDeferrredImgageInfo timeTracker minusMinutes currentTime w
  = Ret ((false, None), w).
Proof.
  intros H. unfold getDeferrredImgageInfo.
  destruct (Z.eqb_spec minusMinutes 0) as [E|E]; [reflexivity|].
  destruct H as [H|H]; [contradiction|].
  unfold bind, getDeferredImages. rewrite H. reflexivity.
Qed.

Lemma getDeferrredImgageInfo_idle_witness :
  (0 = 0 \/ deferredImages world_peak1 = [])
  /\ getDeferrredImgageInfo TimeTracker.initializeTimeTracker 0 61 world_peak1
     = Ret ((false, None), world_peak1).
Proof.
  assert (H : 0 = 0 \/ deferredImages world_peak1 = [])
    by (left; reflexivity).
  split; [exact H|].
  exact (getDeferrredImgageInfo_idle TimeTracker.initializeTimeTracker 0 61
           world_peak1 H).
Defined.

(** The world with its queue replaced. *)
Lemma setDeferredImages_same (w : World) :
  {| cameras := cameras w; files := files w;
     deferredImages := deferredImages w; events := events w |} = w.
Proof. destruct w. reflexivity. Qed.



(** *** Files *)

Lemma file_exists_In (p : string) (fs : list string) :
  file_exists p fs = true <-> In p fs.
Proof.
  unfold file_exists. rewrite existsb_exists. split.
  - intros (q & Hq & E). apply String.eqb_eq in E. subst q. exact Hq.
  - intros H. exists p. split; [exact H|apply String.eqb_refl].
Qed.

Lemma file_exists_write_file (p q : string) (fs : list string) :
  file_exists q (write_file p fs) = true
  <-> q = p \/ file_exists q fs = true.
Proof.
  unfold write_file. destruct (file_exists p fs) eqn:E.
  - split; [auto|]. intros [H|H]; [subst q; exact E|exact H].
  - rewrite !file_exists_In. simpl. intuition congruence.
Qed.

Lemma file_exists_delete_file (p q : string) (fs : list string) :
  file_exists q (delete_file p fs) = true
  <-> q <> p /\ file_exists q fs = true.
Proof.
  unfold delete_file. rewrite !file_exists_In, filter_In, negb_true_iff.
  rewrite String.eqb_neq. intuition congruence.
Qed.

Lemma file_exists_delete_same (p : string) (fs : list string) :
  file_exists p (delete_file p fs) = false.
Proof.
  destruct (file_exists p (delete_file p fs)) eqn:E; [|reflexivity].
  apply file_exists_delete_file in E. destruct E as (E & _). congruence.
Qed.

(** A difference image is made from two files that exist, and is one
    more file. *)
Lemma genDiffImage_Ret (diffImgPath : string -> Z -> string)
    (imgPath earlierImgPath : string) (minusMinutes : Z) (w w' : World)
    (p : string) :
  genDiffImage diffImgPath imgPath earlierImgPath minusMinutes w
  = Ret (p, w') ->
  file_exists imgPath (files w) = true
  /\ file_exists earlierImgPath (files w) = true
  /\ p = diffImgPath imgPath minusMinutes
  /\ deferredImages w' = deferredImages w
  /\ cameras w' = cameras w
  /\ events w' = events w
  /\ files w' = write_file p (files w).
Proof.
  unfold genDiffImage, bind, image_open. intros H.
  destruct (file_exists imgPath (files w)); [|discriminate].
  destruct (file_exists earlierImgPath (files w)); [|discriminate].
  inversion H; subst. simpl. repeat split.
Qed.

Lemma genDiffImage_files (diffImgPath : string -> Z -> string)
    (imgPath earlierImgPath : string) (minusMinutes : Z) (w : World) :
  file_exists imgPath (files w) = true ->
  file_exists earlierImgPath (files w) = true ->
  genDiffImage diffImgPath imgPath earlierImgPath minusMinutes w
  = Ret (diffImgPath imgPath minusMinutes,
         {| cameras := cameras w;
            files := write_file (diffImgPath imgPath minusMinutes) (files w);
            deferredImages := deferredImages w;
            events := events w |}).
Proof.
  unfold genDiffImage, bind, image_open. intros H1 H2.
  rewrite H1, H2. reflexivity.
Qed.

(** *** [getNextImage] *)

Section Fetch.

Variable getImgPath : string -> Z -> string.

(** A fetch that returns has written the file it names, and has deleted
    nothing. *)
Lemma getNextImage_from_files (evs : list Attempt) :
  forall (wanted : option string) (cams : list Camera) (fs : list string)
         (f : Fetched) (cams' : list Camera) (fs' : list string)
         (evs' : list Attempt),
    getNextImage_from getImgPath evs wanted cams fs
    = Ret (f, (cams', fs', evs')) ->
    file_exists (snd (fst f)) fs' = true
    /\ forall q, file_exists q fs = true -> file_exists q fs' = true.
Proof.
  induction evs as [|ev evs IH]; intros wanted cams fs f cams' fs' evs' H;
    simpl in H; [discriminate|].
  match type of H with
  | match ?c with _ => _ end = _ => destruct c as [index|e|]
  end; try discriminate.
  destruct (nth_error cams index) as [camera|]; [|discriminate].
  destruct (download ev) as [h|].
  - destruct (md5_is camera h && negb (truthy_opt wanted)).
    + apply IH in H. destruct H as (H1 & H2).
      split; [exact H1|].
      intros q Hq. apply H2. apply file_exists_write_file. auto.
    + inversion H; subst. simpl.
      split; [apply file_exists_write_file; auto|].
      intros q Hq. apply file_exists_write_file. auto.
  - apply IH in H. exact H.
Qed.

Lemma getNextImage_Ret (wanted : option string) (w w1 : World)
    (cam : string) (ts : Z) (path h : string) :
  getNextImage getImgPath wanted w = Ret ((cam, ts, path, h), w1) ->
  deferredImages w1 = deferredImages w
  /\ file_exists path (files w1) = true
  /\ forall q, file_exists q (files w) = true
               -> file_exists q (files w1) = true.
Proof.
  unfold getNextImage. intros H.
  destruct (getNextImage_from getImgPath (events w) wanted (cameras w)
              (files w)) as [[f [[cams fs] evs]]|e|] eqn:E;
    try discriminate.
  inversion H; subst. simpl.
  apply getNextImage_from_files in E. simpl in E. tauto.
Qed.

End Fetch.


(** *** [genDiffImageFromDeferred] with an unchanged image *)




(** *** One entry per camera *)

Lemma one_per_camera_snoc (q : list DeferredImage) (d : DeferredImage) :
  one_per_camera q ->
  ~ In (cameraID d) (queued_cameras q) ->
  one_per_camera (q ++ [d]).
Proof.
  unfold one_per_camera, queued_cameras. intros Hq Hd.
  rewrite map_app. simpl.
  apply NoDup_app; [exact Hq|repeat constructor; intros []|].
  intros c Hc [Heq|[]]. subst c. exact (Hd Hc).
Qed.

Lemma one_per_camera_tail (d : DeferredImage) (q : list DeferredImage) :
  one_per_camera (d :: q) ->
  one_per_camera q /\ ~ In (cameraID d) (queued_cameras q).
Proof.
  unfold one_per_camera, queued_cameras. simpl.
  intros H. inversion H; subst. auto.
Qed.

(** Taking the head off the queue keeps the invariant, and the camera of
    the head is then absent from the queue. *)
Lemma getDeferrredImgageInfo_one_per_camera (timeTracker : TimeTracker.t)
    (minusMinutes : Z) (currentTime : float) (w w' : World) (queueFull : bool)
    (img : option DeferredImage) :
  getDeferrredImgageInfo timeTracker minusMinutes currentTime w
  = Ret ((queueFull, img), w') ->
  one_per_camera (deferredImages w) ->
  one_per_camera (deferredImages w')
  /\ forall info, img = Some info ->
                  ~ In (cameraID info) (queued_cameras (deferredImages w')).
Proof.
  unfold getDeferrredImgageInfo. intros H Hinv.
  destruct (minusMinutes =? 0).
  { inversion H; subst. split; [exact Hinv|discriminate]. }
  unfold bind, getDeferredImages in H. cbv beta iota zeta in H.
  destruct (deferredImages w) as [|head rest] eqn:Hq.
  { inversion H; subst. rewrite Hq. split; [exact Hinv|discriminate]. }
  destruct (one_per_camera_tail _ _ Hinv) as (Hrest & Hhead).
  cbv beta iota zeta in H.
  match type of H with
  | (if ?c then _ else _) _ = _ => destruct c
  end.
  - unfold setDeferredImages, ret in H. inversion H; subst. simpl.
    split; [exact Hrest|]. intros info E. inversion E; subst. exact Hhead.
  - inversion H; subst. rewrite Hq. split; [exact Hinv|discriminate].
Qed.

Lemma filter_nil_none {A : Type} (p : A -> bool) (l : list A) :
  filter p l = [] -> forall x, In x l -> p x = false.
Proof.
  intros H x Hx. destruct (p x) eqn:E; [|reflexivity].
  assert (Hin : In x (filter p l)) by (apply filter_In; auto).
  rewrite H in Hin. destruct Hin.
Qed.

(** [addToDeferredImages], when it returns, has either left the queue as
    it was, or appended an entry for a camera that had none; so it keeps
    the invariant. *)
Lemma addToDeferredImages_one_per_camera
    (getImgPath : string -> Z -> string) (w w' : World) :
  addToDeferredImages getImgPath w = Ret (tt, w') ->
  (deferredImages w' = deferredImages w
   \/ exists d, deferredImages w' = deferredImages w ++ [d]
                /\ oldWait d = 0
                /\ ~ In (cameraID d) (queued_cameras (deferredImages w)))
  /\ (one_per_camera (deferredImages w)
      -> one_per_camera (deferredImages w')).
Proof.
  unfold addToDeferredImages, bind. intros H.
  destruct (getNextImage getImgPath None w) as [[f w1]|e|] eqn:Hf;
    try discriminate.
  destruct f as [[[cam ts] path] h].
  apply getNextImage_Ret in Hf. destruct Hf as (Hq & _).
  unfold getDeferredImages in H.
  set (matches := filter (fun x => String.eqb (cameraID x) cam)
                         (deferredImages w1)) in *.
  destruct (0 <? len matches) eqn:Hlen.
  - destruct (len matches =? 1); [|discriminate].
    unfold ret in H. inversion H; subst.
    rewrite Hq. split; [left; reflexivity|auto].
  - unfold setDeferredImages in H. inversion H; subst. simpl. clear H.
    assert (Hnil : matches = []).
    { apply Z.ltb_ge in Hlen. unfold len in Hlen.
      destruct matches; [reflexivity|simpl in Hlen; lia]. }
    assert (Habsent : ~ In cam (queued_cameras (deferredImages w1))).
    { unfold queued_cameras. intros Hin. apply in_map_iff in Hin.
      destruct Hin as (d & Hd & Hin).
      pose proof (filter_nil_none _ _ Hnil d Hin) as Hn.
      simpl in Hn. rewrite Hd, String.eqb_refl in Hn. discriminate. }
    rewrite Hq in *.
    split.
    + right. eexists. split; [reflexivity|]. simpl. auto.
    + intros Hinv. apply one_per_camera_snoc; [exact Hinv|exact Habsent].
Qed.

(** [genDiffImageFromDeferred] keeps the invariant when the camera of the
    entry it is given has no entry in the queue. *)
Lemma genDiffImageFromDeferred_one_per_camera
    (getImgPath diffImgPath : string -> Z -> string)
    (info : DeferredImage) (minusMinutes : Z) (w w' : World)
    (r : option (string * Z * string * string)) :
  genDiffImageFromDeferred getImgPath diffImgPath info minusMinutes w
  = Ret (r, w') ->
  one_per_camera (deferredImages w) ->
  ~ In (cameraID info) (queued_cameras (deferredImages w)) ->
  one_per_camera (deferredImages w').
Proof.
  unfold genDiffImageFromDeferred, bind. intros H Hinv Habsent.
  destruct (getNextImage getImgPath (Some (cameraID info)) w)
    as [[f w1]|e|] eqn:Hf; try discriminate.
  destruct f as [[[cam ts] path] h].
  apply getNextImage_Ret in Hf. destruct Hf as (Hq & _).
  rewrite <- Hq in Hinv, Habsent.
  destruct (String.eqb h (md5 info)).
  - destruct (ts - timestamp info + oldWait info
              <? Py.min (2 * 60 * minusMinutes) (5 * 60)).
    + unfold getDeferredImages, setDeferredImages, os_remove, ret in H.
      cbn [files deferredImages cameras events] in H.
      destruct (file_exists path (files w1)); [|discriminate].
      inversion H; subst. cbn [deferredImages].
      apply one_per_camera_snoc; [exact Hinv|exact Habsent].
    + unfold os_remove, ret in H.
      destruct (file_exists (imgPath info) (files w1)); [|discriminate].
      cbn [files deferredImages cameras events] in H.
      destruct (file_exists path (delete_file (imgPath info) (files w1)));
        [|discriminate].
      inversion H; subst. exact Hinv.
  - destruct (genDiffImage diffImgPath path (imgPath info) minusMinutes w1)
      as [[p w2]|e|] eqn:Hd; try discriminate.
    apply genDiffImage_Ret in Hd. destruct Hd as (_ & _ & _ & Hq2 & _).
    unfold ret in H. inversion H; subst. rewrite Hq2. exact Hinv.
Qed.

(** C8.  The invariant does not hold at every point in time.  A process
    that watches camera peak1 sees image X at second 0, image Y at second
    20 and image X again at seconds 61 and 62.  The third pass of the loop
    takes the entry of second 0 off the queue, [addToDeferredImages] then
    queues the image of second 61 for the same camera, and
    [genDiffImageFromDeferred] finds the image unchanged with respect to
    the entry it holds and appends that entry again: the queue has two
    entries for peak1.  In the next pass the assertion of
    [addToDeferredImages] fails. *)
Theorem diffModeStep_queues_camera_twice :
  one_per_camera (deferredImages world_peak1)
  /\ (exists w3,
        three_ticks world_peak1 = Ret (None, w3)
        /\ queued_cameras (deferredImages w3)
           = [ "peak1"%string; "peak1"%string ]
        /\ ~ one_per_camera (deferredImages w3))
  /\ four_ticks world_peak1 = Raise AssertionError.
Proof.
  split; [constructor|].
  split.
  - eexists. split; [vm_compute; reflexivity|].
    split; [reflexivity|].
    unfold one_per_camera. simpl. intros H.
    inversion H as [|? ? Hnotin _]; subst.
    apply Hnotin. left. reflexivity.
  - vm_compute. reflexivity.
Qed.

End DeferredQueueFacts.


(** * Further properties of the code *)

(** ** TimeTracker: what a run of samples keeps *)

Section TimeTrackerRuns.

Import TimeTracker.

(** A call returns when [totalTime] is a float, or the integer 0 of a
    reset, and the count is in range; the count stays in range. *)
Lemma updateTimeTracker_count (tt : t) (d : float) :
  0 <= numSamples tt <= 50 ->
  (forall tt', updateTimeTracker tt d = Ret tt' ->
               0 <= numSamples tt' <= 50
               /\ (totalTime tt' = PyInt 0 \/ exists f, totalTime tt' = PyFloat f))
  /\ (totalTime tt = PyInt 0 \/ (exists f, totalTime tt = PyFloat f) ->
      exists tt', updateTimeTracker tt d = Ret tt').
Proof.
  intros H. unfold updateTimeTracker. split.
  - intros tt'.
    destruct (number_add_float (totalTime tt) d) as [f| |]; try discriminate.
    destruct (Z.ltb_spec 50 (numSamples tt + 1)).
    + destruct (float_of_int (numSamples tt + 1)); try discriminate.
      intros E. inversion E; subst. simpl. split; [lia|auto].
    + intros E. inversion E; subst. simpl. split; [lia|eauto].
  - intros Ht.
    assert (Hadd : exists f, number_add_float (totalTime tt) d = Ret f).
    { destruct Ht as [Ht|(f & Ht)]; rewrite Ht; simpl; eauto. }
    destruct Hadd as (f & Hadd). rewrite Hadd.
    destruct (Z.ltb_spec 50 (numSamples tt + 1)); [|eauto].
    replace (numSamples tt + 1) with 51 by lia. simpl. eauto.
Qed.

(** The sample count stays between 0 and 50 over any run of calls of
    [updateTimeTracker], and the run comes to its end when it starts with
    a float, or the integer 0 of a reset, in [totalTime]. *)
Theorem record_all_count_in_range (tt : t) (ds : list float) :
  0 <= numSamples tt <= 50 ->
  (forall tt', record_all tt ds = Ret tt' -> 0 <= numSamples tt' <= 50)
  /\ (totalTime tt = PyInt 0 \/ (exists f, totalTime tt = PyFloat f) ->
      exists tt', record_all tt ds = Ret tt').
Proof.
  revert tt.
  induction ds as [|d ds IH]; intros tt H; simpl.
  - split; [intros tt' E; inversion E; subst; exact H|eauto].
  - destruct (updateTimeTracker_count tt d H) as (Hstep & Hret).
    split.
    + intros tt' E.
      destruct (updateTimeTracker tt d) as [tt1| |]; try discriminate.
      destruct (Hstep tt1 eq_refl) as (H1 & _).
      exact (proj1 (IH tt1 H1) tt' E).
    + intros Ht. destruct (Hret Ht) as (tt1 & E1). rewrite E1.
      destruct (Hstep tt1 E1) as (H1 & Ht1).
      exact (proj2 (IH tt1 H1) Ht1).
Qed.

Lemma record_all_count_in_range_witness :
  0 <= numSamples initializeTimeTracker <= 50
  /\ exists tt',
       record_all initializeTimeTracker (repeat 2%float 120) = Ret tt'
       /\ 0 <= numSamples tt' <= 50.
Proof.
  assert (H : 0 <= numSamples initializeTimeTracker <= 50) by (simpl; lia).
  split; [exact H|].
  destruct (record_all_count_in_range initializeTimeTracker
              (repeat 2%float 120) H) as (Hrange & Hret).
  destruct (Hret (or_intror (ex_intro _ 0%float eq_refl))) as (tt' & E).
  exists tt'. split; [exact E|exact (Hrange tt' E)].
Defined.

(** The estimate after any number of complete blocks of 51 samples is
    that of the last block alone, the sum of its 51 durations added in
    order, divided by 51: earlier samples have no weight in it. *)
Theorem record_all_estimate_is_last_block (blocks : list (list float))
    (last : list float) :
  Forall (fun b => List.length b = 51%nat) blocks ->
  List.length last = 51%nat ->
  record_all initializeTimeTracker (List.concat blocks ++ last)
  = Ret {| totalTime := PyInt 0;
           numSamples := 0;
           timePerSample := PyFloat (total_from 0 last / 51) |}.
Proof.
  intros Hall Hlast.
  assert (Hstate : forall tt, numSamples tt = 0 ->
            totalTime tt = PyInt 0 \/ totalTime tt = PyFloat 0 ->
            exists tt',
              record_all tt (List.concat blocks) = Ret tt'
              /\ numSamples tt' = 0
              /\ (totalTime tt' = PyInt 0 \/ totalTime tt' = PyFloat 0)).
  { induction Hall as [|b bs Hb _ IH]; intros tt Hn Ht; simpl; [eauto|].
    rewrite record_all_app, (record_all_block tt b Hn Ht Hb).
    apply IH; simpl; auto. }
  destruct (Hstate initializeTimeTracker eq_refl (or_intror eq_refl))
    as (tt' & E & Hn & Ht).
  rewrite record_all_app, E.
  apply record_all_block; assumption.
Qed.

Lemma record_all_estimate_is_last_block_witness :
  Forall (fun b => List.length b = 51%nat)
         [repeat 9%float 51; repeat 4%float 51]
  /\ List.length (repeat 0.1%float 51) = 51%nat
  /\ record_all initializeTimeTracker
       (List.concat [repeat 9%float 51; repeat 4%float 51]
        ++ repeat 0.1%float 51)
     = Ret {| totalTime := PyInt 0;
              numSamples := 0;
              timePerSample := PyFloat 0.09999999999999996 |}.
Proof.
  assert (Hall : Forall (fun b => List.length b = 51%nat)
                        [repeat 9%float 51; repeat 4%float 51])
    by (repeat constructor).
  assert (Hlast : List.length (repeat 0.1%float 51) = 51%nat) by reflexivity.
  split; [exact Hall|]. split; [exact Hlast|].
  exact (record_all_estimate_is_last_block
           [repeat 9%float 51; repeat 4%float 51] (repeat 0.1%float 51)
           Hall Hlast).
Defined.

End TimeTrackerRuns.

(** ** [getNextImage] *)

Section FetchFacts.

Import Deferred.

Variable getImgPath : string -> Z -> string.

Local Arguments truthy : simpl never.

Lemma find_index_Some {A : Type} (p : A -> bool) (l : list A) (i : nat) :
  find_index p l = Some i ->
  exists x, nth_error l i = Some x /\ p x = true.
Proof.
  revert i. induction l as [|a l IH]; intros i H; simpl in H; [discriminate|].
  destruct (p a) eqn:E.
  - inversion H; subst. exists a. auto.
  - destruct (find_index p l) as [j|]; [|discriminate].
    inversion H; subst. simpl. apply IH. reflexivity.
Qed.

Lemma find_index_None {A : Type} (p : A -> bool) (l : list A) :
  find_index p l = None -> forall x, In x l -> p x = false.
Proof.
  induction l as [|a l IH]; intros H x Hx; [destruct Hx|].
  simpl in H. destruct (p a) eqn:E; [discriminate|].
  destruct (find_index p l); [discriminate|].
  destruct Hx as [Hx|Hx]; [subst; exact E|auto].
Qed.

Lemma set_md5_names (index : nat) (h : string) (cams : list Camera) :
  map cam_name (set_md5 index h cams) = map cam_name cams
  /\ map cam_url (set_md5 index h cams) = map cam_url cams.
Proof.
  revert index. induction cams as [|c cams IH]; intros index.
  - destruct index; simpl; auto.
  - destruct index as [|i]; simpl; [auto|].
    destruct (IH i) as (H1 & H2). rewrite H1, H2. auto.
Qed.

Lemma set_md5_nth (index : nat) (h : string) (cams : list Camera)
    (camera : Camera) :
  nth_error cams index = Some camera ->
  nth_error (set_md5 index h cams) index
  = Some {| cam_name := cam_name camera; cam_url := cam_url camera;
            cam_md5 := Some h |}.
Proof.
  revert index. induction cams as [|c cams IH]; intros index H.
  - destruct index; discriminate.
  - destruct index as [|i]; simpl in *.
    + inversion H; subst. reflexivity.
    + apply IH. exact H.
Qed.

Lemma md5_is_false (camera : Camera) (h : string) :
  md5_is camera h = false <-> cam_md5 camera <> Some h.
Proof.
  unfold md5_is. destruct (cam_md5 camera) as [h0|].
  - rewrite String.eqb_neq. split; congruence.
  - split; [discriminate|reflexivity].
Qed.

(** What a fetch that returns has done: one attempt succeeded, for the
    camera at some index, whose recorded hash is replaced; unless the
    camera was asked for and answered at once, its image has changed. *)
Lemma getNextImage_from_Ret (evs : list Attempt) :
  forall (wanted : option string) (cams : list Camera) (fs : list string)
         (cam : string) (ts : Z) (path h : string)
         (cams' : list Camera) (fs' : list string) (evs' : list Attempt),
    getNextImage_from getImgPath evs wanted cams fs
    = Ret ((cam, ts, path, h), (cams', fs', evs')) ->
    exists index camera,
      nth_error cams index = Some camera
      /\ cam_name camera = cam
      /\ cams' = set_md5 index h cams
      /\ path = getImgPath cam ts
      /\ (truthy_opt wanted = true \/ cam_md5 camera <> Some h).
Proof.
  induction evs as [|ev evs IH];
    intros wanted cams fs cam ts path h cams' fs' evs' H;
    simpl in H; [discriminate|].
  match type of H with
  | match ?c with _ => _ end = _ => destruct c as [index|e|]
  end; try discriminate.
  destruct (nth_error cams index) as [camera|] eqn:Hnth; [|discriminate].
  destruct (download ev) as [h0|].
  - destruct (md5_is camera h0 && negb (truthy_opt wanted)) eqn:Hskip.
    + apply IH in H.
      destruct H as (i & c & H1 & H2 & H3 & H4 & [H5|H5]);
        [discriminate|].
      exists i, c. auto 6.
    + inversion H; subst. exists index, camera.
      repeat split; auto.
      apply andb_false_iff in Hskip. destruct Hskip as [Hm|Hw].
      * right. apply md5_is_false. exact Hm.
      * left. apply negb_false_iff. exact Hw.
  - apply IH in H.
    destruct H as (i & c & H1 & H2 & H3 & H4 & [H5|H5]); [discriminate|].
    exists i, c. auto 6.
Qed.

(** A fetch by the shared counter returns only a changed image: the hash
    it returns differs from the hash recorded for the camera, and is
    recorded for it on return. *)
Theorem getNextImage_returns_changed_image (w w1 : World) (cam : string)
    (ts : Z) (path h : string) :
  getNextImage getImgPath None w = Ret ((cam, ts, path, h), w1) ->
  exists index camera,
    nth_error (cameras w) index = Some camera
    /\ cam_name camera = cam
    /\ cam_md5 camera <> Some h
    /\ nth_error (cameras w1) index
       = Some {| cam_name := cam; cam_url := cam_url camera;
                 cam_md5 := Some h |}
    /\ path = getImgPath cam ts.
Proof.
  unfold getNextImage. intros H.
  destruct (getNextImage_from getImgPath (events w) None (cameras w) (files w))
    as [[f [[cams fs] evs]]|e|] eqn:E; try discriminate.
  inversion H; subst. clear H.
  apply getNextImage_from_Ret in E.
  destruct E as (index & camera & H1 & H2 & H3 & H4 & [H5|H5]);
    [discriminate|].
  exists index, camera. simpl. subst cams.
  rewrite (set_md5_nth _ _ _ _ H1), H2. auto.
Qed.

(** A fetch that returns leaves the queue alone, keeps the names and the
    addresses of the cameras, deletes no file, and the file it names
    exists. *)
Theorem getNextImage_frame (wanted : option string) (w w1 : World)
    (cam : string) (ts : Z) (path h : string) :
  getNextImage getImgPath wanted w = Ret ((cam, ts, path, h), w1) ->
  deferredImages w1 = deferredImages w
  /\ map cam_name (cameras w1) = map cam_name (cameras w)
  /\ map cam_url (cameras w1) = map cam_url (cameras w)
  /\ file_exists path (files w1) = true
  /\ (forall q, file_exists q (files w) = true
                -> file_exists q (files w1) = true).
Proof.
  intros H.
  destruct (getNextImage_Ret getImgPath _ _ _ _ _ _ _ H) as (Hq & Hnew & Hkeep).
  unfold getNextImage in H.
  destruct (getNextImage_from getImgPath (events w) wanted (cameras w)
              (files w)) as [[f [[cams fs] evs]]|e|] eqn:E; try discriminate.
  inversion H; subst. clear H.
  apply getNextImage_from_Ret in E.
  destruct E as (index & camera & _ & _ & H3 & _).
  simpl in *. subst cams.
  destruct (set_md5_names index h (cameras w)) as (Hn & Hu).
  auto.
Qed.

(** A camera that is asked for by name and answers is returned even when
    its image is unchanged; when its download fails, the retry goes to
    the camera the shared counter selects, as if no camera had been asked
    for. *)
Theorem getNextImage_requested (cid : string) (w : World) (ev : Attempt)
    (evs : list Attempt) :
  truthy cid = true ->
  In cid (map cam_name (cameras w)) ->
  events w = ev :: evs ->
  (forall h, download ev = Some h ->
     exists w1,
       getNextImage getImgPath (Some cid) w
       = Ret ((cid, now ev, getImgPath cid (now ev), h), w1)
       /\ events w1 = evs)
  /\ (download ev = None ->
      getNextImage getImgPath (Some cid) w
      = getNextImage getImgPath None
          {| cameras := cameras w; files := files w;
             deferredImages := deferredImages w; events := evs |}).
Proof.
  intros Hcid Hin Hev.
  assert (Hfind : exists index camera,
             find_index (fun x => String.eqb (cam_name x) cid) (cameras w)
             = Some index
             /\ nth_error (cameras w) index = Some camera
             /\ cam_name camera = cid).
  { destruct (find_index (fun x => String.eqb (cam_name x) cid) (cameras w))
      as [index|] eqn:E.
    - destruct (find_index_Some _ _ _ E) as (camera & Hn & Hp).
      apply String.eqb_eq in Hp. exists index, camera. auto.
    - exfalso. apply in_map_iff in Hin. destruct Hin as (c & Hc & Hin).
      pose proof (find_index_None _ _ E c Hin) as Hf. simpl in Hf.
      rewrite Hc, String.eqb_refl in Hf. discriminate. }
  destruct Hfind as (index & camera & Hfind & Hnth & Hname).
  split.
  - intros h Hd. unfold getNextImage. rewrite Hev. simpl.
    rewrite Hcid, Hfind, Hnth, Hd. simpl.
    rewrite andb_false_r, Hname. eexists. split; reflexivity.
  - intros Hd. unfold getNextImage. rewrite Hev. simpl.
    rewrite Hcid, Hfind, Hnth, Hd. reflexivity.
Qed.

(** Without cameras a fetch by the shared counter raises
    [ZeroDivisionError], and a fetch for a name that no camera bears
    raises [IndexError]. *)
Theorem getNextImage_errors (w : World) (cid : string) :
  events w <> [] ->
  (cameras w = [] ->
   getNextImage getImgPath None w = Raise ZeroDivisionError)
  /\ (truthy cid = true -> ~ In cid (map cam_name (cameras w)) ->
      getNextImage getImgPath (Some cid) w = Raise IndexError).
Proof.
  intros Hev. destruct (events w) as [|ev evs] eqn:E; [congruence|].
  split.
  - intros Hc. unfold getNextImage. rewrite E, Hc. reflexivity.
  - intros Hcid Hnot. unfold getNextImage. rewrite E. simpl. rewrite Hcid.
    destruct (find_index (fun x => String.eqb (cam_name x) cid) (cameras w))
      as [index|] eqn:Hf; [|reflexivity].
    exfalso. destruct (find_index_Some _ _ _ Hf) as (camera & Hn & Hp).
    apply String.eqb_eq in Hp. apply Hnot. rewrite <- Hp.
    apply in_map. eapply nth_error_In. exact Hn.
Qed.

End FetchFacts.

Section FetchRuns.

Import Deferred.

Lemma getNextImage_returns_changed_image_witness :
  exists w1,
    getNextImage example_getImgPath None world_peak1
    = Ret (("peak1"%string, 0, "peak1_0.jpg"%string, "X"%string), w1)
    /\ exists index camera,
         nth_error (cameras world_peak1) index = Some camera
         /\ cam_md5 camera <> Some "X"%string.
Proof.
  eexists.
  assert (H : getNextImage example_getImgPath None world_peak1
              = Ret (("peak1"%string, 0, "peak1_0.jpg"%string, "X"%string), _))
    by reflexivity.
  split; [exact H|].
  destruct (getNextImage_returns_changed_image example_getImgPath _ _ _ _ _ _ H)
    as (index & camera & H1 & _ & H3 & _).
  exists index, camera. split; assumption.
Defined.

Lemma getNextImage_frame_witness :
  exists w1,
    getNextImage example_getImgPath (Some "peak1"%string) world_waiting
    = Ret (("peak1"%string, 61, "peak1_61.jpg"%string, "X"%string), w1)
    /\ deferredImages w1 = deferredImages world_waiting
    /\ file_exists "peak1_61.jpg" (files w1) = true.
Proof.
  eexists.
  assert (H : getNextImage example_getImgPath (Some "peak1"%string)
                world_waiting
              = Ret (("peak1"%string, 61, "peak1_61.jpg"%string,
                      "X"%string), _))
    by reflexivity.
  split; [exact H|].
  destruct (getNextImage_frame example_getImgPath _ _ _ _ _ _ _ H)
    as (H1 & _ & _ & H4 & _).
  split; assumption.
Defined.

Lemma getNextImage_requested_witness :
  truthy "peak1" = true
  /\ In "peak1"%string (map cam_name (cameras world_waiting))
  /\ exists w1,
       getNextImage example_getImgPath (Some "peak1"%string) world_waiting
       = Ret (("peak1"%string, 61, "peak1_61.jpg"%string, "X"%string), w1).
Proof.
  assert (Hcid : truthy "peak1" = true) by reflexivity.
  assert (Hin : In "peak1"%string (map cam_name (cameras world_waiting)))
    by (left; reflexivity).
  split; [exact Hcid|]. split; [exact Hin|].
  destruct (getNextImage_requested example_getImgPath "peak1" world_waiting
              _ _ Hcid Hin eq_refl) as (Hok & _).
  destruct (Hok "X"%string eq_refl) as (w1 & H & _).
  exists w1. exact H.
Defined.

Lemma getNextImage_errors_witness :
  events world_peak1 <> []
  /\ getNextImage example_getImgPath (Some "peak2"%string) world_peak1
     = Raise IndexError.
Proof.
  assert (Hev : events world_peak1 <> []) by discriminate.
  split; [exact Hev|].
  apply (proj2 (getNextImage_errors example_getImgPath world_peak1 "peak2" Hev)).
  - reflexivity.
  - simpl. intros [H|[]]. discriminate.
Defined.

End FetchRuns.

(** ** The queue operations *)

Section QueueOperations.

Import Deferred.

Variable getImgPath : string -> Z -> string.
Variable diffImgPath : string -> Z -> string.

(** Whatever its arguments, [getDeferrredImgageInfo] takes at most the
    head off the queue: the entry it returns followed by the queue it
    leaves is the queue it found, and nothing else changes. *)
Theorem getDeferrredImgageInfo_takes_head (timeTracker : TimeTracker.t)
    (minusMinutes : Z) (currentTime : float) (w w' : World) (queueFull : bool)
    (img : option DeferredImage) :
  getDeferrredImgageInfo timeTracker minusMinutes currentTime w
  = Ret ((queueFull, img), w') ->
  deferredImages w
  = match img with
    | Some info => info :: deferredImages w'
    | None => deferredImages w'
    end
  /\ cameras w' = cameras w /\ files w' = files w /\ events w' = events w.
Proof.
  unfold getDeferrredImgageInfo. intros H.
  destruct (minusMinutes =? 0).
  { inversion H; subst. auto. }
  unfold bind, getDeferredImages in H. cbv beta iota zeta in H.
  destruct (deferredImages w) as [|head rest] eqn:Hq.
  { inversion H; subst. auto. }
  cbv beta iota zeta in H.
  match type of H with
  | (if ?c then _ else _) _ = _ => destruct c
  end.
  - unfold setDeferredImages, ret in H. inversion H; subst. simpl. auto.
  - inversion H; subst. auto.
Qed.

(** What [addToDeferredImages] does with the image it fetched, by the
    number of entries the queue holds for that camera: with none, an
    entry for the fetch, with no wait, is appended; with one, the queue
    is left as it is; with more, the assertion fails. *)
Theorem addToDeferredImages_by_matches (w w1 : World) (cam : string)
    (ts : Z) (path h : string) :
  getNextImage getImgPath None w = Ret ((cam, ts, path, h), w1) ->
  let matches :=
    filter (fun x => String.eqb (cameraID x) cam) (deferredImages w) in
  (matches = [] ->
   addToDeferredImages getImgPath w
   = Ret (tt, {| cameras := cameras w1; files := files w1;
                 deferredImages :=
                   deferredImages w
                   ++ [ {| timestamp := ts; cameraID := cam;
                           imgPath := path; md5 := h; oldWait := 0 |} ];
                 events := events w1 |}))
  /\ (List.length matches = 1%nat ->
      addToDeferredImages getImgPath w = Ret (tt, w1))
  /\ ((List.length matches > 1)%nat ->
      addToDeferredImages getImgPath w = Raise AssertionError).
Proof.
  intros Hf matches.
  destruct (getNextImage_Ret getImgPath _ _ _ _ _ _ _ Hf) as (Hq & _).
  unfold addToDeferredImages, bind. rewrite Hf.
  unfold getDeferredImages. cbv beta iota zeta. rewrite Hq.
  fold matches. unfold len.
  split; [|split].
  - intros E. rewrite E. reflexivity.
  - intros E. rewrite E. reflexivity.
  - intros E.
    destruct (Z.ltb_spec 0 (Z.of_nat (List.length matches))); [|lia].
    destruct (Z.eqb_spec (Z.of_nat (List.length matches)) 1); [lia|].
    reflexivity.
Qed.

(** When the image fetched for a deferred entry has another hash than the
    entry, [genDiffImageFromDeferred] opens the image and the file of the
    entry.  With the file of the entry on disk it returns the fetch with
    the name of the difference image, which it has written; the entry is
    not put back in the queue, and no file is deleted.  With the file of
    the entry gone it raises [FileNotFoundError]. *)
Theorem genDiffImageFromDeferred_changed (info : DeferredImage)
    (minusMinutes : Z) (w w1 : World) (cam : string) (ts : Z)
    (path h : string) :
  getNextImage getImgPath (Some (cameraID info)) w
  = Ret ((cam, ts, path, h), w1) ->
  h <> md5 info ->
  (file_exists (imgPath info) (files w) = true ->
   exists w',
     genDiffImageFromDeferred getImgPath diffImgPath info minusMinutes w
     = Ret (Some (cam, ts, path, diffImgPath path minusMinutes), w')
     /\ deferredImages w' = deferredImages w
     /\ file_exists (diffImgPath path minusMinutes) (files w') = true
     /\ file_exists path (files w') = true
     /\ (forall q, file_exists q (files w) = true
                   -> file_exists q (files w') = true))
  /\ (file_exists (imgPath info) (files w1) = false ->
      genDiffImageFromDeferred getImgPath diffImgPath info minusMinutes w
      = Raise FileNotFoundError).
Proof.
  intros Hf Hh.
  destruct (getNextImage_Ret getImgPath _ _ _ _ _ _ _ Hf) as (Hq & Hnew & Hkeep).
  unfold genDiffImageFromDeferred, bind. rewrite Hf.
  apply String.eqb_neq in Hh. rewrite Hh.
  split.
  - intros Hfile.
    rewrite genDiffImage_files by auto.
    unfold ret. eexists. split; [reflexivity|].
    cbn [deferredImages files].
    split; [exact Hq|].
    split; [apply file_exists_write_file; auto|].
    split; [apply file_exists_write_file; auto|].
    intros q Hq'. apply file_exists_write_file. auto.
  - intros Hgone. unfold genDiffImage, bind, image_open.
    rewrite Hnew, Hgone. reflexivity.
Qed.

(** A pass of the loop keeps the queue at one entry per camera whenever
    it does not both find the queue short of full and take an entry off
    it: the passes that can queue a camera twice are those in which
    [getDeferrredImgageInfo] answers [(False, entry)]. *)
Theorem diffModeStep_one_per_camera (timeTracker : TimeTracker.t)
    (minusMinutes : Z) (timeStart : float) (w w0 w' : World) (queueFull : bool)
    (img : option DeferredImage)
    (r : option (string * Z * string * string)) :
  one_per_camera (deferredImages w) ->
  getDeferrredImgageInfo timeTracker minusMinutes timeStart w
  = Ret ((queueFull, img), w0) ->
  queueFull = true \/ img = None ->
  diffModeStep getImgPath diffImgPath timeTracker minusMinutes timeStart w
  = Ret (r, w') ->
  one_per_camera (deferredImages w').
Proof.
  intros Hinv Hget Hcase Hstep.
  destruct (getDeferrredImgageInfo_one_per_camera _ _ _ _ _ _ _ Hget Hinv)
    as (Hinv0 & Habsent).
  unfold diffModeStep, bind in Hstep. rewrite Hget in Hstep.
  cbv beta iota zeta in Hstep.
  destruct queueFull; cbn [negb] in Hstep.
  - unfold ret at 1 in Hstep.
    destruct img as [info|]; [|inversion Hstep; subst; exact Hinv0].
    destruct (genDiffImageFromDeferred getImgPath diffImgPath info
                minusMinutes w0) as [[d w2]|e|] eqn:Hgen; try discriminate.
    assert (Hinv2 : one_per_camera (deferredImages w2)).
    { eapply genDiffImageFromDeferred_one_per_camera;
        [exact Hgen|exact Hinv0|]. apply Habsent. reflexivity. }
    destruct d as [[[[cam ts] path] cpath]|].
    + destruct (negb (truthy cam)).
      * inversion Hstep; subst. exact Hinv2.
      * unfold os_remove, ret in Hstep.
        destruct (file_exists (imgPath info) (files w2)); [|discriminate].
        inversion Hstep; subst. exact Hinv2.
    + inversion Hstep; subst. exact Hinv2.
  - destruct Hcase as [Hc|Hc]; [discriminate|]. subst img.
    destruct (addToDeferredImages getImgPath w0) as [[u w2]|e|] eqn:Hadd;
      try discriminate.
    destruct u.
    inversion Hstep; subst.
    exact (proj2 (addToDeferredImages_one_per_camera _ _ _ Hadd) Hinv0).
Qed.

End QueueOperations.

Section QueueRuns.

Import Deferred.

Lemma getDeferrredImgageInfo_takes_head_witness :
  getDeferrredImgageInfo TimeTracker.initializeTimeTracker 1 61 world_waiting
  = Ret ((false, Some entry_peak1), world_resolving)
  /\ deferredImages world_waiting
     = entry_peak1 :: deferredImages world_resolving.
Proof.
  assert (H : getDeferrredImgageInfo TimeTracker.initializeTimeTracker 1 61
                world_waiting
              = Ret ((false, Some entry_peak1), world_resolving))
    by reflexivity.
  split; [exact H|].
  exact (proj1 (getDeferrredImgageInfo_takes_head _ _ _ _ _ _ _ H)).
Defined.

Lemma addToDeferredImages_by_matches_witness :
  exists w1 w',
    getNextImage example_getImgPath None world_peak1
    = Ret (("peak1"%string, 0, "peak1_0.jpg"%string, "X"%string), w1)
    /\ addToDeferredImages example_getImgPath world_peak1 = Ret (tt, w')
    /\ deferredImages w' = [ entry_peak1 ].
Proof.
  eexists. eexists.
  assert (H : getNextImage example_getImgPath None world_peak1
              = Ret (("peak1"%string, 0, "peak1_0.jpg"%string, "X"%string), _))
    by reflexivity.
  split; [exact H|].
  split.
  - exact (proj1 (addToDeferredImages_by_matches example_getImgPath _ _ _ _ _ _ H)
             eq_refl).
  - reflexivity.
Defined.

Lemma genDiffImageFromDeferred_changed_witness :
  let w := {| cameras := cameras world_resolving;
              files := files world_resolving;
              deferredImages := [];
              events := [ {| counter := 1; now := 61;
                             download := Some "Y"%string |} ] |} in
  exists w1 w',
    getNextImage example_getImgPath (Some (cameraID entry_peak1)) w
    = Ret (("peak1"%string, 61, "peak1_61.jpg"%string, "Y"%string), w1)
    /\ "Y"%string <> md5 entry_peak1
    /\ file_exists (imgPath entry_peak1) (files w) = true
    /\ genDiffImageFromDeferred example_getImgPath example_diffImgPath
         entry_peak1 1 w
       = Ret (Some ("peak1"%string, 61, "peak1_61.jpg"%string,
                    "peak1_61.jpg_Diff1"%string), w').
Proof.
  intros w. eexists.
  assert (H : getNextImage example_getImgPath (Some (cameraID entry_peak1)) w
              = Ret (("peak1"%string, 61, "peak1_61.jpg"%string,
                      "Y"%string), _))
    by reflexivity.
  assert (Hh : "Y"%string <> md5 entry_peak1) by discriminate.
  assert (Hfile : file_exists (imgPath entry_peak1) (files w) = true)
    by reflexivity.
  destruct (proj1 (genDiffImageFromDeferred_changed example_getImgPath
                     example_diffImgPath entry_peak1 1 w _ _ _ _ _ H Hh)
              Hfile)
    as (w' & Hrun & _).
  exists w'. split; [exact H|]. split; [exact Hh|].
  split; [exact Hfile|exact Hrun].
Defined.

Lemma diffModeStep_one_per_camera_witness :
  one_per_camera (deferredImages world_peak1)
  /\ exists r w',
       diffModeStep example_getImgPath example_diffImgPath
         TimeTracker.initializeTimeTracker 1 0 world_peak1
       = Ret (r, w')
       /\ one_per_camera (deferredImages w').
Proof.
  assert (Hinv : one_per_camera (deferredImages world_peak1))
    by constructor.
  split; [exact Hinv|].
  eexists. eexists.
  assert (Hstep : diffModeStep example_getImgPath example_diffImgPath
                    TimeTracker.initializeTimeTracker 1 0 world_peak1
                  = Ret _) by (vm_compute; reflexivity).
  split; [exact Hstep|].
  refine (diffModeStep_one_per_camera example_getImgPath example_diffImgPath
            TimeTracker.initializeTimeTracker 1 0 world_peak1 world_peak1 _
            false None _ Hinv eq_refl (or_intror eq_refl) Hstep).
Defined.

End QueueRuns.


(** ** [deleteImageFiles] *)

Section CleanupFacts.

Import Deferred Cleanup.

Lemma file_exists_delete_file_b (p q : string) (fs : list string) :
  file_exists q (delete_file p fs)
  = negb (String.eqb q p) && file_exists q fs.
Proof.
  apply eq_true_iff_eq.
  rewrite file_exists_delete_file, andb_true_iff, negb_true_iff.
  rewrite String.eqb_neq. reflexivity.
Qed.

(** When [deleteImageFiles] returns, the classified image, the original
    image and the annotated image, if one was given, are gone; every
    other file, the queue and the cameras are as before. *)
Theorem deleteImageFiles_deletes (imgPath origImgPath : string)
    (annotatedFile : option string) (w w' : World) :
  deleteImageFiles imgPath origImgPath annotatedFile w = Ret (tt, w') ->
  file_exists imgPath (files w') = false
  /\ file_exists origImgPath (files w') = false
  /\ (forall p, annotatedFile = Some p -> truthy p = true ->
                file_exists p (files w') = false)
  /\ (forall q, q <> imgPath -> q <> origImgPath -> annotatedFile <> Some q ->
                file_exists q (files w') = file_exists q (files w))
  /\ deferredImages w' = deferredImages w
  /\ cameras w' = cameras w.
Proof.
  unfold deleteImageFiles, bind, os_remove, ret. intros H.
  destruct (file_exists imgPath (files w)) eqn:E1; [|discriminate].
  cbn [files cameras deferredImages events] in H.
  destruct (String.eqb_spec imgPath origImgPath) as [Heq|Hneq];
    cbn [negb files cameras deferredImages events] in H.
  - subst origImgPath.
    destruct annotatedFile as [p|].
    + destruct (truthy p) eqn:Ht.
      * cbn [files] in H.
        destruct (file_exists p (delete_file imgPath (files w))) eqn:E3;
          [|discriminate].
        inversion H; subst. clear H. cbn [files cameras deferredImages].
        rewrite file_exists_delete_file_b in E3.
        apply andb_true_iff in E3. destruct E3 as (E3 & E4).
        apply negb_true_iff, String.eqb_neq in E3.
        repeat split.
        -- rewrite !file_exists_delete_file_b, String.eqb_refl.
           apply andb_false_r.
        -- rewrite !file_exists_delete_file_b, String.eqb_refl.
           apply andb_false_r.
        -- intros p0 Hp _. inversion Hp; subst.
           apply file_exists_delete_same.
        -- intros q Hq1 _ Hq3.
           rewrite !file_exists_delete_file_b.
           assert (Hqp : q <> p) by congruence.
           apply String.eqb_neq in Hq1. apply String.eqb_neq in Hqp.
           rewrite Hq1, Hqp. reflexivity.
      * inversion H; subst. clear H. cbn [files cameras deferredImages].
        repeat split; try apply file_exists_delete_same.
        -- intros p0 Hp Ht0. inversion Hp; subst. congruence.
        -- intros q Hq1 _ _. rewrite file_exists_delete_file_b.
           apply String.eqb_neq in Hq1. rewrite Hq1. reflexivity.
    + inversion H; subst. clear H. cbn [files cameras deferredImages].
      repeat split; try apply file_exists_delete_same.
      * intros p0 Hp. discriminate.
      * intros q Hq1 _ _. rewrite file_exists_delete_file_b.
        apply String.eqb_neq in Hq1. rewrite Hq1. reflexivity.
  - destruct (file_exists origImgPath (delete_file imgPath (files w))) eqn:E2;
      [|discriminate].
    cbn [files cameras deferredImages events] in H.
    assert (Himg : forall fs, file_exists imgPath
                     (delete_file origImgPath (delete_file imgPath fs))
                   = false).
    { intros fs. rewrite !file_exists_delete_file_b, String.eqb_refl.
      simpl. apply andb_false_r. }
    destruct annotatedFile as [p|].
    + destruct (truthy p) eqn:Ht.
      * cbn [files] in H.
        destruct (file_exists p
                    (delete_file origImgPath (delete_file imgPath (files w))))
          eqn:E3; [|discriminate].
        inversion H; subst. clear H. cbn [files cameras deferredImages].
        repeat split.
        -- rewrite file_exists_delete_file_b, Himg. apply andb_false_r.
        -- rewrite !file_exists_delete_file_b, String.eqb_refl.
           simpl. apply andb_false_r.
        -- intros p0 Hp _. inversion Hp; subst.
           apply file_exists_delete_same.
        -- intros q Hq1 Hq2 Hq3.
           rewrite !file_exists_delete_file_b.
           assert (Hqp : q <> p) by congruence.
           apply String.eqb_neq in Hq1. apply String.eqb_neq in Hq2.
           apply String.eqb_neq in Hqp.
           rewrite Hq1, Hq2, Hqp. reflexivity.
      * inversion H; subst. clear H. cbn [files cameras deferredImages].
        repeat split; try apply Himg; try apply file_exists_delete_same.
        -- intros p0 Hp Ht0. inversion Hp; subst. congruence.
        -- intros q Hq1 Hq2 _. rewrite !file_exists_delete_file_b.
           apply String.eqb_neq in Hq1. apply String.eqb_neq in Hq2.
           rewrite Hq1, Hq2. reflexivity.
    + inversion H; subst. clear H. cbn [files cameras deferredImages].
      repeat split; try apply Himg; try apply file_exists_delete_same.
      * intros p0 Hp. discriminate.
      * intros q Hq1 Hq2 _. rewrite !file_exists_delete_file_b.
        apply String.eqb_neq in Hq1. apply String.eqb_neq in Hq2.
        rewrite Hq1, Hq2. reflexivity.
Qed.

(** [deleteImageFiles] raises [FileNotFoundError] when the classified
    image is not on disk, and when the annotated image bears the name of
    the classified or of the original image, which is deleted first. *)
Theorem deleteImageFiles_raises (imgPath origImgPath : string)
    (annotatedFile : option string) (w : World) :
  (file_exists imgPath (files w) = false ->
   deleteImageFiles imgPath origImgPath annotatedFile w
   = Raise FileNotFoundError)
  /\ (forall p, annotatedFile = Some p -> truthy p = true ->
                p = imgPath \/ p = origImgPath ->
                deleteImageFiles imgPath origImgPath annotatedFile w
                = Raise FileNotFoundError).
Proof.
  unfold deleteImageFiles, bind, os_remove, ret. split.
  - intros E. rewrite E. reflexivity.
  - intros p Hp Ht Hsame. subst annotatedFile.
    destruct (file_exists imgPath (files w)); [|reflexivity].
    cbn [files cameras deferredImages events].
    destruct (String.eqb_spec imgPath origImgPath) as [Heq|Hneq];
      cbn [negb files cameras deferredImages events].
    + subst origImgPath. rewrite Ht.
      cbv beta iota. cbn [files cameras deferredImages events].
      assert (p = imgPath) by tauto. subst p.
      rewrite file_exists_delete_same. reflexivity.
    + destruct (file_exists origImgPath (delete_file imgPath (files w)));
        [|reflexivity].
      cbn [files cameras deferredImages events]. rewrite Ht.
      cbv beta iota. cbn [files cameras deferredImages events].
      assert (E : file_exists p
                    (delete_file origImgPath (delete_file imgPath (files w)))
                  = false).
      { rewrite !file_exists_delete_file_b.
        destruct Hsame; subst p; rewrite String.eqb_refl; simpl;
          [apply andb_false_r|reflexivity]. }
      rewrite E. reflexivity.
Qed.

Lemma deleteImageFiles_deletes_witness :
  let w := {| cameras := []; deferredImages := []; events := [];
              files := [ "a_Diff.jpg"%string; "a.jpg"%string;
                         "a_Score.jpg"%string; "b.jpg"%string ] |} in
  exists w',
    deleteImageFiles "a_Diff.jpg" "a.jpg" (Some "a_Score.jpg"%string) w
    = Ret (tt, w')
    /\ file_exists "a_Diff.jpg" (files w') = false
    /\ file_exists "a.jpg" (files w') = false.
Proof.
  intros w. eexists.
  assert (H : deleteImageFiles "a_Diff.jpg" "a.jpg"
                (Some "a_Score.jpg"%string) w = Ret (tt, _))
    by reflexivity.
  split; [exact H|].
  destruct (deleteImageFiles_deletes _ _ _ _ _ H) as (H1 & H2 & _).
  split; assumption.
Defined.

Lemma deleteImageFiles_raises_witness :
  let w := {| cameras := []; deferredImages := []; events := [];
              files := [ "b.jpg"%string ] |} in
  file_exists "a.jpg" (files w) = false
  /\ deleteImageFiles "a.jpg" "a.jpg" None w = Raise FileNotFoundError.
Proof.
  intros w.
  assert (E : file_exists "a.jpg" (files w) = false) by reflexivity.
  split; [exact E|].
  exact (proj1 (deleteImageFiles_raises "a.jpg" "a.jpg" None w) E).
Defined.

End CleanupFacts.

(** ** [postFilter] and [recordFilterReport] on any input *)

Section ReportFacts.

Import Db Detect Selection.

(** Writing the scores of a tick before filtering it, as
    [recordFilterReport] does, does not change what [postFilter] answers:
    the rows just written are too recent for its query. *)
Theorem postFilter_ignores_rows_just_recorded (avg : list float -> float)
    (sid : Z -> Z) (db : DbManager) (camera camera' : string)
    (timestamp : Z) (recorded segments : list Segment) (minusMinutes : Z) :
  Answer.value
    (postFilter avg sid
       (recordScores sid db camera timestamp recorded minusMinutes)
       camera' timestamp segments)
  = Answer.value (postFilter avg sid db camera' timestamp segments).
Proof.
  destruct segments as [|s rest]; [reflexivity|].
  destruct (PrimFloat.ltb (score s) 0.5) eqn:E.
  - rewrite !postFilter_fast by exact E. reflexivity.
  - rewrite !postFilter_slow by exact E.
    rewrite history_recordScores. reflexivity.
Qed.

Lemma scan_segments_selected (all : list Segment)
    (dbResult : list HistRow.t) (segments : list Segment) :
  forall best : Best,
    incl segments all ->
    selected_from all dbResult best ->
    selected_from all dbResult (scan_segments segments dbResult best).
Proof.
  induction segments as [|s segments IH]; intros best Hincl Hbest; simpl;
    [exact Hbest|].
  destruct (PrimFloat.ltb (score s) 0.5) eqn:E; [exact Hbest|].
  apply IH; [intros x Hx; apply Hincl; right; exact Hx|].
  rewrite scan_rows_spec.
  destruct (PrimFloat.ltb (snd best) (score s)); [|exact Hbest].
  destruct (clearing_row s dbResult) as [row|] eqn:Hrow; [|exact Hbest].
  apply clearing_row_Some in Hrow. destruct Hrow as (H1 & H2 & H3).
  right. exists s, row. simpl. repeat split; auto.
  apply Hincl. left. reflexivity.
Qed.

Lemma postFilter_Some_inv (avg : list float -> float) (sid : Z -> Z)
    (db db' : DbManager) (camera : string) (timestamp : Z)
    (segments : list Segment) (r : Segment) :
  postFilter avg sid db camera timestamp segments = Ret (Some r, db') ->
  exists s row,
    r = with_hist s row
    /\ In s segments
    /\ In row (history avg sid db camera timestamp)
    /\ same_box row s = true
    /\ PrimFloat.ltb (score s) 0.5 = false
    /\ PrimFloat.ltb (threshold_of (HistRow.maxs row)) (score s) = true
    /\ scores db' = scores db /\ detections db' = detections db
    /\ alerts db' = alerts db.
Proof.
  intros H. destruct segments as [|s0 rest]; [discriminate|].
  destruct (PrimFloat.ltb (score s0) 0.5) eqn:E.
  - rewrite postFilter_fast in H by exact E. discriminate.
  - rewrite postFilter_slow in H by exact E.
    pose proof (scan_segments_selected (s0 :: rest)
                  (history avg sid db camera timestamp) (s0 :: rest)
                  (None, 0%float) (incl_refl _) (or_introl eq_refl)) as Hsel.
    remember (scan_segments (s0 :: rest)
                (history avg sid db camera timestamp)
                (None, 0%float)) as best eqn:Hbest.
    injection H as Hr Hdb. subst db'.
    destruct Hsel as [Hnone|(s & row & Hs & H1 & H2 & H3 & H4 & H5)].
    + rewrite Hnone in Hr. discriminate.
    + rewrite Hs in Hr. inversion Hr; subst r. clear Hr.
      exists s, row. simpl. repeat split; auto.
Qed.

End ReportFacts.

Section ReportSpec.

Import Db Detect Selection.

(** Whatever the order of the list, a segment [postFilter] returns is a
    segment of the list that is not below 0.5 and scores above
    [max((HistMax+1)/2, HistMax+0.2)] for the [HistMax] it carries; it has
    the box and the score of that segment, and its [HistMax] is a score
    recorded for the camera and the box in the window of the query, which
    no such recorded score exceeds. *)
Theorem postFilter_returns_segment_of_list (avg : list float -> float)
    (sid : Z -> Z) (db db' : DbManager) (camera : string) (timestamp : Z)
    (segments : list Segment) (r : Segment) :
  postFilter avg sid db camera timestamp segments = Ret (Some r, db') ->
  exists s h,
    In s segments
    /\ MinX r = MinX s /\ MinY r = MinY s
    /\ MaxX r = MaxX s /\ MaxY r = MaxY s
    /\ score r = score s
    /\ hist r = Some h
    /\ PrimFloat.ltb (score s) 0.5 = false
    /\ PrimFloat.ltb (HistoryFilter.threshold (HistMax h)) (score s) = true
    /\ (exists t, In t (scores db)
                  /\ in_history_window camera
                       (timestamp - 60 * 60 * 84) (timestamp - 60 * 60 * 12)
                       (sid timestamp - 60 * 60) (sid timestamp + 60 * 60) t
                     = true
                  /\ row_box t = segment_box s
                  /\ ScoreRow.Score t = HistMax h)
    /\ (forall t, In t (scores db) ->
                  in_history_window camera
                    (timestamp - 60 * 60 * 84) (timestamp - 60 * 60 * 12)
                    (sid timestamp - 60 * 60) (sid timestamp + 60 * 60) t
                  = true ->
                  row_box t = segment_box s ->
                  PrimFloat.ltb (HistMax h) (ScoreRow.Score t) = false).
Proof.
  intros H.
  destruct (postFilter_Some_inv _ _ _ _ _ _ _ _ H)
    as (s & row & Hr & Hs & Hrow & Hbox & Hhalf & Hthr & _).
  subst r. exists s. eexists.
  split; [exact Hs|]. do 5 (split; [reflexivity|]).
  split; [reflexivity|]. split; [exact Hhalf|]. simpl.
  split; [rewrite <- threshold_of_is_max; exact Hthr|].
  apply same_box_iff in Hbox. rewrite <- Hbox.
  unfold history in Hrow.
  exact (select_score_history_max _ _ _ _ _ _ _ _ Hrow).
Qed.

Lemma postFilter_returns_segment_of_list_witness :
  exists db',
    postFilter example_avg utc_secondsInDay db_peak1_B "peak1" 1600000000
               [segment_A 0.6; segment_B 0.99]
    = Ret (Some {| MinX := 300; MinY := 0; MaxX := 599; MaxY := 299;
                   score := 0.99;
                   hist := Some {| HistAvg := 0.675; HistMax := 0.75;
                                   HistNumSamples := 2 |} |},
           db')
    /\ exists s, In s [segment_A 0.6; segment_B 0.99]
                 /\ PrimFloat.ltb (score s) 0.5 = false.
Proof.
  eexists.
  assert (H : postFilter example_avg utc_secondsInDay db_peak1_B "peak1"
                1600000000 [segment_A 0.6; segment_B 0.99]
              = Ret (Some {| MinX := 300; MinY := 0; MaxX := 599;
                             MaxY := 299; score := 0.99;
                             hist := Some {| HistAvg := 0.675;
                                             HistMax := 0.75;
                                             HistNumSamples := 2 |} |}, _))
    by reflexivity.
  split; [exact H|].
  destruct (postFilter_returns_segment_of_list _ _ _ _ _ _ _ _ H)
    as (s & h & Hs & _ & _ & _ & _ & _ & _ & Hhalf & _).
  exists s. split; assumption.
Defined.

Lemma postFilter_total (avg : list float -> float) (sid : Z -> Z)
    (db : DbManager) (camera : string) (timestamp : Z)
    (segments : list Segment) :
  segments <> [] ->
  exists x db',
    postFilter avg sid db camera timestamp segments = Ret (x, db')
    /\ scores db' = scores db /\ detections db' = detections db
    /\ alerts db' = alerts db.
Proof.
  intros Hne. destruct segments as [|s rest]; [congruence|].
  destruct (PrimFloat.ltb (score s) 0.5) eqn:E.
  - rewrite postFilter_fast by exact E. eexists. eexists. auto.
  - rewrite postFilter_slow by exact E. eexists. eexists.
    split; [reflexivity|]. simpl. auto.
Qed.

Lemma recent_alert_same_ledger (db1 db2 : DbManager) (camera : string)
    (tsLow : Z) :
  alerts db1 = alerts db2 ->
  recent_alert db1 camera tsLow <-> recent_alert db2 camera tsLow.
Proof. unfold recent_alert. intros E. rewrite E. reflexivity. Qed.

(** A tick on a non-empty segment list never raises in the database part
    of [recordFilterReport].  It writes one score row per segment; then
    either nothing more, with no alert, or one detection row for a segment
    of the list, and with it either one alert row and the call of
    [alertFire], or, when the camera has an alert in the last two hours,
    no alert row and no call.  With [positivesOnly] set it writes
    nothing. *)
Theorem recordFilterReport_writes (avg : list float -> float)
    (sid : Z -> Z) (db : DbManager)
    (cameraID : string) (timestamp : Z) (segments : list Segment)
    (minusMinutes : Z) (driveFileIDs : list string) :
  segments <> [] ->
  recordFilterReport avg sid db cameraID timestamp segments minusMinutes
                     true driveFileIDs
  = Ret (false, db)
  /\ exists alerted db',
       recordFilterReport avg sid db cameraID timestamp segments minusMinutes
                          false driveFileIDs
       = Ret (alerted, db')
       /\ scores db'
          = scores (recordScores sid db cameraID timestamp segments
                                 minusMinutes)
       /\ List.length (scores db')
          = (List.length (scores db) + List.length segments)%nat
       /\ ((alerted = false /\ detections db' = detections db
            /\ alerts db' = alerts db)
           \/ exists s d,
                In s segments
                /\ detections db' = detections db ++ [d]
                /\ DetectionRow.CameraName d = cameraID
                /\ DetectionRow.Timestamp d = timestamp
                /\ DetectionRow.Score d = score s
                /\ DetectionRow.ImageID d = first_id driveFileIDs
                /\ ((alerted = true
                     /\ ~ recent_alert db cameraID (timestamp - 7200)
                     /\ alerts db'
                        = alerts db
                          ++ [ {| AlertRow.CameraName := cameraID;
                                  AlertRow.Timestamp := timestamp;
                                  AlertRow.ImageID := first_id driveFileIDs |} ])
                    \/ (alerted = false
                        /\ recent_alert db cameraID (timestamp - 7200)
                        /\ alerts db' = alerts db))).
Proof.
  intros Hne. split.
  { unfold recordFilterReport. simpl.
    destruct segments; [congruence|reflexivity]. }
  unfold recordFilterReport. cbn [negb].
  set (db1 := recordScores sid db cameraID timestamp segments minusMinutes).
  assert (Hlen : List.length (scores db1)
                 = (List.length (scores db) + List.length segments)%nat).
  { unfold db1, recordScores, add_scores. simpl.
    rewrite length_app, length_map. reflexivity. }
  destruct (postFilter_total avg sid db1 cameraID timestamp segments Hne)
    as (x & db2 & Hpf & Hs2 & Hd2 & Ha2).
  rewrite Hpf.
  assert (Hlast : forall r : bool * DbManager,
             match segments with
             | [] => Raise IndexError
             | _ :: _ => Ret r
             end = Ret r).
  { intros r. destruct segments; [congruence|reflexivity]. }
  destruct x as [fireSegment|].
  - destruct (postFilter_Some_inv _ _ _ _ _ _ _ _ Hpf)
      as (s & row & Hr & Hs & _).
    subst fireSegment. unfold recordDetection. cbn [hist with_hist].
    match goal with
    | |- context [checkAndUpdateAlerts ?d cameraID timestamp driveFileIDs] =>
        set (db3 := d)
    end.
    assert (Ha3 : alerts db3 = alerts db) by exact Ha2.
    destruct (recent_alert_dec db3 cameraID (timestamp - 7200)) as [Hrec|Hnone].
    + rewrite (checkAndUpdateAlerts_suppressed db3) by exact Hrec.
      rewrite Hlast. eexists. eexists. split; [reflexivity|].
      cbn [scores detections alerts log_query add_alert add_detection db3].
      split; [exact Hs2|]. split; [rewrite Hs2; exact Hlen|].
      right. exists s. eexists.
      split; [exact Hs|]. split; [rewrite Hd2; reflexivity|].
      cbn. repeat split.
      right. repeat split; [|exact Ha2].
      apply (recent_alert_same_ledger db3 db); assumption.
    + rewrite (checkAndUpdateAlerts_recorded db3) by exact Hnone.
      rewrite Hlast. eexists. eexists. split; [reflexivity|].
      cbn [scores detections alerts log_query add_alert add_detection db3].
      split; [exact Hs2|]. split; [rewrite Hs2; exact Hlen|].
      right. exists s. eexists.
      split; [exact Hs|]. split; [rewrite Hd2; reflexivity|].
      cbn. repeat split.
      left. repeat split; [|rewrite Ha2; reflexivity].
      intros Hrec. apply Hnone.
      apply (recent_alert_same_ledger db3 db); assumption.
  - rewrite Hlast. exists false, db2. split; [reflexivity|].
    split; [exact Hs2|]. split; [rewrite Hs2; exact Hlen|].
    left. auto.
Qed.

Lemma recordFilterReport_writes_witness :
  [segment_A 0.6; segment_B 0.99] <> []
  /\ exists alerted db',
       recordFilterReport example_avg utc_secondsInDay db_peak1_B "peak1" 1600000000
         [segment_A 0.6; segment_B 0.99] 0 false []
       = Ret (alerted, db')
       /\ List.length (scores db') = 4%nat.
Proof.
  assert (Hne : [segment_A 0.6; segment_B 0.99] <> []) by discriminate.
  split; [exact Hne|].
  destruct (recordFilterReport_writes example_avg utc_secondsInDay db_peak1_B "peak1"
              1600000000 [segment_A 0.6; segment_B 0.99] 0 [] Hne)
    as (_ & alerted & db' & Hrun & _ & Hlen & _).
  exists alerted, db'. split; [exact Hrun|exact Hlen].
Defined.

End ReportSpec.

(** ** The cool-down of alerts *)

Section AlertWindow.

Import Db Detect.

(** After an alert recorded for a camera at [timestamp], every further
    call for that camera with a timestamp below [timestamp + 7200], the
    same timestamp and earlier ones included, is suppressed and leaves the
    ledger as it is; a call at [timestamp + 7200] exactly is recorded. *)
Theorem checkAndUpdateAlerts_window (db : DbManager) (camera : string)
    (timestamp timestamp' : Z) (ids ids' : list string) :
  fst (checkAndUpdateAlerts db camera timestamp ids) = true ->
  let db1 := snd (checkAndUpdateAlerts db camera timestamp ids) in
  (timestamp' < timestamp + 7200 ->
   fst (checkAndUpdateAlerts db1 camera timestamp' ids') = false
   /\ alerts (snd (checkAndUpdateAlerts db1 camera timestamp' ids'))
      = alerts db1)
  /\ fst (checkAndUpdateAlerts db1 camera (timestamp + 7200) ids') = true.
Proof.
  intros Hfirst db1.
  destruct (recent_alert_dec db camera (timestamp - 7200)) as [Hrec|Hnone].
  { rewrite checkAndUpdateAlerts_suppressed in Hfirst by exact Hrec.
    discriminate. }
  assert (Hledger : alerts db1
                    = alerts db
                      ++ [ {| AlertRow.CameraName := camera;
                              AlertRow.Timestamp := timestamp;
                              AlertRow.ImageID := first_id ids |} ]).
  { unfold db1. rewrite checkAndUpdateAlerts_recorded by exact Hnone.
    reflexivity. }
  split.
  - intros Hlt.
    assert (Hrec : recent_alert db1 camera (timestamp' - 7200)).
    { eexists. split; [rewrite Hledger; apply in_or_app; right; left;
                       reflexivity|].
      simpl. split; [reflexivity|lia]. }
    rewrite checkAndUpdateAlerts_suppressed by exact Hrec. simpl. auto.
  - assert (Hnone' : ~ recent_alert db1 camera (timestamp + 7200 - 7200)).
    { intros (r & Hin & Hc & Ht). rewrite Hledger in Hin.
      apply in_app_or in Hin. destruct Hin as [Hin|[Heq|[]]].
      - apply Hnone. exists r. repeat split; auto. lia.
      - subst r. simpl in Ht. lia. }
    rewrite checkAndUpdateAlerts_recorded by exact Hnone'. reflexivity.
Qed.

Lemma checkAndUpdateAlerts_window_witness :
  fst (checkAndUpdateAlerts Db.empty "peak1" 1600000000 []) = true
  /\ fst (checkAndUpdateAlerts
            (snd (checkAndUpdateAlerts Db.empty "peak1" 1600000000 []))
            "peak1" 1600000000 []) = false.
Proof.
  assert (H : fst (checkAndUpdateAlerts Db.empty "peak1" 1600000000 [])
              = true) by reflexivity.
  split; [exact H|].
  destruct (checkAndUpdateAlerts_window Db.empty "peak1" 1600000000
              1600000000 [] [] H) as (Hsup & _).
  apply Hsup. lia.
Defined.

(** Alerts of other cameras play no part: an alert recorded for one
    camera changes neither the answer nor the row written for another
    camera. *)
Theorem checkAndUpdateAlerts_other_camera (db : DbManager)
    (camera other : string) (timestamp timestamp' : Z)
    (ids ids' : list string) :
  camera <> other ->
  let db1 := snd (checkAndUpdateAlerts db other timestamp' ids') in
  fst (checkAndUpdateAlerts db1 camera timestamp ids)
  = fst (checkAndUpdateAlerts db camera timestamp ids).
Proof.
  intros Hneq db1.
  assert (Hsame : recent_alert db1 camera (timestamp - 7200)
                  <-> recent_alert db camera (timestamp - 7200)).
  { unfold db1.
    destruct (recent_alert_dec db other (timestamp' - 7200)) as [Ho|Ho].
    - rewrite checkAndUpdateAlerts_suppressed by exact Ho.
      apply recent_alert_same_ledger. reflexivity.
    - rewrite checkAndUpdateAlerts_recorded by exact Ho.
      unfold recent_alert. simpl. split.
      + intros (r & Hin & Hc & Ht). apply in_app_or in Hin.
        destruct Hin as [Hin|[Heq|[]]].
        * exists r. auto.
        * subst r. simpl in Hc. congruence.
      + intros (r & Hin & Hc & Ht). exists r.
        split; [apply in_or_app; left; exact Hin|auto]. }
  destruct (recent_alert_dec db camera (timestamp - 7200)) as [Hrec|Hnone].
  - rewrite (checkAndUpdateAlerts_suppressed db) by exact Hrec.
    rewrite (checkAndUpdateAlerts_suppressed db1) by (apply Hsame; exact Hrec).
    reflexivity.
  - rewrite (checkAndUpdateAlerts_recorded db) by exact Hnone.
    rewrite (checkAndUpdateAlerts_recorded db1)
      by (intros H; apply Hnone, Hsame; exact H).
    reflexivity.
Qed.

Lemma checkAndUpdateAlerts_other_camera_witness :
  "peak1"%string <> "peak2"%string
  /\ fst (checkAndUpdateAlerts
            (snd (checkAndUpdateAlerts Db.empty "peak2" 1600000000 []))
            "peak1" 1600000001 []) = true.
Proof.
  assert (Hneq : "peak1"%string <> "peak2"%string) by discriminate.
  split; [exact Hneq|].
  rewrite (checkAndUpdateAlerts_other_camera Db.empty "peak1" "peak2"
             1600000001 1600000000 [] [] Hneq).
  reflexivity.
Defined.

End AlertWindow.

(** ** [classify] *)

Section ClassifyFacts.

Import Detect Classify HistoryFilter.

(** The order of the keys is the reverse of the order of the scores. *)
Lemma key_lt (s x : Segment) :
  PrimFloat.ltb (key x) (key s) = PrimFloat.ltb (score s) (score x).
Proof. unfold key. apply fltb_opp. Qed.

Lemma insert_by_key_perm (s : Segment) (l : list Segment) :
  Permutation (insert_by_key s l) (s :: l).
Proof.
  induction l as [|x l IH]; simpl; [reflexivity|].
  destruct (PrimFloat.ltb (key x) (key s)); [|reflexivity].
  rewrite IH. apply perm_swap.
Qed.

Lemma insert_by_key_sorted (s : Segment) (l : list Segment) :
  Forall (fun x => PrimFloat.is_nan (score x) = false) l ->
  sorted_desc l -> sorted_desc (insert_by_key s l).
Proof.
  unfold sorted_desc. intros Hnan Hl.
  induction Hl as [|x l Hl IH Hx]; simpl.
  - repeat constructor.
  - inversion Hnan as [|? ? Hxnan Hlnan]; subst.
    rewrite key_lt.
    destruct (PrimFloat.ltb (score s) (score x)) eqn:E.
    + constructor; [exact (IH Hlnan)|].
      rewrite Forall_forall in *. intros y Hy.
      apply (Permutation_in _ (insert_by_key_perm s l)) in Hy.
      destruct Hy as [Hy|Hy]; [subst y; apply fltb_asym; exact E|auto].
    + constructor; [constructor; assumption|].
      constructor; [exact E|].
      rewrite Forall_forall in *. intros y Hy.
      apply (fltb_negtrans (score s) (score x) (score y));
        [exact Hxnan|exact E|auto].
Qed.

Lemma sort_by_key_perm (l : list Segment) : Permutation (sort_by_key l) l.
Proof.
  induction l as [|s l IH]; simpl; [reflexivity|].
  rewrite insert_by_key_perm. constructor. exact IH.
Qed.

Lemma sort_by_key_sorted (l : list Segment) :
  Forall (fun x => PrimFloat.is_nan (score x) = false) l ->
  sorted_desc (sort_by_key l).
Proof.
  induction 1 as [|s l Hs Hl IH]; simpl; [constructor|].
  apply insert_by_key_sorted; [|exact IH].
  rewrite Forall_forall in *. intros x Hx. apply Hl.
  exact (Permutation_in _ (sort_by_key_perm l) Hx).
Qed.

Lemma assign_scores_Ret (segs : list Segment) (preds : list (list float)) :
  forall (idx : nat) (scored : list Segment),
    assign_scores segs preds idx = Ret scored ->
    map segment_box scored = map segment_box segs
    /\ map hist scored = map hist segs
    /\ forall i s, nth_error scored i = Some s ->
                   prediction_at preds (idx + i) = Ret (score s).
Proof.
  induction segs as [|seg segs IH]; intros idx scored H; simpl in H.
  - inversion H; subst. repeat split. intros [|i] s Hs; discriminate.
  - destruct (prediction_at preds idx) as [p|e|] eqn:Hp; try discriminate.
    destruct (assign_scores segs preds (S idx)) as [rest|e|] eqn:Hrest;
      try discriminate.
    inversion H; subst. clear H.
    destruct (IH _ _ Hrest) as (Hb & Hh & Hs).
    simpl. rewrite Hb, Hh. repeat split.
    intros [|i] s Hi; simpl in Hi.
    + inversion Hi; subst. simpl. rewrite Nat.add_0_r. exact Hp.
    + rewrite Nat.add_succ_r. exact (Hs i s Hi).
Qed.

Lemma prediction_at_Ret (preds : list (list float)) (idx : nat) (p : float) :
  prediction_at preds idx = Ret p ->
  (idx < List.length preds)%nat
  /\ exists row, nth_error preds idx = Some row /\ nth_error row 1 = Some p.
Proof.
  unfold prediction_at. intros H.
  destruct (nth_error preds idx) as [row|] eqn:E; [|discriminate].
  destruct (nth_error row 1) as [q|] eqn:E1; [|discriminate].
  inversion H; subst. split.
  - apply nth_error_Some. congruence.
  - exists row. auto.
Qed.

Lemma assign_scores_short (segs : list Segment) (preds : list (list float)) :
  forall idx : nat,
    (idx <= List.length preds)%nat ->
    (List.length preds < idx + List.length segs)%nat ->
    assign_scores segs preds idx = Raise IndexError.
Proof.
  induction segs as [|seg segs IH]; intros idx Hidx Hshort; simpl in *.
  - lia.
  - destruct (prediction_at preds idx) as [p|e|] eqn:Hp.
    + apply prediction_at_Ret in Hp. destruct Hp as (Hlt & _).
      rewrite IH by lia. reflexivity.
    + unfold prediction_at in Hp.
      destruct (nth_error preds idx) as [row|]; [|congruence].
      destruct (nth_error row 1); congruence.
    + unfold prediction_at in Hp.
      destruct (nth_error preds idx) as [row|]; [|discriminate].
      destruct (nth_error row 1); discriminate.
Qed.

(** When [classify] returns, its list holds the same boxes as the list it
    was given, each once more, and each segment carries the entry of
    column 1 of a row of the predictions; when no such entry is a NaN the
    list is sorted by decreasing score, as [postFilter] expects. *)
Theorem classify_sorted (segment_infos : list Segment)
    (predictions : list (list float)) (out : list Segment) :
  classify segment_infos predictions = Ret out ->
  ((forall row p, In row predictions -> nth_error row 1 = Some p ->
                  PrimFloat.is_nan p = false) ->
   sorted_desc out)
  /\ List.length out = List.length segment_infos
  /\ Permutation (map segment_box out) (map segment_box segment_infos)
  /\ forall s, In s out ->
               exists row, In row predictions
                           /\ nth_error row 1 = Some (score s).
Proof.
  unfold classify. intros H.
  destruct (assign_scores segment_infos predictions 0) as [scored|e|] eqn:E;
    try discriminate.
  inversion H; subst. clear H.
  destruct (assign_scores_Ret _ _ _ _ E) as (Hb & _ & Hs).
  pose proof (sort_by_key_perm scored) as Hperm.
  assert (Hfrom : forall s, In s scored ->
            exists row, In row predictions
                        /\ nth_error row 1 = Some (score s)).
  { intros s Hin. apply In_nth_error in Hin. destruct Hin as (i & Hi).
    specialize (Hs i s Hi). apply prediction_at_Ret in Hs.
    destruct Hs as (_ & row & Hrow & Hp).
    exists row. split; [eapply nth_error_In; exact Hrow|exact Hp]. }
  split.
  { intros Hnan. apply sort_by_key_sorted. apply Forall_forall.
    intros s Hin. destruct (Hfrom s Hin) as (row & Hrow & Hp).
    exact (Hnan row (score s) Hrow Hp). }
  split.
  { rewrite (Permutation_length Hperm).
    rewrite <- (length_map segment_box scored), Hb. apply length_map. }
  split.
  { rewrite <- Hb. apply Permutation_map. exact Hperm. }
  intros s Hin. apply Hfrom. exact (Permutation_in _ Hperm Hin).
Qed.

Lemma classify_sorted_witness :
  classify [segment_A 0; segment_B 0] [[0.7; 0.3]; [0.1; 0.9]]%float
  = Ret [segment_B 0.9; segment_A 0.3]
  /\ (forall row p, In row [[0.7; 0.3]; [0.1; 0.9]]%float ->
                    nth_error row 1 = Some p ->
                    PrimFloat.is_nan p = false)
  /\ sorted_desc [segment_B 0.9; segment_A 0.3].
Proof.
  assert (H : classify [segment_A 0; segment_B 0]
                       [[0.7; 0.3]; [0.1; 0.9]]%float
              = Ret [segment_B 0.9; segment_A 0.3]) by reflexivity.
  assert (Hnan : forall row p, In row [[0.7; 0.3]; [0.1; 0.9]]%float ->
                               nth_error row 1 = Some p ->
                               PrimFloat.is_nan p = false).
  { intros row p [Hr|[Hr|[]]] Hp; subst row; inversion Hp; reflexivity. }
  split; [exact H|]. split; [exact Hnan|].
  exact (proj1 (classify_sorted _ _ _ H) Hnan).
Defined.

(** With fewer rows of predictions than segments [classify] raises
    [IndexError]. *)
Theorem classify_too_few_predictions (segment_infos : list Segment)
    (predictions : list (list float)) :
  (List.length predictions < List.length segment_infos)%nat ->
  classify segment_infos predictions = Raise IndexError.
Proof.
  intros H. unfold classify.
  rewrite assign_scores_short; [reflexivity|lia|simpl; exact H].
Qed.

Lemma classify_too_few_predictions_witness :
  (List.length [[0.7; 0.3]]%float
   < List.length [segment_A 0; segment_B 0])%nat
  /\ classify [segment_A 0; segment_B 0] [[0.7; 0.3]]%float
     = Raise IndexError.
Proof.
  assert (H : (List.length [[0.7; 0.3]]%float
               < List.length [segment_A 0; segment_B 0])%nat)
    by (simpl; lia).
  split; [exact H|].
  exact (classify_too_few_predictions _ _ H).
Defined.

End ClassifyFacts.

(** ** Integers as floats *)

Section IntegerFloats.

Lemma iter_xO_pos (m : positive) (k : positive) :
  Z.pos (Pos.iter xO m k) = Z.pos m * 2 ^ Z.pos k.
Proof.
  rewrite <- Pos2Z.inj_pow, <- Pos2Z.inj_mul. f_equal.
  revert m. induction k using Pos.peano_ind; intros m.
  - simpl. rewrite Pos.pow_1_r. lia.
  - rewrite Pos.iter_succ, IHk, Pos.pow_succ_r. lia.
Qed.

Lemma digits2_iter_xO (m : positive) (k : positive) :
  digits2_pos (Pos.iter xO m k) = (digits2_pos m + k)%positive.
Proof.
  induction k using Pos.peano_ind.
  - simpl. lia.
  - rewrite Pos.iter_succ. simpl. rewrite IHk. lia.
Qed.

(** The number of binary digits of a positive integer. *)
Lemma digits2_pos_bound (m : positive) :
  2 ^ (Z.pos (digits2_pos m) - 1) <= Z.pos m < 2 ^ Z.pos (digits2_pos m).
Proof.
  induction m as [m IH|m IH|]; simpl digits2_pos.
  - rewrite Pos2Z.inj_succ.
    replace (Z.succ (Z.pos (digits2_pos m)) - 1)
      with (Z.succ (Z.pos (digits2_pos m) - 1)) by lia.
    rewrite !Z.pow_succ_r by lia. lia.
  - rewrite Pos2Z.inj_succ.
    replace (Z.succ (Z.pos (digits2_pos m)) - 1)
      with (Z.succ (Z.pos (digits2_pos m) - 1)) by lia.
    rewrite !Z.pow_succ_r by lia. lia.
  - simpl. lia.
Qed.

Lemma digits2_pos_le (m : positive) (n : Z) :
  0 <= n -> Z.pos m < 2 ^ n -> Z.pos (digits2_pos m) <= n.
Proof.
  intros Hn Hm. destruct (digits2_pos_bound m) as (Hlo & _).
  destruct (Z_le_gt_dec (Z.pos (digits2_pos m)) n) as [H|H]; [exact H|].
  exfalso.
  assert (2 ^ n <= 2 ^ (Z.pos (digits2_pos m) - 1))
    by (apply Z.pow_le_mono_r; lia).
  lia.
Qed.

Lemma fexp_canonical (e : Z) :
  -1074 <= e -> fexp prec emax (53 + e) = e.
Proof. intros H. unfold fexp, emin, prec, emax. lia. Qed.

(** A mantissa of 53 digits is kept as it is. *)
Lemma binary_round_aux_canonical (s : bool) (mz : positive) (ez : Z) :
  Z.pos (digits2_pos mz) = 53 -> -1074 <= ez <= 971 ->
  binary_round_aux prec emax s (Z.pos mz) ez loc_Exact = S754_finite s mz ez
  /\ valid_binary (S754_finite s mz ez) = true.
Proof.
  intros Hdig He. split.
  - unfold binary_round_aux, shr_fexp.
    cbn [Zdigits2 shr_record_of_loc]. rewrite Hdig, fexp_canonical by lia.
    rewrite Z.sub_diag. cbn [shr shr_m loc_of_shr_record round_nearest_even].
    cbn [Zdigits2 shr_record_of_loc]. rewrite Hdig, fexp_canonical by lia.
    rewrite Z.sub_diag. cbn [shr shr_m].
    unfold prec, emax.
    destruct (Z.leb_spec ez (1024 - 53)); [reflexivity|lia].
  - unfold valid_binary, SpecFloat.valid_binary, bounded, canonical_mantissa.
    rewrite Hdig, fexp_canonical by lia.
    rewrite andb_true_iff, Z.eqb_eq, Z.leb_le. unfold prec, emax. lia.
Qed.

(** An integer below [2^53] times a power of two is a float: its
    normalisation shifts the mantissa to 53 digits and loses nothing. *)
Lemma binary_round_small (s : bool) (m : positive) (e : Z) :
  Z.pos m < 2 ^ 53 -> -1000 <= e <= 900 ->
  exists (mz : positive) (k : Z),
    0 <= k /\ Z.pos mz = Z.pos m * 2 ^ k
    /\ binary_round prec emax s m e = S754_finite s mz (e - k)
    /\ valid_binary (S754_finite s mz (e - k)) = true.
Proof.
  intros Hm He.
  assert (H53 : 0 <= 53) by lia.
  pose proof (digits2_pos_le m 53 H53 Hm) as Hd.
  pose proof (Pos2Z.is_pos (digits2_pos m)) as Hd0.
  unfold binary_round.
  assert (Hfexp : fexp prec emax (Z.pos (digits2_pos m) + e)
                  = Z.pos (digits2_pos m) + e - 53).
  { unfold fexp, emin, prec, emax. lia. }
  rewrite Hfexp. unfold shl_align.
  destruct (Z.pos (digits2_pos m) + e - 53 - e) as [|p|p] eqn:Hsub.
  - exists m, 0. split; [lia|]. split; [lia|].
    rewrite Z.sub_0_r.
    apply binary_round_aux_canonical; lia.
  - lia.
  - set (mz := Pos.iter xO m p).
    assert (Hdig : Z.pos (digits2_pos mz) = 53).
    { unfold mz. rewrite digits2_iter_xO. lia. }
    assert (Hez : Z.pos (digits2_pos m) + e - 53 = e - Z.pos p) by lia.
    rewrite Hez.
    exists mz, (Z.pos p). split; [lia|]. split; [apply iter_xO_pos|].
    apply binary_round_aux_canonical; lia.
Qed.

(** [int(a/2)] is the integer half of [a] for [a] from 0 to [2^53]. *)
Lemma int_of_half_exact (a : Z) :
  0 <= a < 2 ^ 53 -> Recrop.int_of_half a = Ret (a / 2).
Proof.
  intros Ha. unfold Recrop.int_of_half, int_half.
  destruct a as [|m|m]; [| |lia].
  - reflexivity.
  - assert (Hm : Z.pos m < 2 ^ 53) by lia.
    cbn [binary_normalize].
    assert (He : -1000 <= -1 <= 900) by lia.
    destruct (binary_round_small false m (-1) Hm He)
      as (mz & k & Hk & Hmz & Hround & Hvalid).
    rewrite Hround. cbn [and_then].
    unfold int_of_float. rewrite Prim2SF_SF2Prim by exact Hvalid.
    destruct (-1 - k) as [|p|p] eqn:E; try lia.
    f_equal. rewrite Hmz.
    replace (Z.pos p) with (k + 1) by lia.
    rewrite Z.pow_add_r by lia. change (2 ^ 1) with 2.
    rewrite <- Z.div_div by (try lia; apply Z.pow_pos_nonneg; lia).
    rewrite Z.div_mul by (apply Z.pow_nonzero; lia). reflexivity.
Qed.

End IntegerFloats.

(** ** [expandRange] *)

Section RecropFacts.

Import Recrop.

Lemma imax_is_Zmax (a b : Z) : imax a b = Z.max a b.
Proof. unfold imax. destruct (Z.ltb_spec a b); lia. Qed.

Lemma imin_is_Zmin (a b : Z) : imin a b = Z.min a b.
Proof. unfold imin. destruct (Z.ltb_spec b a); lia. Qed.

(** The function in terms of [Z.max], [Z.min] and integer halves, for a
    range that meets the limits, when the clipped range and the wanted
    size are below [2^53]: the two halves are then exact. *)
Lemma expandRange_exact (val0 val1 minimumDiff : Z) (growRatio : float)
    (minLimit maxLimit size : Z) :
  let v0 := Z.max val0 minLimit in
  let v1 := Z.min val1 maxLimit in
  let center := v0 + (v1 - v0) / 2 in
  0 <= v1 - v0 < 2 ^ 53 ->
  wanted_size val0 val1 minimumDiff growRatio minLimit maxLimit = Ret size ->
  size < 2 ^ 53 ->
  expandRange val0 val1 minimumDiff growRatio minLimit maxLimit
  = Ret (if v1 - v0 <? size then
           if center - size / 2 <? minLimit then
             (minLimit, Z.min (minLimit + size) maxLimit)
           else if maxLimit <? center + size / 2 then
             (Z.max (maxLimit - size) minLimit, maxLimit)
           else
             (center - size / 2,
              Z.min (center - size / 2 + size) maxLimit)
         else (v0, v1)).
Proof.
  intros v0 v1 center Hd Hsize Hbound.
  unfold expandRange, wanted_size in *. cbv zeta.
  rewrite !imax_is_Zmax, !imin_is_Zmin in *.
  fold v0 v1 in Hsize |- *.
  rewrite (int_of_half_exact (v1 - v0)) by exact Hd. cbn [and_then].
  destruct (int_of_product (v1 - v0) growRatio) as [grown|e|];
    try discriminate.
  cbn [and_then] in *. inversion Hsize as [Hs]. clear Hsize.
  rewrite imax_is_Zmax in *. rewrite Hs.
  fold center.
  destruct (Z.ltb_spec (v1 - v0) size) as [Hgrow|Hkeep]; [|reflexivity].
  rewrite (int_of_half_exact size) by lia. cbn [and_then].
  rewrite !imin_is_Zmin, !imax_is_Zmax.
  destruct (center - size / 2 <? minLimit); [reflexivity|].
  destruct (maxLimit <? center + size / 2); reflexivity.
Qed.

(** A range [expandRange] returns starts at [minLimit] or after it and
    ends at [maxLimit] or before it.  The start can lie beyond
    [maxLimit], and the end before the start, when the range given lies
    beyond the limits, as for [expandRange(300, 400, -500, 1.2, 0, 200)],
    which returns [(300, 200)]. *)
Theorem expandRange_within_limits (val0 val1 minimumDiff : Z)
    (growRatio : float) (minLimit maxLimit start stop : Z) :
  expandRange val0 val1 minimumDiff growRatio minLimit maxLimit
  = Ret (start, stop) ->
  minLimit <= start /\ stop <= maxLimit.
Proof.
  unfold expandRange. cbv zeta.
  rewrite !imax_is_Zmax, !imin_is_Zmin.
  destruct (int_of_half (Z.min val1 maxLimit - Z.max val0 minLimit))
    as [halfDiff|e|]; try discriminate.
  cbn [and_then].
  destruct (int_of_product (Z.min val1 maxLimit - Z.max val0 minLimit)
              growRatio) as [grown|e|]; try discriminate.
  cbn [and_then]. rewrite imax_is_Zmax.
  destruct (Z.ltb_spec (Z.min val1 maxLimit - Z.max val0 minLimit)
              (Z.max minimumDiff grown)).
  - destruct (int_of_half (Z.max minimumDiff grown)) as [half|e|];
      try discriminate.
    cbn [and_then]. rewrite !imin_is_Zmin, !imax_is_Zmax.
    repeat match goal with
           | |- context [if ?a <? ?b then _ else _] =>
               destruct (Z.ltb_spec a b)
           end; intros E; inversion E; subst; lia.
  - intros E; inversion E; subst; lia.
Qed.

Lemma expandRange_within_limits_witness :
  expandRange 300 400 (-500) 1.2 0 200 = Ret (300, 200)
  /\ expandRange 100 200 10 1.16 0 207 = Ret (93, 207)
  /\ 0 <= 93 /\ 207 <= 207.
Proof.
  split; [reflexivity|].
  assert (H : expandRange 100 200 10 1.16 0 207 = Ret (93, 207))
    by reflexivity.
  split; [exact H|].
  exact (expandRange_within_limits 100 200 10 1.16 0 207 93 207 H).
Defined.

(** For a range that meets the limits, with the clipped range and the
    wanted size below [2^53], [expandRange] returns a range that contains
    the given range cut to the limits: growing never loses a part of the
    box. *)
Theorem expandRange_contains_input (val0 val1 minimumDiff : Z)
    (growRatio : float) (minLimit maxLimit size : Z) :
  Z.max val0 minLimit <= Z.min val1 maxLimit ->
  Z.min val1 maxLimit - Z.max val0 minLimit < 2 ^ 53 ->
  wanted_size val0 val1 minimumDiff growRatio minLimit maxLimit = Ret size ->
  size < 2 ^ 53 ->
  exists start stop,
    expandRange val0 val1 minimumDiff growRatio minLimit maxLimit
    = Ret (start, stop)
    /\ start <= Z.max val0 minLimit
    /\ Z.min val1 maxLimit <= stop.
Proof.
  intros Hne Hd Hsize Hbound.
  rewrite (expandRange_exact _ _ _ _ _ _ size) by (try lia; assumption).
  eexists. eexists. split; [apply f_equal, surjective_pairing|].
  destruct (Z.ltb_spec (Z.min val1 maxLimit - Z.max val0 minLimit) size)
    as [Hgrow|Hkeep]; [|cbn [fst snd]; lia].
  repeat match goal with
         | |- context [if ?a <? ?b then _ else _] =>
             destruct (Z.ltb_spec a b)
         end; cbn [fst snd]; Z.div_mod_to_equations; lia.
Qed.

Lemma expandRange_contains_input_witness :
  Z.max 100 0 <= Z.min 150 1000
  /\ Z.min 150 1000 - Z.max 100 0 < 2 ^ 53
  /\ wanted_size 100 150 100 1.2 0 1000 = Ret 100
  /\ 100 < 2 ^ 53
  /\ expandRange 100 150 100 1.2 0 1000 = Ret (75, 175)
  /\ exists start stop,
       expandRange 100 150 100 1.2 0 1000 = Ret (start, stop)
       /\ start <= Z.max 100 0.
Proof.
  assert (H : Z.max 100 0 <= Z.min 150 1000) by (simpl; lia).
  assert (Hd : Z.min 150 1000 - Z.max 100 0 < 2 ^ 53) by (simpl; lia).
  assert (Hs : wanted_size 100 150 100 1.2 0 1000 = Ret 100) by reflexivity.
  assert (Hb : 100 < 2 ^ 53) by lia.
  split; [exact H|]. split; [exact Hd|]. split; [exact Hs|].
  split; [exact Hb|]. split; [reflexivity|].
  destruct (expandRange_contains_input 100 150 100 1.2 0 1000 100 H Hd Hs Hb)
    as (start & stop & Hrun & Hstart & _).
  exists start, stop. split; [exact Hrun|exact Hstart].
Defined.

(** For a range that meets the limits, with the clipped range and the
    wanted size [max(minimumDiff, int(diff*growRatio))] below [2^53], the
    size of the range returned is at least the wanted size, or the
    distance between the limits if that is smaller, less one: when the
    wanted size is odd and the upper limit is one step away, the range
    falls one short of it.  With an even wanted size nothing is missing.
    The range is never made larger than the wanted size.  The product
    [diff*growRatio] is a float product: [100*1.16] is
    115.99999999999999 and gives the wanted size 115. *)
Theorem expandRange_size (val0 val1 minimumDiff : Z) (growRatio : float)
    (minLimit maxLimit size : Z) :
  Z.max val0 minLimit <= Z.min val1 maxLimit ->
  Z.min val1 maxLimit - Z.max val0 minLimit < 2 ^ 53 ->
  wanted_size val0 val1 minimumDiff growRatio minLimit maxLimit = Ret size ->
  size < 2 ^ 53 ->
  exists start stop,
    expandRange val0 val1 minimumDiff growRatio minLimit maxLimit
    = Ret (start, stop)
    /\ Z.min size (maxLimit - minLimit) - 1 <= stop - start
    /\ (Z.even size = true ->
        Z.min size (maxLimit - minLimit) <= stop - start)
    /\ stop - start
       <= Z.max size (Z.min val1 maxLimit - Z.max val0 minLimit)
    /\ minimumDiff <= size.
Proof.
  intros Hne Hd Hsize Hbound.
  assert (Hmin : minimumDiff <= size).
  { unfold wanted_size in Hsize.
    destruct (int_of_product _ growRatio) as [grown|e|]; try discriminate.
    cbn [and_then] in Hsize. inversion Hsize.
    rewrite imax_is_Zmax. lia. }
  rewrite (expandRange_exact _ _ _ _ _ _ size) by (try lia; assumption).
  eexists. eexists. split; [apply f_equal, surjective_pairing|].
  destruct (Z.ltb_spec (Z.min val1 maxLimit - Z.max val0 minLimit) size)
    as [Hgrow|Hkeep].
  2:{ cbn [fst snd]. repeat split; try lia. }
  assert (Heven : Z.even size = true -> size = 2 * (size / 2)).
  { intros He. apply Z.even_spec in He. destruct He as (k & Hk).
    subst size. rewrite (Z.mul_comm 2 k), Z.div_mul by lia. lia. }
  repeat match goal with
         | |- context [if ?a <? ?b then _ else _] =>
             destruct (Z.ltb_spec a b)
         end; cbn [fst snd]; repeat split;
    try (Z.div_mod_to_equations; lia);
    intros He; specialize (Heven He); Z.div_mod_to_equations; lia.
Qed.

Lemma expandRange_size_witness :
  Z.max 100 0 <= Z.min 200 207
  /\ Z.min 200 207 - Z.max 100 0 < 2 ^ 53
  /\ wanted_size 100 200 10 1.16 0 207 = Ret 115
  /\ 115 < 2 ^ 53
  /\ expandRange 100 200 10 1.16 0 207 = Ret (93, 207)
  /\ exists start stop,
       expandRange 100 200 10 1.16 0 207 = Ret (start, stop)
       /\ Z.min 115 (207 - 0) - 1 <= stop - start.
Proof.
  assert (H : Z.max 100 0 <= Z.min 200 207) by (simpl; lia).
  assert (Hd : Z.min 200 207 - Z.max 100 0 < 2 ^ 53) by (simpl; lia).
  assert (Hs : wanted_size 100 200 10 1.16 0 207 = Ret 115) by reflexivity.
  assert (Hb : 115 < 2 ^ 53) by lia.
  split; [exact H|]. split; [exact Hd|]. split; [exact Hs|].
  split; [exact Hb|]. split; [reflexivity|].
  destruct (expandRange_size 100 200 10 1.16 0 207 115 H Hd Hs Hb)
    as (start & stop & Hrun & Hlow & _).
  exists start, stop. split; [exact Hrun|exact Hlow].
Defined.

End RecropFacts.
